(** * SecDashboard: the ingestion-and-classification pipeline

    A shallow embedding of the Python back end (feed poller, dedup
    ledger, document fetcher, form parsers, heuristic classifier and
    the adapter of the generative classifier), followed by the
    properties of the specification that were checked against it.

    Conventions of the embedding.
    - Python [str] is [string]; the model covers ASCII text: a byte
      above 127 is a character that is neither a space, a digit nor a
      word character.
    - Python [int] is [Z], Python [float] is the primitive binary64
      type [float], so infinities and NaN are present.
    - A dynamically typed value is a [pyval]; a [dict] with string keys
      is an association list in insertion order with unique keys.
    - An operation that can raise returns a [result]: [inl e] is the
      raised exception, [inr v] the returned value.
    - Sets ([set[str]], the ledger table keyed by accession number) are
      [gset string]; the CIK table is a [gmap string string].
    - Library calls whose result the program only passes on
      (BeautifulSoup, json, urljoin, the HTTP client, the XML parser)
      are parameters of the sections that use them. *)

From Stdlib Require Import ZArith String Ascii List Bool Lia.
From Stdlib Require Import PrimFloat SpecFloat FloatOps.
From Stdlib Require Import Sorting.Sorted.
From stdpp Require Import gmap strings sorting.
Import ListNotations.

Set Warnings "-abstract-large-number,-clear-no-such-hyp,-level-tolerance".
Open Scope string_scope.
Open Scope Z_scope.

(* ================================================================== *)
(** * Python values, exceptions and the error monad *)
(* ================================================================== *)

Inductive exn : Set :=
| TypeError
| ValueError
| OverflowError
| KeyError
| AttributeError
| JSONDecodeError
| ParseError
| HTTPError
| RecursionError.

Definition result (A : Type) : Type := (exn + A)%type.

Definition ret {A} (a : A) : result A := inr a.
Definition raise {A} (e : exn) : result A := inl e.
Definition bind {A B} (m : result A) (f : A -> result B) : result B :=
  match m with
  | inl e => inl e
  | inr a => f a
  end.

Notation "'let*' x ':=' m 'in' k" := (bind m (fun x => k))
  (at level 10, x name, m at level 100, k at level 200, only parsing).

#[warnings="-register-all"] Inductive pyval : Type :=
| PyNone
| PyBool (b : bool)
| PyInt (z : Z)
| PyFloat (f : float)
| PyStr (s : string)
| PyList (l : list pyval)
| PyDict (d : list (string * pyval)).

Abbreviation pydict := (list (string * pyval)).

(** [d.get(k)], [d.get(k, dflt)], [d[k] = v], [d.pop(k, None)]. *)
Fixpoint dict_get (d : pydict) (k : string) : option pyval :=
  match d with
  | [] => None
  | (k', v) :: d' => if String.eqb k' k then Some v else dict_get d' k
  end.

Definition dict_get_default (d : pydict) (k : string) (dflt : pyval) : pyval :=
  match dict_get d k with
  | Some v => v
  | None => dflt
  end.

Fixpoint dict_set (d : pydict) (k : string) (v : pyval) : pydict :=
  match d with
  | [] => [(k, v)]
  | (k', v') :: d' =>
      if String.eqb k' k then (k', v) :: d' else (k', v') :: dict_set d' k v
  end.

Fixpoint dict_pop (d : pydict) (k : string) : pydict :=
  match d with
  | [] => []
  | (k', v') :: d' =>
      if String.eqb k' k then d' else (k', v') :: dict_pop d' k
  end.

(* ================================================================== *)
(** * Strings *)
(* ================================================================== *)

Definition chars (s : string) : list ascii := list_ascii_of_string s.
Definition text (l : list ascii) : string := string_of_list_ascii l.

Definition code (c : ascii) : nat := nat_of_ascii c.

Definition in_range (lo hi : nat) (c : ascii) : bool :=
  Nat.leb lo (code c) && Nat.leb (code c) hi.

(** [str.isspace] on one ASCII character, which is also [\s]. *)
Definition is_space (c : ascii) : bool :=
  in_range 9 13 c || in_range 28 32 c.

Definition is_digit (c : ascii) : bool := in_range 48 57 c.
Definition is_upper (c : ascii) : bool := in_range 65 90 c.
Definition is_lower (c : ascii) : bool := in_range 97 122 c.

(** [\w]. *)
Definition is_word (c : ascii) : bool :=
  is_digit c || is_upper c || is_lower c || Ascii.eqb c "_".

Definition lower_char (c : ascii) : ascii :=
  if is_upper c then ascii_of_nat (code c + 32) else c.
Definition upper_char (c : ascii) : ascii :=
  if is_lower c then ascii_of_nat (code c - 32) else c.

(** [s.lower()]. *)
Definition lower (s : string) : string := text (map lower_char (chars s)).

Fixpoint lstrip_chars (l : list ascii) : list ascii :=
  match l with
  | c :: l' => if is_space c then lstrip_chars l' else l
  | [] => []
  end.

(** [s.strip()]. *)
Definition strip (s : string) : string :=
  text (rev (lstrip_chars (rev (lstrip_chars (chars s))))).

Fixpoint starts_with (p l : list ascii) : bool :=
  match p, l with
  | [], _ => true
  | a :: p', b :: l' => Ascii.eqb a b && starts_with p' l'
  | _ :: _, [] => false
  end.

(** [s.startswith(p)] and [s.endswith(p)]. *)
Definition startswith (s p : string) : bool := starts_with (chars p) (chars s).
Definition endswith (s p : string) : bool :=
  starts_with (rev (chars p)) (rev (chars s)).

Fixpoint find_sub (p l : list ascii) : bool :=
  starts_with p l ||
  match l with
  | [] => false
  | _ :: l' => find_sub p l'
  end.

(** [p in s] for two strings. *)
Definition contains (p s : string) : bool := find_sub (chars p) (chars s).

(** [s[:n]]. *)
Definition slice_to (n : nat) (s : string) : string := text (firstn n (chars s)).
(** [s[i:j]]. *)
Definition slice (i j : nat) (s : string) : string :=
  text (firstn (j - i) (skipn i (chars s))).

(** The pieces of [s.split(sep)] for a non-empty separator. *)
Fixpoint split_chars (sep : list ascii) (cur : list ascii) (l : list ascii)
    (fuel : nat) : list (list ascii) :=
  match fuel with
  | O => [app (rev cur) l]
  | S fuel' =>
      match l with
      | [] => [rev cur]
      | c :: l' =>
          if starts_with sep l
          then rev cur :: split_chars sep [] (skipn (List.length sep) l) fuel'
          else split_chars sep (c :: cur) l' fuel'
      end
  end.

Definition split (sep s : string) : list string :=
  map text (split_chars (chars sep) [] (chars s) (S (String.length s))).

(** [s.split(sep)[0]]: a split never yields an empty list. *)
Definition split_head (sep s : string) : string := hd "" (split sep s).

(** [s.rsplit(sep, 1)[-1]] for a one-character separator: what follows
    the last separator, the whole string when there is none. *)
Fixpoint after_last (sep : ascii) (cur : list ascii) (l : list ascii) : list ascii :=
  match l with
  | [] => rev cur
  | c :: l' =>
      if Ascii.eqb c sep then after_last sep [] l' else after_last sep (c :: cur) l'
  end.

Definition rsplit_last (sep : ascii) (s : string) : string :=
  text (after_last sep [] (chars s)).

(** [s.isdigit()]: false on the empty string. *)
Definition isdigit (s : string) : bool :=
  match chars s with
  | [] => false
  | l => forallb is_digit l
  end.


(* ================================================================== *)
(** * Regular expressions: the fragment of Python's [re] in use *)
(* ================================================================== *)

(** Patterns are quoted in comments in verbose form: white space
    between their tokens is not significant.

    A backtracking matcher in continuation-passing style.  It tries
    alternatives in the order [re] does: the left branch of [|] first,
    one more iteration first for a greedy repetition, the shortest
    first for a lazy one; the first complete match wins. *)
Module Re.
Local Open Scope nat_scope.

Inductive regex : Type :=
| Eps
| Chr (c : ascii)                 (* one literal character *)
| Cls (p : ascii -> bool)         (* a character class *)
| NotCls (p : ascii -> bool)      (* a negated character class *)
| Any                             (* [.] *)
| Seq (r1 r2 : regex)
| Alt (r1 r2 : regex)             (* [r1|r2] *)
| Star (r : regex)                (* [r*] *)
| LazyStar (r : regex)            (* [r*?] *)
| Grp (n : nat) (r : regex)       (* the n-th capturing group *)
| Bol                             (* [^] *)
| Eol.                            (* [$] *)

Record flags : Set := { IGNORECASE : bool; DOTALL : bool }.

Definition no_flags : flags := {| IGNORECASE := false; DOTALL := false |}.
Definition ignorecase : flags := {| IGNORECASE := true; DOTALL := false |}.
Definition dotall : flags := {| IGNORECASE := false; DOTALL := true |}.
Definition ignorecase_dotall : flags := {| IGNORECASE := true; DOTALL := true |}.

(** Capture table: group number, start and end offsets. *)
Definition caps : Set := list (nat * (nat * nat)).

Definition chr_ok (fl : flags) (a x : ascii) : bool :=
  if IGNORECASE fl then Ascii.eqb (lower_char a) (lower_char x) else Ascii.eqb a x.

Definition cls_ok (fl : flags) (p : ascii -> bool) (x : ascii) : bool :=
  if IGNORECASE fl then p x || p (lower_char x) || p (upper_char x) else p x.

Definition any_ok (fl : flags) (x : ascii) : bool :=
  DOTALL fl || negb (Ascii.eqb x "010").

Definition first_of {A} (a b : option A) : option A :=
  match a with
  | Some x => Some x
  | None => b
  end.

(** [run fl r s i c k]: match [r] at offset [i], where [s] is the rest
    of the input, then continue with [k]. *)
Fixpoint run {A} (fl : flags) (r : regex) (s : list ascii) (i : nat) (c : caps)
    (k : list ascii -> nat -> caps -> option A) {struct r} : option A :=
  match r with
  | Eps => k s i c
  | Chr a =>
      match s with
      | x :: s' => if chr_ok fl a x then k s' (S i) c else None
      | [] => None
      end
  | Cls p =>
      match s with
      | x :: s' => if cls_ok fl p x then k s' (S i) c else None
      | [] => None
      end
  | NotCls p =>
      match s with
      | x :: s' => if cls_ok fl p x then None else k s' (S i) c
      | [] => None
      end
  | Any =>
      match s with
      | x :: s' => if any_ok fl x then k s' (S i) c else None
      | [] => None
      end
  | Seq r1 r2 => run fl r1 s i c (fun s' i' c' => run fl r2 s' i' c' k)
  | Alt r1 r2 => first_of (run fl r1 s i c k) (run fl r2 s i c k)
  | Star r1 =>
      (fix loop (fuel : nat) (s : list ascii) (i : nat) (c : caps) : option A :=
         match fuel with
         | O => k s i c
         | S fuel' =>
             first_of
               (run fl r1 s i c
                  (fun s' i' c' => if Nat.ltb i i' then loop fuel' s' i' c' else None))
               (k s i c)
         end) (S (List.length s)) s i c
  | LazyStar r1 =>
      (fix loop (fuel : nat) (s : list ascii) (i : nat) (c : caps) : option A :=
         match fuel with
         | O => k s i c
         | S fuel' =>
             first_of
               (k s i c)
               (run fl r1 s i c
                  (fun s' i' c' => if Nat.ltb i i' then loop fuel' s' i' c' else None))
         end) (S (List.length s)) s i c
  | Grp n r1 => run fl r1 s i c (fun s' i' c' => k s' i' ((n, (i, i')) :: c'))
  | Bol => if Nat.eqb i 0 then k s i c else None
  | Eol =>
      match s with
      | [] => k s i c
      | [x] => if Ascii.eqb x "010" then k s i c else None
      | _ => None
      end
  end.

(** A match: start, end and the capture table. *)
Record mobj : Set := { m_start : nat; m_end : nat; m_caps : caps }.

Definition match_at (fl : flags) (r : regex) (s : list ascii) (i : nat) : option mobj :=
  run fl r s i [] (fun _ j c => Some {| m_start := i; m_end := j; m_caps := c |}).

Fixpoint search_from (fl : flags) (r : regex) (s : list ascii) (i : nat) : option mobj :=
  first_of (match_at fl r s i)
    match s with
    | [] => None
    | _ :: s' => search_from fl r s' (S i)
    end.

Fixpoint cap_lookup (c : caps) (n : nat) : option (nat * nat) :=
  match c with
  | [] => None
  | (n', se) :: c' => if Nat.eqb n' n then Some se else cap_lookup c' n
  end.

(** [m.group(n)] on the input [s]; [None] when the group took no part. *)
Definition group (s : string) (m : mobj) (n : nat) : option string :=
  match n with
  | O => Some (slice (m_start m) (m_end m) s)
  | _ => match cap_lookup (m_caps m) n with
         | Some (a, b) => Some (slice a b s)
         | None => None
         end
  end.

(** [re.match(r, s)], [re.search(r, s)]. *)
Definition re_match (fl : flags) (r : regex) (s : string) : option mobj :=
  match_at fl r (chars s) 0.
Definition re_search (fl : flags) (r : regex) (s : string) : option mobj :=
  search_from fl r (chars s) 0.

(** All matches from left to right, not overlapping; the scan resumes
    at the end of a match, one character further after an empty one. *)
Fixpoint scan (fl : flags) (r : regex) (s : list ascii) (i : nat) (fuel : nat)
    : list mobj :=
  match fuel with
  | O => []
  | S fuel' =>
      match search_from fl r s i with
      | None => []
      | Some m =>
          let step := if Nat.ltb (m_start m) (m_end m)
                      then m_end m - i else S (m_end m - i) in
          m :: scan fl r (skipn step s) (i + step) fuel'
      end
  end.

Definition finditer (fl : flags) (r : regex) (s : string) : list mobj :=
  scan fl r (chars s) 0 (S (String.length s)).

(** [re.findall(r, s)] for a pattern with one group. *)
Definition findall1 (fl : flags) (r : regex) (s : string) : list string :=
  map (fun m => default "" (group s m 1)) (finditer fl r s).

(** [re.sub(r, repl, s)] for a replacement without back-references. *)
Fixpoint sub_loop (repl : list ascii) (ms : list mobj) (s : list ascii) (i : nat)
    : list ascii :=
  match ms with
  | [] => s
  | m :: ms' =>
      app (firstn (m_start m - i) s)
        (app repl (sub_loop repl ms' (skipn (m_end m - i) s) (m_end m)))
  end.

Definition sub (fl : flags) (r : regex) (repl s : string) : string :=
  text (sub_loop (chars repl) (finditer fl r s) (chars s) 0).

(** Pattern syntax. *)
Fixpoint cat (rs : list regex) : regex :=
  match rs with
  | [] => Eps
  | [r] => r
  | r :: rs' => Seq r (cat rs')
  end.

Fixpoint alt (rs : list regex) : regex :=
  match rs with
  | [] => Eps
  | [r] => r
  | r :: rs' => Alt r (alt rs')
  end.

Definition lit (s : string) : regex := cat (map Chr (chars s)).
Definition plus (r : regex) : regex := Seq r (Star r).          (* r+ *)
Definition lazy_plus (r : regex) : regex := Seq r (LazyStar r). (* r+? *)
Definition opt (r : regex) : regex := Alt r Eps.                (* r? *)

Fixpoint rep (n : nat) (r : regex) : regex :=                   (* r{n} *)
  match n with
  | O => Eps
  | S n' => Seq r (rep n' r)
  end.

Fixpoint upto (n : nat) (r : regex) : regex :=                  (* r{0,n} *)
  match n with
  | O => Eps
  | S n' => Alt (Seq r (upto n' r)) Eps
  end.

Definition range (lo hi : nat) (r : regex) : regex :=           (* r{lo,hi} *)
  Seq (rep lo r) (upto (hi - lo) r).

Definition ws : regex := Cls is_space.                          (* \s *)
Definition digit : regex := Cls is_digit.                       (* \d *)
Definition one_of (s : string) (c : ascii) : bool :=
  existsb (Ascii.eqb c) (chars s).

End Re.

(* ================================================================== *)
(** * Numbers and the dynamic operations of Python *)
(* ================================================================== *)

Module Py.

(** The digits of a decimal numeral, as a natural number in [Z]. *)
Definition digit_val (c : ascii) : Z := Z.of_nat (code c - 48).

Fixpoint digits_val (acc : Z) (l : list ascii) : Z :=
  match l with
  | [] => acc
  | c :: l' => digits_val (10 * acc + digit_val c) l'
  end.

Fixpoint span (p : ascii -> bool) (l : list ascii) : list ascii * list ascii :=
  match l with
  | c :: l' => if p c then let (a, b) := span p l' in (c :: a, b) else ([], l)
  | [] => ([], [])
  end.

Fixpoint pow10 (k : nat) : positive :=
  match k with
  | O => 1%positive
  | S k' => (10 * pow10 k')%positive
  end.

(** The binary64 number nearest to [n / 10^k] (ties to even), which is
    what a correctly rounded decimal conversion returns. *)
Definition nearest_float (n : Z) (k : nat) : float :=
  match n with
  | Zpos p =>
      SF2Prim (SFdiv prec emax (S754_finite false p 0)
                 (S754_finite false (pow10 k) 0))
  | _ => 0%float
  end.

(** [float(s)] on a string made of digits and dots: an integer part,
    then optionally a dot and a fraction, with a digit somewhere;
    anything else is a [ValueError]. *)
Definition float_of_decimal (s : string) : result float :=
  let (ip, rest) := span is_digit (chars s) in
  match rest with
  | [] =>
      match ip with
      | [] => raise ValueError
      | _ => ret (nearest_float (digits_val 0 ip) 0)
      end
  | c :: rest' =>
      if Ascii.eqb c "." then
        let (fp, rest'') := span is_digit rest' in
        match rest'', app ip fp with
        | [], _ :: _ => ret (nearest_float (digits_val 0 (app ip fp)) (List.length fp))
        | _, _ => raise ValueError
        end
      else raise ValueError
  end.

(** A finite float as [m * 2^e]; [z < f] and [f < z] decided exactly,
    as Python compares an [int] with a [float]. *)
Definition int_lt_float (z : Z) (f : float) : bool :=
  match Prim2SF f with
  | S754_nan => false
  | S754_infinity neg => negb neg
  | S754_zero _ => z <? 0
  | S754_finite neg m e =>
      let sm := if neg then Z.neg m else Z.pos m in
      if 0 <=? e then z <? sm * 2 ^ e else z * 2 ^ (- e) <? sm
  end.

Definition float_lt_int (f : float) (z : Z) : bool :=
  match Prim2SF f with
  | S754_nan => false
  | S754_infinity neg => neg
  | S754_zero _ => 0 <? z
  | S754_finite neg m e =>
      let sm := if neg then Z.neg m else Z.pos m in
      if 0 <=? e then sm * 2 ^ e <? z else sm <? z * 2 ^ (- e)
  end.

(** [f <= z]. *)
Definition float_le_int (f : float) (z : Z) : bool :=
  match Prim2SF f with
  | S754_nan => false
  | S754_infinity neg => neg
  | S754_zero _ => 0 <=? z
  | S754_finite neg m e =>
      let sm := if neg then Z.neg m else Z.pos m in
      if 0 <=? e then sm * 2 ^ e <=? z else sm <=? z * 2 ^ (- e)
  end.

(** [f == 0.0]: both zeros, and nothing else. *)
Definition float_is_zero (f : float) : bool :=
  match Prim2SF f with
  | S754_zero _ => true
  | _ => false
  end.

(** [float(z)] for the integer constants of the program, all of them
    small enough to be exact. *)
Definition float_of_int (z : Z) : float :=
  match z with
  | Z0 => 0%float
  | Zpos p => SF2Prim (SFdiv prec emax (S754_finite false p 0) (S754_finite false 1 0))
  | Zneg p => SF2Prim (SFdiv prec emax (S754_finite true p 0) (S754_finite false 1 0))
  end.

Definition int_of_bool (b : bool) : Z := if b then 1 else 0.

(** [bool(v)]. *)
Definition truthy (v : pyval) : bool :=
  match v with
  | PyNone => false
  | PyBool b => b
  | PyInt z => negb (z =? 0)
  | PyFloat f => negb (float_is_zero f)
  | PyStr s => negb (String.eqb s "")
  | PyList l => match l with [] => false | _ => true end
  | PyDict d => match d with [] => false | _ => true end
  end.

(** [v < n] and [v > n] for an [int] [n]; only numbers compare with
    an [int]. *)
Definition lt_int (v : pyval) (n : Z) : result bool :=
  match v with
  | PyBool b => ret (int_of_bool b <? n)
  | PyInt z => ret (z <? n)
  | PyFloat f => ret (float_lt_int f n)
  | _ => raise TypeError
  end.

Definition gt_int (v : pyval) (n : Z) : result bool :=
  match v with
  | PyBool b => ret (n <? int_of_bool b)
  | PyInt z => ret (n <? z)
  | PyFloat f => ret (int_lt_float n f)
  | _ => raise TypeError
  end.

Fixpoint repeat_list {A} (l : list A) (n : nat) : list A :=
  match n with
  | O => []
  | S n' => app l (repeat_list l n')
  end.

(** [v * n] for an [int] [n]. *)
Definition mul_int (v : pyval) (n : Z) : result pyval :=
  match v with
  | PyBool b => ret (PyInt (int_of_bool b * n))
  | PyInt z => ret (PyInt (z * n))
  | PyFloat f => ret (PyFloat (PrimFloat.mul f (float_of_int n)))
  | PyStr s => ret (PyStr (text (repeat_list (chars s) (Z.to_nat n))))
  | PyList l => ret (PyList (repeat_list l (Z.to_nat n)))
  | PyNone | PyDict _ => raise TypeError
  end.

(** [min(n, v)] and [max(n, v)] with the [int] first: the second
    argument is returned only when it is strictly smaller (larger). *)
Definition min_int (n : Z) (v : pyval) : result pyval :=
  let* b := lt_int v n in ret (if b then v else PyInt n).

Definition max_int (n : Z) (v : pyval) : result pyval :=
  let* b := gt_int v n in ret (if b then v else PyInt n).

(** [v == s] for a string [s]. *)
Definition eq_str (v : pyval) (s : string) : bool :=
  match v with
  | PyStr s' => String.eqb s' s
  | _ => false
  end.

Fixpoint dict_has_key (d : pydict) (k : string) : bool :=
  match d with
  | [] => false
  | (k', _) :: d' => String.eqb k' k || dict_has_key d' k
  end.

(** [s in v] for a string [s]. *)
Definition str_in (s : string) (v : pyval) : result bool :=
  match v with
  | PyStr t => ret (contains s t)
  | PyList l => ret (existsb (fun x => eq_str x s) l)
  | PyDict d => ret (dict_has_key d s)
  | _ => raise TypeError
  end.

Definition hashable (v : pyval) : bool :=
  match v with
  | PyList _ | PyDict _ => false
  | _ => true
  end.

(** [set(v)]: the elements of an iterable, all of them hashable.  The
    elements are kept in a list; only membership is ever asked. *)
Definition set_of (v : pyval) : result (list pyval) :=
  let* elems :=
    match v with
    | PyList l => ret l
    | PyStr s => ret (map (fun c => PyStr (String c EmptyString)) (chars s))
    | PyDict d => ret (map (fun kv => PyStr (fst kv)) d)
    | _ => raise TypeError
    end in
  if forallb hashable elems then ret elems else raise TypeError.

(** [bool(items & codes)] for a set of strings [codes]. *)
Definition meets (items : list pyval) (codes : gset string) : bool :=
  existsb (fun v => match v with
                    | PyStr s => bool_decide (s ∈ codes)
                    | _ => false
                    end) items.

(** [int(f)] for a float: truncation toward zero. *)
Definition int_of_float (f : float) : result Z :=
  match Prim2SF f with
  | S754_nan => raise ValueError
  | S754_infinity _ => raise OverflowError
  | S754_zero _ => ret 0
  | S754_finite neg m e =>
      let mag := if 0 <=? e then Z.pos m * 2 ^ e else Z.pos m / 2 ^ (- e) in
      ret (if neg then - mag else mag)
  end.

(** [int(s)] for a string: surrounding white space, an optional sign,
    digits that single underscores may separate. *)
Fixpoint int_digits (acc : Z) (prev_digit : bool) (l : list ascii) : result Z :=
  match l with
  | [] => if prev_digit then ret acc else raise ValueError
  | c :: l' =>
      if is_digit c then int_digits (10 * acc + digit_val c) true l'
      else if Ascii.eqb c "_" && prev_digit then int_digits acc false l'
      else raise ValueError
  end.

Definition int_of_str (s : string) : result Z :=
  match chars (strip s) with
  | [] => raise ValueError
  | c :: l =>
      if Ascii.eqb c "-" then (let* z := int_digits 0 false l in ret (- z))
      else if Ascii.eqb c "+" then int_digits 0 false l
      else int_digits 0 false (c :: l)
  end.

(** [int(v)]. *)
Definition int (v : pyval) : result Z :=
  match v with
  | PyBool b => ret (int_of_bool b)
  | PyInt z => ret z
  | PyFloat f => int_of_float f
  | PyStr s => int_of_str s
  | PyNone | PyList _ | PyDict _ => raise TypeError
  end.

End Py.

(** [a <= b] on strings, by code point. *)
Definition str_le (a b : string) : Prop := String.leb a b = true.

#[global] Instance str_le_dec : RelDecision str_le.
Proof. intros a b. unfold str_le. apply _. Defined.

(** [sorted(set(xs))] on strings: the order in which a set enumerates
    its elements is unspecified, and the sort makes it irrelevant. *)
Definition sorted_set (xs : list string) : list string :=
  merge_sort str_le (remove_dups xs).

(** The text of a page once BeautifulSoup has extracted it:
    [re.sub(r"\s+", " ", text).strip()]. *)
Definition squeeze (s : string) : string :=
  strip (Re.sub Re.no_flags (Re.plus Re.ws) " " s).

(* ================================================================== *)
(** * app/parsers/form_8k.py *)
(* ================================================================== *)

Module form_8k.
Import Re.

Definition ITEM_MAP : list (string * string) :=
  [ ("1.01", "Entry into a Material Definitive Agreement");
    ("1.02", "Termination of a Material Definitive Agreement");
    ("1.03", "Bankruptcy or Receivership");
    ("2.01", "Completion of Acquisition or Disposition of Assets");
    ("2.02", "Results of Operations and Financial Condition");
    ("2.03", "Creation of a Direct Financial Obligation");
    ("2.04", "Triggering Events That Accelerate or Increase a Direct Financial Obligation");
    ("2.05", "Costs Associated with Exit or Disposal Activities");
    ("2.06", "Material Impairments");
    ("3.01", "Notice of Delisting or Failure to Satisfy Listing Standard");
    ("3.02", "Unregistered Sales of Equity Securities");
    ("3.03", "Material Modification to Rights of Security Holders");
    ("4.01", "Changes in Registrant's Certifying Accountant");
    ("4.02", "Non-Reliance on Previously Issued Financial Statements");
    ("5.01", "Changes in Control of Registrant");
    ("5.02", "Departure of Directors or Certain Officers; Appointment of Certain Officers");
    ("5.03", "Amendments to Articles of Incorporation or Bylaws");
    ("5.04", "Temporary Suspension of Trading Under Employee Benefit Plans");
    ("5.05", "Amendments to the Code of Ethics");
    ("5.06", "Change in Shell Company Status");
    ("5.07", "Submission of Matters to a Vote of Security Holders");
    ("5.08", "Shareholder Nominations");
    ("7.01", "Regulation FD Disclosure");
    ("8.01", "Other Events");
    ("9.01", "Financial Statements and Exhibits") ].

Definition BULLISH_ITEMS : gset string :=
  list_to_set ["1.01"; "2.01"; "2.02"; "5.03"; "5.07"; "5.08"].
Definition BEARISH_ITEMS : gset string :=
  list_to_set ["1.02"; "1.03"; "2.04"; "2.05"; "2.06"; "3.01"; "3.03"; "4.02";
               "5.02"; "5.06"].

(** [Item \s+ ( \d+ \. \d+ )], IGNORECASE. *)
Definition _ITEM_RE : regex :=
  cat [lit "Item"; plus ws; Grp 1 (cat [plus digit; Chr "."; plus digit])].

Fixpoint item_description (m : list (string * string)) (code : string) : string :=
  match m with
  | [] => "Unknown"
  | (k, v) :: m' => if String.eqb k code then v else item_description m' code
  end.

Definition intersects (items : list string) (codes : gset string) : bool :=
  existsb (fun c => bool_decide (c ∈ codes)) items.

(** The structured fields, from the cleaned text. *)
Definition fields_8k (txt : string) : pydict :=
  let items_found := sorted_set (findall1 ignorecase _ITEM_RE txt) in
  let item_descriptions :=
    map (fun code =>
           PyDict [("code", PyStr code);
                   ("description", PyStr (item_description ITEM_MAP code))])
        items_found in
  [ ("items", PyList (map PyStr items_found));
    ("item_descriptions", PyList item_descriptions);
    ("has_bullish_items", PyBool (intersects items_found BULLISH_ITEMS));
    ("has_bearish_items", PyBool (intersects items_found BEARISH_ITEMS)) ].

Section Parser.
(** [BeautifulSoup(raw_html, "html.parser")], without its script and
    style elements, then [get_text(separator=" ", strip=True)]. *)
Variable soup_text : string -> string.

(** Parse an 8-K filing: (text_excerpt, parsed_data).  The two calls of
    print only write to the standard output. *)
Definition parse_8k (raw_html : string) : string * pydict :=
  let txt := squeeze (soup_text raw_html) in
  (txt, fields_8k txt).
End Parser.

End form_8k.

(* ================================================================== *)
(** * app/parsers/form_13d_13g.py *)
(* ================================================================== *)

Module form_13d_13g.
Import Re.

(** [( \d+ \.? \d* ) \s* %]. *)
Definition _PERCENT_RE : regex :=
  cat [Grp 1 (cat [plus digit; opt (Chr "."); Star digit]); Star ws; Chr "%"].

Definition words (a b : string) : regex := cat [lit a; plus ws; lit b].

Definition _ACTIVISM_KEYWORDS : regex :=
  alt [ words "board" "seat";
        words "board" "representation";
        words "strategic" "alternative";
        cat [lit "change"; plus ws; lit "in"; plus ws; lit "control"];
        words "extraordinary" "transaction";
        lit "merger";
        words "proxy" "contest";
        words "replace" "management";
        words "special" "meeting" ].

Definition _PASSIVE_KEYWORDS : regex :=
  alt [ cat [lit "investment"; plus ws; lit "purpose"; opt (Chr "s"); plus ws; lit "only"];
        words "passive" "invest";
        words "ordinary" "course" ].

(** [schedule \s+ 13D]. *)
Definition schedule_13d_re : regex := words "schedule" "13D".

(** [(?: name \s+ of \s+ reporting \s+ person | filed \s+ by ) [:\s]*
     ( [A-Z] [\w\s,.'&-]{3,60} )]. *)
Definition name_re : regex :=
  cat [ Alt (cat [lit "name"; plus ws; lit "of"; plus ws; lit "reporting"; plus ws;
                  lit "person"])
            (words "filed" "by");
        Star (Cls (fun c => Ascii.eqb c ":" || is_space c));
        Grp 1 (cat [ Cls is_upper;
                     range 3 60
                       (Cls (fun c => is_word c || is_space c || one_of ",.'&-" c)) ]) ].

(** [item \s* 4 [^:]* [:.]? \s* ( .*? ) (?: item \s* 5 | $ )]. *)
Definition item4_re : regex :=
  cat [ lit "item"; Star ws; Chr "4"; Star (NotCls (one_of ":"));
        opt (Cls (one_of ":.")); Star ws; Grp 1 (LazyStar Any);
        Alt (cat [lit "item"; Star ws; Chr "5"]) Eol ].

Definition is_some {A} (o : option A) : bool :=
  match o with Some _ => true | None => false end.

(** [[float(p) for p in matches if 0 < float(p) <= 100]]; the matches
    are numerals, for which [float] does not raise. *)
Definition percentages (matches : list string) : list float :=
  omap (fun p => match Py.float_of_decimal p with
                 | inr f => if Py.int_lt_float 0 f && Py.float_le_int f 100
                            then Some f else None
                 | inl _ => None
                 end) matches.

(** [max(l)]: the first of the largest elements. *)
Fixpoint float_max (cur : float) (l : list float) : float :=
  match l with
  | [] => cur
  | f :: l' => float_max (if PrimFloat.ltb cur f then f else cur) l'
  end.

Definition strategy_label (is_13d has_activism has_passive : bool) : string :=
  if is_13d && has_activism then "activist"
  else if has_passive then "passive"
  else if is_13d then "potentially activist"
  else "passive".

Definition fields_13d_13g (txt : string) : pydict :=
  let is_13d := is_some (re_search ignorecase schedule_13d_re (slice_to 2000 txt)) in
  let form_subtype := if is_13d then "13D" else "13G" in
  let percent_matches := findall1 ignorecase _PERCENT_RE (slice_to 5000 txt) in
  let ownership_pct :=
    match percentages percent_matches with
    | [] => PyNone
    | f :: fs => PyFloat (float_max f fs)
    end in
  let head := slice_to 3000 txt in
  let filer_name :=
    match re_search ignorecase name_re head with
    | Some m => strip (default "" (group head m 1))
    | None => "Unknown"
    end in
  let has_activism := is_some (re_search ignorecase _ACTIVISM_KEYWORDS txt) in
  let has_passive := is_some (re_search ignorecase _PASSIVE_KEYWORDS txt) in
  let strategy := strategy_label is_13d has_activism has_passive in
  let purpose_text :=
    match re_search ignorecase_dotall item4_re txt with
    | Some m => slice_to 500 (strip (default "" (group txt m 1)))
    | None => ""
    end in
  [ ("form_subtype", PyStr form_subtype);
    ("filer_name", PyStr filer_name);
    ("ownership_pct", ownership_pct);
    ("strategy", PyStr strategy);
    ("has_activism_language", PyBool has_activism);
    ("purpose_excerpt", PyStr purpose_text) ].

Section Parser.
(** [BeautifulSoup(raw_html, "lxml")], without its script and style
    elements, then [get_text(separator=" ", strip=True)]. *)
Variable soup_text : string -> string.

Definition parse_13d_13g (raw_html : string) : string * pydict :=
  let txt := squeeze (soup_text raw_html) in
  (txt, fields_13d_13g txt).
End Parser.

End form_13d_13g.

(* ================================================================== *)
(** * app/parsers/form_10q.py *)
(* ================================================================== *)

Module form_10q.
Import Re.

(** [[\d,]+ (?: \. \d+ )?]. *)
Definition amount_re : regex :=
  cat [plus (Cls (fun c => is_digit c || Ascii.eqb c ",")); opt (cat [Chr "."; plus digit])].

(** [\s* [:\s]* \$? \s*], which follows every label. *)
Definition label_tail : list regex :=
  [Star ws; Star (Cls (fun c => Ascii.eqb c ":" || is_space c)); opt (Chr "$"); Star ws].

(** [(?: total \s+ )? (?: net \s+ )? revenue [s]? ... ( amount )]. *)
Definition _REVENUE_RE : regex :=
  cat (app [opt (cat [lit "total"; plus ws]); opt (cat [lit "net"; plus ws]);
            lit "revenue"; opt (Chr "s")]
           (app label_tail [Grp 1 amount_re])).

(** [net \s+ (?: income | loss ) ... \(? \s* ( amount ) \s* \)?]. *)
Definition _NET_INCOME_RE : regex :=
  cat (app [lit "net"; plus ws; Alt (lit "income") (lit "loss")]
           (app label_tail [opt (Chr "("); Star ws; Grp 1 amount_re; Star ws;
                            opt (Chr ")")])).

(** [(?: basic | diluted ) \s+ (?: net \s+ )? (?: income | loss | earnings )
     \s+ per \s+ (?: common \s+ )? share ... \(? \s* ( [\d.]+ ) \s* \)?]. *)
Definition _EPS_RE : regex :=
  cat (app [Alt (lit "basic") (lit "diluted"); plus ws; opt (cat [lit "net"; plus ws]);
            alt [lit "income"; lit "loss"; lit "earnings"]; plus ws; lit "per"; plus ws;
            opt (cat [lit "common"; plus ws]); lit "share"]
           (app label_tail
              [opt (Chr "("); Star ws;
               Grp 1 (plus (Cls (fun c => is_digit c || Ascii.eqb c ".")));
               Star ws; opt (Chr ")")])).

(** [cash \s+ and \s+ cash \s+ equivalents ... ( amount )]. *)
Definition _CASH_RE : regex :=
  cat (app [lit "cash"; plus ws; lit "and"; plus ws; lit "cash"; plus ws;
            lit "equivalents"]
           (app label_tail [Grp 1 amount_re])).

(** [management .s? \s+ discussion \s+ and \s+ analysis]. *)
Definition mda_re : regex :=
  cat [lit "management"; Any; opt (Chr "s"); plus ws; lit "discussion"; plus ws;
       lit "and"; plus ws; lit "analysis"].

Definition RISK_KEYWORDS : list string :=
  [ "supply chain"; "headwinds"; "inflation"; "recession"; "uncertainty";
    "litigation"; "regulatory"; "cybersecurity"; "impairment"; "restructuring";
    "tariff"; "geopolitical"; "liquidity"; "default"; "downgrade" ].

Definition POSITIVE_KEYWORDS : list string :=
  [ "growth"; "momentum"; "strong demand"; "record revenue"; "expansion";
    "improved margin"; "exceeded expectations"; "tailwind"; "innovation" ].

(** [float(text.replace(",", ""))], [None] on a [ValueError]. *)
Definition _extract_number (txt : string) : pyval :=
  let cleaned := text (filter (fun c => negb (Ascii.eqb c ",")) (chars txt)) in
  match Py.float_of_decimal cleaned with
  | inr f => PyFloat f
  | inl _ => PyNone
  end.

Definition metric (r : regex) (txt : string) : pyval :=
  match re_search ignorecase r txt with
  | Some m => _extract_number (default "" (group txt m 1))
  | None => PyNone
  end.

(** The keywords that occur, each with its number of occurrences. *)
Definition mentions (keywords : list string) (txt : string) : list (string * nat) :=
  omap (fun kw =>
          let count := List.length (finditer ignorecase (lit kw) txt) in
          if Nat.ltb 0 count then Some (kw, count) else None) keywords.

(** [sorted(items, key=count, reverse=True)]: stable, largest first. *)
Fixpoint insert_desc (x : string * nat) (l : list (string * nat)) : list (string * nat) :=
  match l with
  | [] => [x]
  | y :: l' => if Nat.ltb (snd x) (snd y) then y :: insert_desc x l' else x :: l
  end.

Definition sorted_desc (l : list (string * nat)) : list (string * nat) :=
  fold_right insert_desc [] l.

Definition count_dict (l : list (string * nat)) : pyval :=
  PyDict (map (fun kc => (fst kc, PyInt (Z.of_nat (snd kc)))) l).

(** The inline XBRL facts: the first text seen under each tag name. *)
Fixpoint ixbrl_facts (acc : pydict) (tags : list (option string * string)) : pydict :=
  match tags with
  | [] => acc
  | (Some name, txt) :: tags' =>
      if negb (String.eqb name "") && negb (Py.dict_has_key acc name)
      then ixbrl_facts (app acc [(name, PyStr txt)]) tags'
      else ixbrl_facts acc tags'
  | (None, _) :: tags' => ixbrl_facts acc tags'
  end.

Definition fields_10q (ix_tags : list (option string * string)) (txt : string) : pydict :=
  let revenue := metric _REVENUE_RE txt in
  let net_income := metric _NET_INCOME_RE txt in
  let eps := metric _EPS_RE txt in
  let cash := metric _CASH_RE txt in
  let mda_text :=
    match re_search ignorecase mda_re txt with
    | Some m => slice (m_start m) (m_start m + 10000) txt
    | None => slice_to 10000 txt
    end in
  let risk_mentions := mentions RISK_KEYWORDS mda_text in
  let positive_mentions := mentions POSITIVE_KEYWORDS mda_text in
  let top_risks := firstn 3 (sorted_desc risk_mentions) in
  [ ("revenue", revenue);
    ("net_income", net_income);
    ("eps", eps);
    ("cash_and_equivalents", cash);
    ("risk_mentions", count_dict risk_mentions);
    ("positive_mentions", count_dict positive_mentions);
    ("top_risk_factors", PyList (map (fun r => PyStr (fst r)) top_risks));
    ("sentiment_score",
      PyInt (Z.of_nat (List.length positive_mentions)
             - Z.of_nat (List.length risk_mentions)));
    ("ixbrl_detected", PyBool (match ix_tags with [] => false | _ => true end));
    ("ixbrl_fact_count", PyInt (Z.of_nat (List.length ix_tags)));
    ("ixbrl_sample", PyDict (firstn 10 (ixbrl_facts [] ix_tags))) ].

Section Parser.
(** [BeautifulSoup(raw_html, "lxml")]: its elements whose tag name
    starts with [ix:], each with its [name] attribute and its
    stripped text; and the text of the page without its script and
    style elements. *)
Variable soup_ix_tags : string -> list (option string * string).
Variable soup_text : string -> string.

Definition parse_10q (raw_html : string) : string * pydict :=
  let ix_tags := soup_ix_tags raw_html in
  let txt := squeeze (soup_text raw_html) in
  (txt, fields_10q ix_tags txt).
End Parser.

End form_10q.

(* ================================================================== *)
(** * app/services/alpha_engine.py *)
(* ================================================================== *)

Module alpha_engine.
Import form_8k.

(** Fast heuristic classification. *)
Definition pre_classify (segment : string) (parsed_data : pydict) : result pyval :=
  if String.eqb segment "catalyst" then
    let* items := Py.set_of (dict_get_default parsed_data "items" (PyList [])) in
    if Py.meets items BEARISH_ITEMS then ret (PyInt (-70))
    else if Py.meets items BULLISH_ITEMS then ret (PyInt 70)
    else ret (PyInt 0)
  else if String.eqb segment "whale" then
    let form_subtype := dict_get_default parsed_data "form_subtype" (PyStr "") in
    let strategy := dict_get_default parsed_data "strategy" (PyStr "") in
    let ownership := dict_get_default parsed_data "ownership_pct" PyNone in
    let* activist :=
      if Py.eq_str form_subtype "13D" then Py.str_in "activist" strategy
      else ret false in
    if activist then ret (PyInt 80)
    else if Py.eq_str form_subtype "13D" then ret (PyInt 60)
    else
      let* large := if Py.truthy ownership then Py.gt_int ownership 5 else ret false in
      if large then ret (PyInt 40) else ret (PyInt 0)
  else if String.eqb segment "pulse" then
    let raw := dict_get_default parsed_data "sentiment_score" (PyInt 0) in
    let* scaled := Py.mul_int raw 20 in
    let* capped := Py.min_int 100 scaled in
    Py.max_int (-100) capped
  else ret (PyInt 0).

End alpha_engine.

(* ================================================================== *)
(** * app/services/ai_processor.py *)
(* ================================================================== *)

Module ai_processor.
Import Re.

(** The double quote. *)
Definition dquote : ascii := "034"%char.

(** Three backquotes, [(?: json )? \s* ( \{ .*? \} ) \s*], three
    backquotes; DOTALL. *)
Definition fence_re : regex :=
  cat [ lit "```"; opt (lit "json"); Star ws;
        Grp 1 (cat [Chr "{"; LazyStar Any; Chr "}"]); Star ws; lit "```" ].

(** [\{ [^{}]*], the word summary between double quotes, [[^{}]* \}];
    DOTALL. *)
Definition summary_re : regex :=
  cat [ Chr "{"; Star (NotCls (one_of "{}")); Chr dquote; lit "summary"; Chr dquote;
        Star (NotCls (one_of "{}")); Chr "}" ].

Definition could_not_parse : string := "Could not parse structured SLM response".

(** The synthetic result of the last resort. *)
Definition fallback_result (txt : string) : pyval :=
  PyDict [ ("summary", PyStr (slice_to 300 txt));
           ("impact", PyInt 0);
           ("reasons", PyList [PyStr could_not_parse]) ].

Definition legacy_score (label : string) : Z :=
  if String.eqb label "bullish" then 60
  else if String.eqb label "bearish" then -60
  else if String.eqb label "neutral" then 0
  else 0.

(** Ensure impact is an integer clamped to [-100, 100]. *)
Definition _validate_impact (parsed : pyval) : result pydict :=
  match parsed with
  | PyDict d =>
      let raw := dict_get_default d "impact" (dict_get_default d "signal" (PyInt 0)) in
      let raw := match raw with
                 | PyStr s => PyInt (legacy_score (lower s))
                 | _ => raw
                 end in
      let* score :=
        match Py.int raw with
        | inr z => ret z
        | inl TypeError | inl ValueError => ret 0
        | inl e => raise e
        end in
      ret (dict_pop (dict_set d "impact" (PyInt (Z.max (-100) (Z.min 100 score))))
                    "signal")
  | _ => raise AttributeError
  end.

Section Adapter.
(** [json.loads]. *)
Variable json_loads : string -> result pyval.

(** [try: return json.loads(s)  except json.JSONDecodeError: pass],
    followed by [otherwise]. *)
Definition try_loads (s : string) (otherwise : result pyval) : result pyval :=
  match json_loads s with
  | inr v => ret v
  | inl JSONDecodeError => otherwise
  | inl e => raise e
  end.

(** Extract JSON from the SLM response. *)
Definition _parse_response (reply : string) : result pyval :=
  let txt := strip reply in
  try_loads txt
    (let by_anchor :=
       match re_search dotall summary_re txt with
       | Some m => try_loads (default "" (group txt m 0)) (ret (fallback_result txt))
       | None => ret (fallback_result txt)
       end in
     match re_search dotall fence_re txt with
     | Some m => try_loads (default "" (group txt m 1)) by_anchor
     | None => by_anchor
     end).

(** The prompts and the round trips to the text-generation service:
    the text of its final reply, or the exception of the request. *)
Variable generate :
  string -> string -> string -> option string -> pydict -> string -> result string.

Definition summarise_filing (form_type segment company : string)
    (ticker : option string) (parsed_data : pydict) (raw_text : string)
    : result pydict :=
  let* result_text := generate form_type segment company ticker parsed_data raw_text in
  let* parsed := _parse_response result_text in
  _validate_impact parsed.
End Adapter.

End ai_processor.

(* ================================================================== *)
(** * app/services/filing_fetcher.py *)
(* ================================================================== *)

Module filing_fetcher.
Import Re.

(** [href=], then between two double quotes a group of one or more
    characters other than the double quote; IGNORECASE. *)
Definition href_re : regex :=
  cat [ lit "href="; Chr ai_processor.dquote;
        Grp 1 (plus (NotCls (Ascii.eqb ai_processor.dquote)));
        Chr ai_processor.dquote ].

Definition has_doc_extension (s : string) : bool :=
  endswith s ".htm" || endswith s ".html" || endswith s ".xml".

(** The links kept as candidate documents. *)
Definition is_doc_link (link : string) : bool :=
  let lower_link := lower link in
  has_doc_extension lower_link
  && negb (contains "-index." lower_link)
  && (negb (contains "/" link) || contains "/Archives/edgar/data/" link).

Definition filename_of (link : string) : string := rsplit_last "/" link.

(** An R1.htm, R2.htm, ... file of the XBRL viewer. *)
Definition is_viewer_file (link : string) : bool :=
  let filename := filename_of link in
  startswith filename "R" && isdigit (slice 1 2 filename).

Definition has_xsl (link : string) : bool := contains "/xsl" (lower link).

Definition is_htm (link : string) : bool :=
  let filename := lower (filename_of link) in
  endswith filename ".htm" || endswith filename ".html".

(** The first loop stops at the first link that is not skipped and
    ends in .htm or .html. *)
Definition first_htm (doc_links : list string) : option string :=
  List.find (fun link => negb (is_viewer_file link) && negb (has_xsl link) && is_htm link)
            doc_links.

(** The second loop stops at the first link without an xsl segment. *)
Definition first_without_xsl (doc_links : list string) : option string :=
  List.find (fun link => negb (has_xsl link)) doc_links.

Definition pick_best (doc_links : list string) : option string :=
  match first_htm doc_links with
  | Some best => Some best
  | None =>
      match first_without_xsl doc_links with
      | Some best => Some best
      | None => head doc_links
      end
  end.

(** Converts a SEC IX Viewer URL to a raw data URL. *)
Definition get_raw_url (url : string) : string :=
  if contains "/ix?doc=" url
  then String.append "https://www.sec.gov" (nth 1 (split "/ix?doc=" url) "")
  else url.

Inductive parser : Set :=
| Parse8K
| ParseForm4
| ParseS1S3
| Parse13D13G
| Parse10Q
| Generic.

Definition member (s : string) (l : list string) : bool := existsb (String.eqb s) l.

(** [form_type.split("/")[0].strip()]. *)
Definition base_form_of (form_type : string) : string := strip (split_head "/" form_type).

(** The chain of tests on the base form type. *)
Definition route (base_form : string) : parser :=
  if member base_form ["8-K"] then Parse8K
  else if String.eqb base_form "4" then ParseForm4
  else if member base_form ["S-1"; "S-3"; "424B2"; "424B3"; "424B4"; "424B5"] then ParseS1S3
  else if member base_form ["SC 13D"; "SC 13G"; "13D"; "13G"; "SCHEDULE 13G"; "SCHEDULE 13D"]
  then Parse13D13G
  else if String.eqb base_form "10-Q" then Parse10Q
  else Generic.

(** Markup stripped by two substitutions: [<[^>]+>] by a space, then
    runs of white space by one space. *)
Definition strip_markup (raw : string) : string :=
  squeeze (sub no_flags (cat [Chr "<"; plus (NotCls (one_of ">")); Chr ">"]) " " raw).

Section Fetcher.
(** [_download_text(client, url)]: the throttled GET; the body of
    the response, or the exception of the request. *)
Variable _download_text : string -> result string.
(** [urllib.parse.urljoin]. *)
Variable urljoin : string -> string -> string.
(** BeautifulSoup with the html.parser and with the lxml back end. *)
Variable soup_text_html : string -> string.
Variable soup_text_lxml : string -> string.
Variable soup_ix_tags : string -> list (option string * string).
(** The two parsers that no property below reads. *)
Variable parse_form4 : string -> string * pydict.
Variable parse_s1_s3 : string -> string * pydict.

Definition resolve (index_url best : string) : string :=
  if startswith best "/" then String.append "https://www.sec.gov" best
  else if negb (startswith best "http") then urljoin index_url best
  else best.

(** Download the filing index page and find the document link.
    [pick_best] finds no link exactly when there is no candidate, the
    case in which the function returns None before it selects. *)
Definition _get_doc_url_from_index (index_url : string) : option string :=
  match _download_text index_url with
  | inl _ => None
  | inr html =>
      let all_links := findall1 ignorecase href_re html in
      let doc_links := List.filter is_doc_link all_links in
      match pick_best doc_links with
      | None => None
      | Some best => Some (get_raw_url (resolve index_url best))
      end
  end.

Definition run_parser (p : parser) (form_type raw : string) : string * pydict :=
  match p with
  | Parse8K => form_8k.parse_8k soup_text_html raw
  | ParseForm4 => parse_form4 raw
  | ParseS1S3 => parse_s1_s3 raw
  | Parse13D13G => form_13d_13g.parse_13d_13g soup_text_lxml raw
  | Parse10Q => form_10q.parse_10q soup_ix_tags soup_text_lxml raw
  | Generic => (strip_markup raw, [("form_type", PyStr form_type)])
  end.

(** Download and parse a filing: (raw_text, parsed_data). *)
Definition fetch_filing_document (index_url form_type : string) : string * pydict :=
  match _get_doc_url_from_index index_url with
  | None => ("", [])
  | Some doc_url =>
      if String.eqb doc_url "" then ("", [])
      else
        match _download_text doc_url with
        | inl _ => ("", [])
        | inr raw => run_parser (route (base_form_of form_type)) form_type raw
        end
  end.
End Fetcher.

End filing_fetcher.

(* ================================================================== *)
(** * app/services/feed_poller.py *)
(* ================================================================== *)

Module feed_poller.
Import Re.

Definition FORM_TO_SEGMENT : list (string * string) :=
  [ ("8-K", "catalyst"); ("8-K/A", "catalyst");
    ("SC 13D", "whale"); ("SC 13D/A", "whale");
    ("SC 13G", "whale"); ("SC 13G/A", "whale");
    ("SCHEDULE 13D", "whale"); ("SCHEDULE 13D/A", "whale");
    ("SCHEDULE 13G", "whale"); ("SCHEDULE 13G/A", "whale");
    ("13D", "whale"); ("13D/A", "whale");
    ("13G", "whale"); ("13G/A", "whale");
    ("10-Q", "pulse"); ("10-Q/A", "pulse");
    ("10-K", "pulse"); ("10-K/A", "pulse") ].

Fixpoint table_get (t : list (string * string)) (k : string) : option string :=
  match t with
  | [] => None
  | (k', v) :: t' => if String.eqb k' k then Some v else table_get t' k
  end.

(** [^ ( [\w\-/\s]+? ) \s* - \s* ( .*? ) \s* \( ( \d{10} ) \) \s* \( ( .*? ) \) $]. *)
Definition _TITLE_RE : regex :=
  cat [ Bol;
        Grp 1 (lazy_plus (Cls (fun c => is_word c || one_of "-/" c || is_space c)));
        Star ws; Chr "-"; Star ws;
        Grp 2 (LazyStar Any);
        Star ws; Chr "("; Grp 3 (rep 10 digit); Chr ")"; Star ws;
        Chr "("; Grp 4 (LazyStar Any); Chr ")"; Eol ].

(** [accession-number= ( [\d-]+ )]. *)
Definition accession_re : regex :=
  cat [lit "accession-number="; Grp 1 (plus (Cls (fun c => is_digit c || Ascii.eqb c "-")))].

(** An entry of the Atom feed as feedparser returns it: the terms of
    its tags, its title, id, link and update time, each of them
    possibly absent. *)
Record FeedEntry : Set := {
  entry_tags : list (option string);
  entry_title : option string;
  entry_id : option string;
  entry_link : option string;
  entry_updated : option string
}.

(** The dictionary that [_parse_entry] builds. *)
Record Filing : Set := {
  accession_number : string;
  form_type : string;
  segment : string;
  company_name : string;
  cik : string;
  ticker : string;
  filing_url : string;
  filed_at : string
}.

(** Download the CIK-to-ticker JSON and populate the in-memory map;
    the rows are the (str(cik_str), ticker) pairs of the download, a
    later row replacing an earlier one with the same key. *)
Definition load_cik_ticker_map (response : result (list (string * string)))
    (_cik_ticker : gmap string string) : gmap string string :=
  match response with
  | inr rows => list_to_map (rev rows)
  | inl _ => _cik_ticker
  end.

(** Extract structured fields from an SEC Atom feed entry.  The second
    parameter has the name of the module-level table and hides it;
    its default is [None]. *)
Definition _parse_entry (entry : FeedEntry) (_cik_ticker : option (gmap string string))
    : option Filing :=
  let _cik_ticker : gmap string string := default ∅ _cik_ticker in
  let form_type :=
    match entry_tags entry with
    | [] => None
    | tag :: _ => Some (strip (default "" tag))
    end in
  let title := default "" (entry_title entry) in
  match re_match no_flags _TITLE_RE title with
  | None => None
  | Some m =>
      let form_type :=
        match form_type with
        | None => strip (default "" (group title m 1))
        | Some ft => if String.eqb ft "" then strip (default "" (group title m 1)) else ft
        end in
      let company_name := strip (default "" (group title m 2)) in
      let cik := strip (default "" (group title m 3)) in
      let entry_id := default "" (entry_id entry) in
      let accession :=
        match re_search no_flags accession_re entry_id with
        | Some am => default "" (group entry_id am 1)
        | None => entry_id
        end in
      let segment :=
        match table_get FORM_TO_SEGMENT form_type with
        | Some sg => Some sg
        | None => table_get FORM_TO_SEGMENT (split_head "/" form_type)
        end in
      match segment with
      | None => None
      | Some segment =>
          Some {| accession_number := accession;
                  form_type := form_type;
                  segment := segment;
                  company_name := company_name;
                  cik := cik;
                  ticker := default "..." (_cik_ticker !! cik);
                  filing_url := default "" (entry_link entry);
                  filed_at := default "" (entry_updated entry) |}
      end
  end.

(** Fetch the feed, return the list of parsed entries.  [feed] is the
    outcome of the request and of feedparser; the module-level table
    is in scope, and the call of [_parse_entry] passes no table. *)
Definition _poll_once (_cik_ticker : gmap string string)
    (feed : result (list FeedEntry)) : list Filing :=
  match feed with
  | inr entries => omap (fun entry => _parse_entry entry None) entries
  | inl _ => []
  end.

(** [seen_in_batch]: an accession number enters the dictionary with
    the first entry that carries it. *)
Fixpoint in_batch (seen_in_batch : list (string * Filing)) (acc : string) : bool :=
  match seen_in_batch with
  | [] => false
  | (k, _) :: rest => String.eqb k acc || in_batch rest acc
  end.

Definition batch_step (seen_in_batch : list (string * Filing)) (e : Filing)
    : list (string * Filing) :=
  let acc := accession_number e in
  if in_batch seen_in_batch acc then seen_in_batch
  else app seen_in_batch [(acc, e)].

(** Filter out already-seen accession numbers, insert the new ones.
    The ledger is the set of keys of the seen_filings table. *)
Definition _dedup (entries : list Filing) (seen_filings : gset string)
    : list Filing * gset string :=
  match entries with
  | [] => ([], seen_filings)
  | _ =>
      let seen_in_batch := fold_left batch_step entries [] in
      let unique_entries := map snd seen_in_batch in
      let acc_numbers := map fst seen_in_batch in
      let seen : gset string :=
        list_to_set (List.filter (fun a => bool_decide (a ∈ seen_filings)) acc_numbers) in
      let new_entries :=
        List.filter (fun e => negb (bool_decide (accession_number e ∈ seen)))
                    unique_entries in
      (new_entries,
       fold_left (fun ledger e => {[accession_number e]} ∪ ledger) new_entries seen_filings)
  end.

(** A row of the filings table. *)
Record FilingRow : Type := {
  row_id : nat;
  row_accession_number : string;
  row_form_type : string;
  row_segment : string;
  row_company_name : string;
  row_cik : string;
  row_ticker : string;
  row_filing_url : string;
  row_filed_at : string;
  row_summary : pyval;
  row_signal : pyval;
  row_signal_reasons : pyval;
  row_raw_extract : string;
  row_metadata : pydict
}.

Inductive event : Type :=
| filing_processing (accession company ticker form_type segment filed_at : string)
| new_filing (row : FilingRow).

(** The two tables, the in-memory guard and what was broadcast so far. *)
Record state : Type := {
  seen_filings : gset string;
  filings : list FilingRow;
  _currently_processing : gset string;
  broadcasts : list event;
  cik_ticker : gmap string string
}.

Definition with_ledger (l : gset string) (st : state) : state :=
  {| seen_filings := l; filings := filings st;
     _currently_processing := _currently_processing st;
     broadcasts := broadcasts st; cik_ticker := cik_ticker st |}.

Definition with_processing (p : gset string) (st : state) : state :=
  {| seen_filings := seen_filings st; filings := filings st;
     _currently_processing := p;
     broadcasts := broadcasts st; cik_ticker := cik_ticker st |}.

Definition broadcast (broadcast_fn : bool) (ev : event) (st : state) : state :=
  if broadcast_fn
  then {| seen_filings := seen_filings st; filings := filings st;
          _currently_processing := _currently_processing st;
          broadcasts := app (broadcasts st) [ev]; cik_ticker := cik_ticker st |}
  else st.

Definition insert_row (row : FilingRow) (st : state) : state :=
  {| seen_filings := seen_filings st; filings := app (filings st) [row];
     _currently_processing := _currently_processing st;
     broadcasts := broadcasts st; cik_ticker := cik_ticker st |}.

Definition filing_text_max_chars : nat := 20000.

Section Orchestrator.
(** The collaborators: the fetcher with its parsers, and the
    generative classifier.  What follows holds for any two functions,
    so for [filing_fetcher.fetch_filing_document] and
    [ai_processor.summarise_filing] over any network and libraries. *)
Variable fetch_filing_document : string -> string -> string * pydict.
Variable summarise_filing :
  string -> string -> string -> option string -> pydict -> string -> result pydict.
(** Whether a broadcast function was given to the loop. *)
Variable broadcast_fn : bool.

Definition heuristic_summary (entry : Filing) (raw_text : string) : string :=
  let summary :=
    String.append (form_type entry) (String.append " filing by " (company_name entry)) in
  let summary :=
    if String.eqb (ticker entry) "" then summary
    else String.append summary (String.append " ($" (String.append (ticker entry) ")")) in
  String.append summary
    (String.append ". " (String.append (slice_to 150 raw_text) "...")).

(** The body of the [try] block. *)
Definition process_body (entry : Filing) (st : state) : result unit * state :=
  let acc := accession_number entry in
  if existsb (fun row => String.eqb (row_accession_number row) acc) (filings st)
  then (ret tt, st)
  else
    let (raw_text, parsed_data) :=
      fetch_filing_document (filing_url entry) (form_type entry) in
    if String.eqb raw_text "" then (ret tt, st)
    else
      match alpha_engine.pre_classify (segment entry) parsed_data with
      | inl e => (raise e, st)
      | inr heuristic_impact =>
          let st :=
            broadcast broadcast_fn
              (filing_processing acc (company_name entry) (ticker entry)
                 (form_type entry) (segment entry) (filed_at entry)) st in
          let ai_result :=
            match summarise_filing (form_type entry) (segment entry)
                    (company_name entry) (Some (ticker entry)) parsed_data raw_text with
            | inr d => d
            | inl _ =>
                [ ("summary", PyStr (heuristic_summary entry raw_text));
                  ("impact", heuristic_impact);
                  ("reasons", PyList [PyStr "Heuristic classification (SLM unavailable)"]) ]
            end in
          let row :=
            {| row_id := S (List.length (filings st));
               row_accession_number := acc;
               row_form_type := form_type entry;
               row_segment := segment entry;
               row_company_name := company_name entry;
               row_cik := cik entry;
               row_ticker := ticker entry;
               row_filing_url := filing_url entry;
               row_filed_at := filed_at entry;
               row_summary := dict_get_default ai_result "summary" (PyStr "");
               row_signal := dict_get_default ai_result "impact" heuristic_impact;
               row_signal_reasons := dict_get_default ai_result "reasons" (PyList []);
               row_raw_extract := slice_to filing_text_max_chars raw_text;
               row_metadata := parsed_data |} in
          let st := insert_row row st in
          (ret tt, broadcast broadcast_fn (new_filing row) st)
      end.

(** Download, parse, run AI, save, and broadcast a single filing. *)
Definition _process_filing (entry : Filing) (st : state) : result unit * state :=
  let acc := accession_number entry in
  if bool_decide (acc ∈ _currently_processing st) then (ret tt, st)
  else
    let st := with_processing ({[acc]} ∪ _currently_processing st) st in
    let (outcome, st) := process_body entry st in
    (outcome, with_processing (_currently_processing st ∖ {[acc]}) st).

(** One turn of the polling loop: poll, dedup, process the new
    filings.  The tasks of one turn are run one after the other, in
    the order of the list; an exception of a task is collected and
    dropped.  The result names the filings handed to
    [_process_filing]. *)
Definition poll_cycle (feed : result (list FeedEntry)) (st : state)
    : list Filing * state :=
  let entries := _poll_once (cik_ticker st) feed in
  let (new_entries, ledger) := _dedup entries (seen_filings st) in
  let st := with_ledger ledger st in
  (new_entries, fold_left (fun s e => snd (_process_filing e s)) new_entries st).

(** The states the loop can reach: by finishing the tasks of the
    current turn, and by further turns. *)
Inductive later : state -> state -> Prop :=
| later_now st : later st st
| later_task st st' e : later st st' -> later st (snd (_process_filing e st'))
| later_cycle st st' feed : later st st' -> later st (snd (poll_cycle feed st')).
End Orchestrator.

End feed_poller.

(* ================================================================== *)
(** * Vocabulary of the properties *)
(* ================================================================== *)

Module dedup_spec.
Import feed_poller.

(** The first entry of each accession number that is not in [seen]. *)
Fixpoint first_seen (seen : gset string) (entries : list Filing) : list Filing :=
  match entries with
  | [] => []
  | e :: es =>
      if bool_decide (accession_number e ∈ seen) then first_seen seen es
      else e :: first_seen ({[accession_number e]} ∪ seen) es
  end.

Definition same_accession (a : string) (e : Filing) : bool :=
  String.eqb (accession_number e) a.

(** What the specification asks, in its words: the last entry of the batch with the accession number. *)
Definition last_occurrence (entries : list Filing) (a : string) : option Filing :=
  List.find (same_accession a) (rev entries).
Definition first_occurrence (entries : list Filing) (a : string) : option Filing :=
  List.find (same_accession a) entries.


(** A filing of the whale segment, for the examples. *)
Definition filing (acc company : string) : Filing :=
  {| accession_number := acc; form_type := "SC 13D"; segment := "whale";
     company_name := company; cik := "0000000001"; ticker := "...";
     filing_url := ""; filed_at := "" |}.

End dedup_spec.

Module poller_examples.
Import feed_poller.

(** An entry of the feed, and a table that knows its CIK. *)
Definition bofa_entry : FeedEntry :=
  {| entry_tags := [Some "8-K"];
     entry_title := Some "8-K - BofA Finance LLC (0001682472) (Filer)";
     entry_id := Some "urn:tag:sec.gov,2008:accession-number=0001193125-26-055710";
     entry_link := Some "https://www.sec.gov/Archives/edgar/data/1682472/000119312526055710/0001193125-26-055710-index.htm";
     entry_updated := Some "2026-02-13T16:05:12-05:00" |}.

Definition bofa_table : gmap string string :=
  load_cik_ticker_map (inr [("0001682472", "BAC")]) ∅.

End poller_examples.

Module typed_fields.

(** The types that the parsers give to the fields that the heuristic
    classifier reads; a field may be absent. *)
Definition is_str (v : pyval) : bool :=
  match v with PyStr _ => true | _ => false end.

Definition is_str_list (v : pyval) : bool :=
  match v with PyList l => forallb is_str l | _ => false end.

Definition is_number_or_none (v : pyval) : bool :=
  match v with PyNone | PyInt _ | PyFloat _ => true | _ => false end.

Definition is_int (v : pyval) : bool :=
  match v with PyInt _ => true | _ => false end.

Definition field_ok (d : pydict) (k : string) (ok : pyval -> bool) : bool :=
  match dict_get d k with
  | Some v => ok v
  | None => true
  end.

Definition parser_typed (d : pydict) : bool :=
  field_ok d "items" is_str_list
  && field_ok d "form_subtype" is_str
  && field_ok d "strategy" is_str
  && field_ok d "ownership_pct" is_number_or_none
  && field_ok d "sentiment_score" is_int.

(** The segments that the classifier knows. *)
Definition known_segment (s : string) : bool :=
  String.eqb s "catalyst" || String.eqb s "whale" || String.eqb s "pulse".

(** [v > 5] for the value of the ownership field. *)
Definition exceeds_5 (v : pyval) : bool :=
  match v with
  | PyInt z => 5 <? z
  | PyFloat f => Py.int_lt_float 5 f
  | _ => false
  end.

End typed_fields.

Module adapter_examples.

(** A reply whose impact is a number too large for a binary64, which
    [json.loads] reads as an infinity. *)
Definition overflowing_reply : pyval :=
  PyDict [ ("summary", PyStr "Guidance raised");
           ("impact", PyFloat PrimFloat.infinity);
           ("reasons", PyList [PyStr "guidance"]) ].

(** A [json.loads] that rejects every text. *)
Definition rejecting_loads (s : string) : result pyval := inl JSONDecodeError.

(** The depth of calls that the interpreter allows,
    [sys.getrecursionlimit()]. *)
Definition recursion_limit : nat := 1000.

(** The arrays that a text opens before anything else. *)
Fixpoint opened_arrays (s : list ascii) : nat :=
  match s with
  | "["%char :: s' => S (opened_arrays s')
  | _ => O
  end.

(** [json.loads] on texts that hold no JSON value.  The decoder calls
    itself for every array that the text opens: a text that opens as
    many arrays as the interpreter allows calls ends in a
    RecursionError, and the decoder never reaches the place where the
    value is missing; the other texts end in a JSONDecodeError. *)
Definition nesting_loads (s : string) : result pyval :=
  if (recursion_limit <=? opened_arrays (chars s))%nat
  then inl RecursionError
  else inl JSONDecodeError.

(** A reply of a thousand open brackets, ['[' * 1000]. *)
Definition deep_reply : string := text (repeat "["%char 1000).

End adapter_examples.

Module parser_examples.

(** The extraction of BeautifulSoup on a page without markup: the page. *)
Definition no_markup (raw : string) : string := raw.

Definition material_agreement_8k : string :=
  "Acme Corp  Item 1.01 - Entry into a Material Definitive Agreement.  Acme entered into a supply agreement.  Item 9.01 - Financial Statements and Exhibits".

End parser_examples.

Module selection_spec.
Import filing_fetcher.

(** The selection policy in the words of the specification: a link
    survives when it is not a rendered view (a file of the viewer, or a
    path with an XSLT segment); the first surviving .htm or .html link,
    else the first surviving .xml link, else the first link. *)
Definition survives (link : string) : bool :=
  negb (is_viewer_file link) && negb (has_xsl link).

Definition is_xml (link : string) : bool :=
  endswith (lower (filename_of link)) ".xml".

Definition documented_best (doc_links : list string) : option string :=
  match List.find (fun link => survives link && is_htm link) doc_links with
  | Some best => Some best
  | None =>
      match List.find (fun link => survives link && is_xml link) doc_links with
      | Some best => Some best
      | None => head doc_links
      end
  end.

End selection_spec.

Module fetcher_examples.
Import filing_fetcher.

(** An anchor of an index page. *)
Definition anchor (href : string) : string :=
  String.append "<a href="
    (String ai_processor.dquote
       (String.append href (String ai_processor.dquote ">document</a> "))).

Definition index_url : string :=
  "https://www.sec.gov/Archives/edgar/data/320193/000032019326000010/0000320193-26-000010-index.htm".
Definition viewer_link : string :=
  "/Archives/edgar/data/320193/000032019326000010/R2.htm".
Definition xml_link : string :=
  "/Archives/edgar/data/320193/000032019326000010/primary_doc.xml".
Definition report_link : string :=
  "/Archives/edgar/data/320193/000032019326000010/aapl-20251227.htm".

(** An index page that lists a file of the XBRL viewer before the raw
    XML document, and one that lists an annual report. *)
Definition viewer_first_page : string :=
  String.append (anchor "/index.htm") (String.append (anchor viewer_link) (anchor xml_link)).
Definition report_page : string := anchor report_link.

Definition annual_report : string :=
  "<html><body><p>Total revenue: $1,250,000</p> <p>strong demand</p></body></html>".

(** The network: what each address answers. *)
Definition serve (pages : list (string * string)) (url : string) : result string :=
  match feed_poller.table_get pages url with
  | Some body => inr body
  | None => inl HTTPError
  end.

(** Stand-ins for the libraries: the links of the examples are
    absolute paths, which [urljoin] never sees; the pages carry no
    inline XBRL; [strip_markup] stands for the text extraction of
    BeautifulSoup. *)
Definition urljoin_unused (base rel : string) : string := rel.
Definition no_ix_tags (raw : string) : list (option string * string) := [].
Definition no_parser (raw : string) : string * pydict := ("", []).

End fetcher_examples.

Module orchestrator_examples.
Import feed_poller.

(** The state at start-up: empty tables, nothing in flight. *)
Definition initial_state : state :=
  {| seen_filings := ∅; filings := []; _currently_processing := ∅;
     broadcasts := []; cik_ticker := ∅ |}.

(** A network on which every request fails, and a generative service
    that is down. *)
Definition offline_fetch : string -> string -> string * pydict :=
  filing_fetcher.fetch_filing_document
    (fetcher_examples.serve []) fetcher_examples.urljoin_unused
    filing_fetcher.strip_markup filing_fetcher.strip_markup
    fetcher_examples.no_ix_tags fetcher_examples.no_parser fetcher_examples.no_parser.

Definition service_down (form_type segment company : string) (ticker : option string)
    (parsed_data : pydict) (raw_text : string) : result pydict :=
  inl HTTPError.

(** The filing that [_parse_entry] builds from the entry of the
    examples; the lazy first group of the title pattern ends at the
    hyphen of the form type. *)
Definition bofa_filing : Filing :=
  {| accession_number := "0001193125-26-055710";
     form_type := "8-K"; segment := "catalyst";
     company_name := "K - BofA Finance LLC";
     cik := "0001682472"; ticker := "...";
     filing_url := "https://www.sec.gov/Archives/edgar/data/1682472/000119312526055710/0001193125-26-055710-index.htm";
     filed_at := "2026-02-13T16:05:12-05:00" |}.

End orchestrator_examples.

Module pipeline_spec.
Import feed_poller.

(** The events of a task that persists [row]. *)
Definition events_of (broadcast_fn : bool) (e : Filing) (row : FilingRow) : list event :=
  if broadcast_fn
  then [ filing_processing (accession_number e) (company_name e) (ticker e)
           (form_type e) (segment e) (filed_at e);
         new_filing row ]
  else [].

(** What a task leaves: nothing, or one more row and its two events. *)
Definition task_outcome (broadcast_fn : bool) (e : Filing) (st st' : state) : Prop :=
  seen_filings st' = seen_filings st
  ∧ _currently_processing st' = _currently_processing st
  ∧ cik_ticker st' = cik_ticker st
  ∧ ((filings st' = filings st ∧ broadcasts st' = broadcasts st)
     ∨ ∃ row,
         row_accession_number row = accession_number e
         ∧ accession_number e ∉ map row_accession_number (filings st)
         ∧ row_id row = S (List.length (filings st))
         ∧ filings st' = app (filings st) [row]
         ∧ broadcasts st' = app (broadcasts st) (events_of broadcast_fn e row)).

End pipeline_spec.

Module pipeline_examples.
Import feed_poller.

(** A network that serves the index page of the example filing and
    the document that the page links to. *)
Definition bofa_document_link : string :=
  "/Archives/edgar/data/1682472/000119312526055710/d8k.htm".

Definition bofa_network : string -> result string :=
  fetcher_examples.serve
    [ (filing_url orchestrator_examples.bofa_filing,
       fetcher_examples.anchor bofa_document_link);
      (String.append "https://www.sec.gov" bofa_document_link,
       parser_examples.material_agreement_8k) ].

Definition online_fetch : string -> string -> string * pydict :=
  filing_fetcher.fetch_filing_document
    bofa_network fetcher_examples.urljoin_unused
    filing_fetcher.strip_markup filing_fetcher.strip_markup
    fetcher_examples.no_ix_tags fetcher_examples.no_parser fetcher_examples.no_parser.

End pipeline_examples.

Module routing_spec.
Import filing_fetcher.

(** The parsers that serve a segment of the feed. *)
Definition serves (segment : string) (p : parser) : bool :=
  match p with
  | Parse8K => String.eqb segment "catalyst"
  | Parse13D13G => String.eqb segment "whale"
  | Parse10Q | Generic => String.eqb segment "pulse"
  | ParseForm4 | ParseS1S3 => false
  end.

(** No character of [l] is a slash. *)
Definition no_slash (l : list ascii) : bool :=
  forallb (fun c => negb (Ascii.eqb "/" c)) l.

(** [max(-100, min(100, n))]. *)
Definition clamp (n : Z) : Z := Z.max (-100) (Z.min 100 n).

End routing_spec.

Module adapter_spec.

(** The texts that [_parse_response] can hand to [json.loads], in the
    order of the three attempts: the stripped reply, the object of the
    first fenced block, the first object around a summary key. *)
Definition decoding_attempts (txt : string) : list string :=
  txt
  :: match Re.re_search Re.dotall ai_processor.fence_re txt with
     | Some m => [default "" (Re.group txt m 1)]
     | None => []
     end
  ++ match Re.re_search Re.dotall ai_processor.summary_re txt with
     | Some m => [default "" (Re.group txt m 0)]
     | None => []
     end.

(** An integer between -100 and 100. *)
Definition signal_in_range (v : pyval) : bool :=
  match v with
  | PyInt n => (-100 <=? n) && (n <=? 100)
  | _ => false
  end.

(** A string of white space only. *)
Definition blank (s : string) : bool := forallb is_space (chars s).

(** A text-generation service that answers in prose. *)
Definition prose_reply (form_type segment company : string) (ticker : option string)
    (parsed_data : pydict) (raw_text : string) : result string :=
  inr "The filing looks routine.".

(** A reply of the model with a legacy signal label and a ticker. *)
Definition labelled_reply : pydict :=
  [ ("summary", PyStr "Quarterly results beat guidance.");
    ("signal", PyStr "Bullish");
    ("ticker", PyStr "ACME") ].

End adapter_spec.

(* ================================================================== *)
(** * app/services/ai_processor.py: the chunks of a long filing *)
(* ================================================================== *)

Module ai_processor_chunks.

Definition _CHUNK_WORD_SIZE : nat := 8000.

(** [s.split()]: the maximal runs of characters that are not white
    space, in order; [cur] is the run being read, reversed. *)
Fixpoint split_words (cur : list ascii) (l : list ascii) : list (list ascii) :=
  match l with
  | [] => match cur with [] => [] | _ => [rev cur] end
  | c :: l' =>
      if is_space c
      then match cur with
           | [] => split_words [] l'
           | _ => rev cur :: split_words [] l'
           end
      else split_words (c :: cur) l'
  end.

Definition split_whitespace (s : string) : list string :=
  map text (split_words [] (chars s)).

(** [sep.join(l)]. *)
Fixpoint join (sep : string) (l : list string) : string :=
  match l with
  | [] => ""
  | w :: l' =>
      match l' with
      | [] => w
      | _ => String.append w (String.append sep (join sep l'))
      end
  end.

(** [range(start, stop, step)] for a positive step, which has at most
    [stop] elements. *)
Fixpoint range_from (start stop step fuel : nat) : list nat :=
  match fuel with
  | O => []
  | S fuel' =>
      if Nat.ltb start stop then start :: range_from (start + step) stop step fuel'
      else []
  end.

Definition range_step (stop step : nat) : list nat := range_from 0 stop step stop.

(** [l[i:j]]. *)
Definition slice_list {A} (i j : nat) (l : list A) : list A :=
  firstn (j - i) (skipn i l).

(** Split text into chunks of [_CHUNK_WORD_SIZE] words. *)
Definition _get_chunks (txt : string) : list string :=
  let words := split_whitespace txt in
  map (fun i => join " " (slice_list i (i + _CHUNK_WORD_SIZE) words))
      (range_step (List.length words) _CHUNK_WORD_SIZE).

(** A run of characters that [split] returns as one word. *)
Definition is_word_run (w : list ascii) : bool :=
  match w with
  | [] => false
  | _ => forallb (fun c => negb (is_space c)) w
  end.

End ai_processor_chunks.

(* ================================================================== *)
(** * app/services/notifier.py *)
(* ================================================================== *)

Module notifier.

(** Compute notification priority: high, medium, or low. *)
Definition compute_priority (impact : option Z) (form_type segment : string) : string :=
  if match impact with
     | Some i => 20 <? Z.abs i
     | None => false
     end
  then "high"
  else if filing_fetcher.member form_type ["8-K"; "SC 13D"]
          || filing_fetcher.member segment ["catalyst"; "whale"]
  then "medium"
  else "low".

End notifier.

Module report_spec.

(** Counts in descending order. *)
Definition by_count_desc (a b : string * nat) : Prop := (snd b <= snd a)%nat.

(** [impact is not None and abs(impact) > 20]. *)
Definition strong (impact : option Z) : bool :=
  match impact with
  | Some i => 20 <? Z.abs i
  | None => false
  end.

End report_spec.

Module text_spec.

(** Every run of white space replaced by one blank; [in_run] says
    that the character before was white space. *)
Fixpoint collapse (in_run : bool) (l : list ascii) : list ascii :=
  match l with
  | [] => []
  | c :: l' =>
      if is_space c
      then (if in_run then collapse true l' else " "%char :: collapse true l')
      else c :: collapse false l'
  end.

(** The length of the run of white space at the head of [l]. *)
Fixpoint run_length (l : list ascii) : nat :=
  match l with
  | c :: l' => if is_space c then S (run_length l') else O
  | [] => O
  end.

(** Words joined by single blanks, as lists of characters. *)
Fixpoint join_chars (ws : list (list ascii)) : list ascii :=
  match ws with
  | [] => []
  | w :: ws' =>
      match ws' with
      | [] => w
      | _ => app w (" "%char :: join_chars ws')
      end
  end.

(** The list is empty or starts with a character that is not white space. *)
Definition starts_a_word (l : list ascii) : bool :=
  match l with
  | [] => true
  | c :: _ => negb (is_space c)
  end.

End text_spec.

(* ================================================================== *)
(** * app/parsers/form_s1_s3.py *)
(* ================================================================== *)

Module form_s1_s3.
Import Re.

(** [\$ \s* ( [\d,]+ (?: \. \d+ )? ) \s* ( million | billion | thousand )?],
    IGNORECASE. *)
Definition _DOLLAR_RE : regex :=
  cat [ Chr "$"; Star ws; Grp 1 form_10q.amount_re; Star ws;
        opt (Grp 2 (alt [lit "million"; lit "billion"; lit "thousand"])) ].

(** [( [\d,]+ (?: \. \d+ )? ) \s* shares]. *)
Definition _SHARES_RE : regex :=
  cat [Grp 1 form_10q.amount_re; Star ws; lit "shares"].

(** [at [\-\s] the [\-\s] market]. *)
Definition dash_or_space : regex := Cls (fun c => Ascii.eqb c "-" || is_space c).
Definition _ATM_RE : regex :=
  cat [lit "at"; dash_or_space; lit "the"; dash_or_space; lit "market"].

Definition _SHELF_RE : regex := form_13d_13g.words "shelf" "registration".
Definition _SECONDARY_RE : regex := form_13d_13g.words "secondary" "offering".

(** The purposes, in the order of the dictionary. *)
Definition PURPOSE_KEYWORDS : list (string * regex) :=
  [ ("growth",
     alt [ lit "growth"; lit "expansion"; lit "acquisition"; lit "research";
           lit "development"; lit "R&D" ]);
    ("debt",
     alt [ lit "debt"; lit "repay"; lit "refinanc";
           cat [lit "credit"; plus ws; lit "facilit"]; lit "indebtedness" ]);
    ("working_capital",
     alt [ form_13d_13g.words "working" "capital";
           form_13d_13g.words "general" "corporate";
           form_13d_13g.words "operating" "expenses" ]) ].

(** [float(s.replace(",", ""))]. *)
Definition number_of (s : string) : result float :=
  Py.float_of_decimal (text (filter (fun c => negb (Ascii.eqb c ",")) (chars s))).

(** Convert a regex match of a dollar amount to a float. *)
Definition _parse_dollar_amount (txt : string) (m : mobj) : result float :=
  let* amount := number_of (default "" (group txt m 1)) in
  let multiplier := lower (default "" (group txt m 2)) in
  if String.eqb multiplier "billion"
  then ret (PrimFloat.mul amount (Py.float_of_int 1000000000))
  else if String.eqb multiplier "million"
  then ret (PrimFloat.mul amount (Py.float_of_int 1000000))
  else if String.eqb multiplier "thousand"
  then ret (PrimFloat.mul amount (Py.float_of_int 1000))
  else ret amount.

(** A list comprehension whose element expression can raise. *)
Fixpoint map_result {A B} (f : A -> result B) (l : list A) : result (list B) :=
  match l with
  | [] => ret []
  | x :: l' =>
      let* y := f x in
      let* ys := map_result f l' in
      ret (y :: ys)
  end.

(** [max(l) if l else None]. *)
Definition max_or_none (l : list float) : pyval :=
  match l with
  | [] => PyNone
  | f :: fs => PyFloat (form_13d_13g.float_max f fs)
  end.

Definition offering_label (is_atm is_shelf is_secondary : bool) : string :=
  if is_atm then "ATM (at-the-market)"
  else if is_shelf then "shelf registration"
  else if is_secondary then "secondary offering"
  else "firm commitment".

Section Parser.
(** [BeautifulSoup(raw_html, "lxml")], without its script and style
    elements, then [get_text(separator=" ", strip=True)]. *)
Variable soup_text : string -> string.

(** Parse an S-1/S-3/424B filing: (text_excerpt, parsed_data).  The
    first value given to offering_type, unknown, is overwritten on
    every path. *)
Definition parse_s1_s3 (raw_html : string) : result (string * pydict) :=
  let txt := squeeze (soup_text raw_html) in
  let* amounts := map_result (_parse_dollar_amount txt) (finditer ignorecase _DOLLAR_RE txt) in
  let max_offering := max_or_none amounts in
  let* shares := map_result number_of (findall1 ignorecase _SHARES_RE txt) in
  let max_shares := max_or_none shares in
  let cover := slice_to 10000 txt in
  let is_atm := form_13d_13g.is_some (re_search ignorecase _ATM_RE cover) in
  let is_shelf := form_13d_13g.is_some (re_search ignorecase _SHELF_RE cover) in
  let is_secondary := form_13d_13g.is_some (re_search ignorecase _SECONDARY_RE cover) in
  let offering_type := offering_label is_atm is_shelf is_secondary in
  let purposes :=
    omap (fun kv => if form_13d_13g.is_some (re_search ignorecase (snd kv) txt)
                    then Some (fst kv) else None) PURPOSE_KEYWORDS in
  ret (slice_to 20000 txt,
       [ ("max_offering_amount", max_offering);
         ("proposed_shares", max_shares);
         ("offering_type", PyStr offering_type);
         ("is_atm", PyBool is_atm);
         ("is_shelf", PyBool is_shelf);
         ("use_of_proceeds",
           PyList (map PyStr (match purposes with
                              | [] => ["unspecified"]
                              | _ => purposes
                              end))) ]).
End Parser.

End form_s1_s3.

Module prospectus_spec.

(** The values that the parser gives to offering_type and to the
    entries of use_of_proceeds. *)
Definition offering_types : list string :=
  ["ATM (at-the-market)"; "shelf registration"; "secondary offering"; "firm commitment"].
Definition purposes : list string := ["growth"; "debt"; "working_capital"].

End prospectus_spec.



Module regex_spec.
Import Re.

(** What a pattern matches: from the input [s] at offset [i] with the
    capture table [c] to the rest [s'] at offset [i'] with the table
    [c'].  The matcher finds one of these matches, the first in the
    order of [re]. *)
Inductive matches (fl : flags)
    : regex -> list ascii -> nat -> caps -> list ascii -> nat -> caps -> Prop :=
| matches_eps s i c : matches fl Eps s i c s i c
| matches_chr a x s i c :
    chr_ok fl a x = true -> matches fl (Chr a) (x :: s) i c s (S i) c
| matches_cls p x s i c :
    cls_ok fl p x = true -> matches fl (Cls p) (x :: s) i c s (S i) c
| matches_notcls p x s i c :
    cls_ok fl p x = false -> matches fl (NotCls p) (x :: s) i c s (S i) c
| matches_any x s i c :
    any_ok fl x = true -> matches fl Any (x :: s) i c s (S i) c
| matches_seq r1 r2 s i c s1 i1 c1 s2 i2 c2 :
    matches fl r1 s i c s1 i1 c1 -> matches fl r2 s1 i1 c1 s2 i2 c2 ->
    matches fl (Seq r1 r2) s i c s2 i2 c2
| matches_alt_l r1 r2 s i c s1 i1 c1 :
    matches fl r1 s i c s1 i1 c1 -> matches fl (Alt r1 r2) s i c s1 i1 c1
| matches_alt_r r1 r2 s i c s1 i1 c1 :
    matches fl r2 s i c s1 i1 c1 -> matches fl (Alt r1 r2) s i c s1 i1 c1
| matches_star_nil r s i c : matches fl (Star r) s i c s i c
| matches_star_cons r s i c s1 i1 c1 s2 i2 c2 :
    matches fl r s i c s1 i1 c1 -> matches fl (Star r) s1 i1 c1 s2 i2 c2 ->
    matches fl (Star r) s i c s2 i2 c2
| matches_lazy_nil r s i c : matches fl (LazyStar r) s i c s i c
| matches_lazy_cons r s i c s1 i1 c1 s2 i2 c2 :
    matches fl r s i c s1 i1 c1 -> matches fl (LazyStar r) s1 i1 c1 s2 i2 c2 ->
    matches fl (LazyStar r) s i c s2 i2 c2
| matches_grp n r s i c s1 i1 c1 :
    matches fl r s i c s1 i1 c1 ->
    matches fl (Grp n r) s i c s1 i1 ((n, (i, i1)) :: c1)
| matches_bol s c : matches fl Bol s O c s O c
| matches_eol_end i c : matches fl Eol [] i c [] i c
| matches_eol_newline i c :
    matches fl Eol ["010"%char] i c ["010"%char] i c.

(** The strings that a pattern consumes, positions and captures left out. *)
Inductive consumes (fl : flags) : regex -> list ascii -> Prop :=
| consumes_eps : consumes fl Eps []
| consumes_chr a x : chr_ok fl a x = true -> consumes fl (Chr a) [x]
| consumes_cls p x : cls_ok fl p x = true -> consumes fl (Cls p) [x]
| consumes_notcls p x : cls_ok fl p x = false -> consumes fl (NotCls p) [x]
| consumes_any x : any_ok fl x = true -> consumes fl Any [x]
| consumes_seq r1 r2 w1 w2 :
    consumes fl r1 w1 -> consumes fl r2 w2 -> consumes fl (Seq r1 r2) (app w1 w2)
| consumes_alt_l r1 r2 w : consumes fl r1 w -> consumes fl (Alt r1 r2) w
| consumes_alt_r r1 r2 w : consumes fl r2 w -> consumes fl (Alt r1 r2) w
| consumes_star_nil r : consumes fl (Star r) []
| consumes_star_cons r w1 w2 :
    consumes fl r w1 -> consumes fl (Star r) w2 -> consumes fl (Star r) (app w1 w2)
| consumes_lazy_nil r : consumes fl (LazyStar r) []
| consumes_lazy_cons r w1 w2 :
    consumes fl r w1 -> consumes fl (LazyStar r) w2 -> consumes fl (LazyStar r) (app w1 w2)
| consumes_grp n r w : consumes fl r w -> consumes fl (Grp n r) w
| consumes_bol : consumes fl Bol []
| consumes_eol : consumes fl Eol [].

(** The groups of a pattern, each with its body. *)
Fixpoint groups (r : regex) : list (nat * regex) :=
  match r with
  | Seq r1 r2 | Alt r1 r2 => app (groups r1) (groups r2)
  | Star r1 | LazyStar r1 => groups r1
  | Grp n r1 => (n, r1) :: groups r1
  | _ => []
  end.

(** The groups that take part in every match. *)
Fixpoint sure_groups (r : regex) : list nat :=
  match r with
  | Seq r1 r2 => app (sure_groups r1) (sure_groups r2)
  | Grp n r1 => n :: sure_groups r1
  | _ => []
  end.

(** A string of one or more digits. *)
Definition is_numeral (l : list ascii) : bool :=
  match l with
  | [] => false
  | _ => forallb is_digit l
  end.

End regex_spec.

Open Scope list_scope.

(* ================================================================== *)
(** * The dedup ledger *)
(* ================================================================== *)

Section DedupProperties.
Import feed_poller dedup_spec.

(** Membership in [seen_in_batch]. *)
Lemma in_batch_true sib k : in_batch sib k = true ↔ k ∈ map fst sib.
Proof.
  induction sib as [|[k' e] sib IH]; simpl.
  - split; [discriminate | by intros ?%elem_of_nil].
  - rewrite orb_true_iff, IH, String.eqb_eq, elem_of_cons. split; intros [?|?]; auto.
Qed.

(** [seen_in_batch] after the loop: the first entry of each new
    accession number, in the order of the batch. *)
Lemma batch_fold entries : ∀ init,
  fold_left batch_step entries init
  = init ++ map (λ e, (accession_number e, e)) (first_seen (list_to_set (map fst init)) entries).
Proof.
  induction entries as [|e es IH]; intros init; simpl.
  - by rewrite app_nil_r.
  - unfold batch_step at 2.
    destruct (in_batch init (accession_number e)) eqn:Hin.
    + apply in_batch_true in Hin.
      rewrite bool_decide_eq_true_2 by (by apply elem_of_list_to_set).
      apply IH.
    + assert (accession_number e ∉ map fst init) as Hnot.
      { intros H. apply in_batch_true in H. congruence. }
      rewrite bool_decide_eq_false_2 by (by rewrite elem_of_list_to_set).
      rewrite IH, map_app, list_to_set_app_L. simpl.
      rewrite <- app_assoc. simpl.
      replace (list_to_set (map fst init) ∪ ({[accession_number e]} ∪ ∅))
        with ({[accession_number e]} ∪ list_to_set (map fst init) : gset string)
        by set_solver.
      done.
Qed.

Lemma first_seen_spec es : ∀ seen e,
  e ∈ first_seen seen es ↔
  accession_number e ∉ seen ∧ first_occurrence es (accession_number e) = Some e.
Proof.
  unfold first_occurrence.
  induction es as [|x es IH]; intros seen e; simpl.
  - split; [intros H; inversion H | intros [_ H]; discriminate].
  - unfold same_accession at 1.
    case_bool_decide as Hx.
    + rewrite IH. destruct (String.eqb_spec (accession_number x) (accession_number e)) as [Heq|Hne].
      * split; [intros [Hn _]; congruence | intros [Hn _]; congruence].
      * done.
    + rewrite elem_of_cons, IH.
      destruct (String.eqb_spec (accession_number x) (accession_number e)) as [Heq|Hne].
      * split.
        -- intros [->|[Hn _]]; [done | set_solver].
        -- intros [_ [= ->]]. by left.
      * split.
        -- intros [->|[Hn Hf]]; [done | split; [set_solver | done]].
        -- intros [Hn Hf]. right. split; [set_solver | done].
Qed.

Lemma first_seen_NoDup es : ∀ seen, NoDup (map accession_number (first_seen seen es)).
Proof.
  induction es as [|x es IH]; intros seen; simpl; [constructor|].
  case_bool_decide; [apply IH|].
  simpl. constructor; [|apply IH].
  rewrite list_elem_of_fmap. intros (e & Heq & He).
  apply first_seen_spec in He as [Hn _]. set_solver.
Qed.

Lemma ledger_fold (l : list Filing) : ∀ ledger : gset string,
  fold_left (λ led e, {[accession_number e]} ∪ led) l ledger
  = list_to_set (map accession_number l) ∪ ledger.
Proof.
  induction l as [|x l IH]; intros ledger; simpl; [set_solver|].
  rewrite IH. set_solver.
Qed.

(** [_dedup] in closed form. *)
Lemma dedup_unfold entries ledger :
  _dedup entries ledger =
  let new_entries :=
    List.filter (λ e, negb (bool_decide (accession_number e ∈ ledger))) (first_seen ∅ entries) in
  (new_entries, list_to_set (map accession_number new_entries) ∪ ledger).
Proof.
  destruct entries as [|e0 es]; [simpl; f_equal; set_solver|].
  unfold _dedup. rewrite batch_fold, ledger_fold.
  change (list_to_set (map fst [])) with (∅ : gset string).
  rewrite app_nil_l. generalize (first_seen ∅ (e0 :: es)). intros fs.
  rewrite !map_map. simpl. rewrite map_id.
  assert (List.filter
    (λ e, negb (bool_decide (accession_number e ∈
         (list_to_set (List.filter (λ a, bool_decide (a ∈ ledger)) (map accession_number fs)) : gset string))))
    fs
    = List.filter (λ e, negb (bool_decide (accession_number e ∈ ledger))) fs) as Hf.
  { apply filter_ext_in. intros e He. f_equal. apply bool_decide_ext.
    rewrite elem_of_list_to_set, list_elem_of_In, filter_In, <- !list_elem_of_In, bool_decide_eq_true.
    apply list_elem_of_In in He. split; [tauto|]. intros Hl. split; [|done].
    apply list_elem_of_fmap. eauto. }
  change (λ x : Filing, accession_number x) with accession_number.
  rewrite Hf. done.
Qed.

(** C1 (amended).  For every batch of normalized entries and every
    ledger, [_dedup] returns each accession number at most once, and
    for a number that the batch repeats it keeps the first entry that
    carries it (first seen wins, not last); the numbers it returns are
    exactly those of the batch that the ledger did not hold; the ledger
    it leaves holds every returned number on top of the old ones; so a
    second call, whatever its batch, returns none of the numbers that
    the first call returned. *)
Theorem dedup_first_seen_wins (entries : list Filing) (ledger : gset string) :
  let new_entries := fst (_dedup entries ledger) in
  let ledger' := snd (_dedup entries ledger) in
  NoDup (map accession_number new_entries)
  ∧ (∀ e, e ∈ new_entries ↔
          first_occurrence entries (accession_number e) = Some e
          ∧ accession_number e ∉ ledger)
  ∧ (∀ a, a ∈ map accession_number new_entries ↔
          a ∈ map accession_number entries ∧ a ∉ ledger)
  ∧ ledger' = list_to_set (map accession_number new_entries) ∪ ledger
  ∧ (∀ entries2 e2, e2 ∈ fst (_dedup entries2 ledger') →
          accession_number e2 ∉ map accession_number new_entries
          ∧ accession_number e2 ∉ ledger).
Proof.
  rewrite dedup_unfold. cbv zeta. simpl fst. simpl snd.
  set (new := List.filter _ (first_seen ∅ entries)).
  assert (Hmem : ∀ e, e ∈ new ↔
            first_occurrence entries (accession_number e) = Some e
            ∧ accession_number e ∉ ledger).
  { intros e. subst new.
    rewrite list_elem_of_In, filter_In, <- list_elem_of_In, first_seen_spec,
      negb_true_iff, bool_decide_eq_false.
    set_solver. }
  split; [|split; [exact Hmem|split; [|split; [done|]]]].
  - subst new. generalize (first_seen_NoDup entries ∅).
    generalize (first_seen ∅ entries). intros l Hl.
    induction l as [|x l IH]; simpl; [constructor|].
    apply NoDup_cons in Hl as [Hx Hl].
    destruct (negb _); simpl; [|by apply IH].
    constructor; [|by apply IH].
    intros Hin. apply Hx.
    apply list_elem_of_fmap in Hin as (y & -> & Hy).
    apply list_elem_of_fmap. exists y. split; [done|].
    apply list_elem_of_In in Hy. apply filter_In in Hy as [Hy _]. by apply list_elem_of_In.
  - intros a. rewrite !list_elem_of_fmap. split.
    + intros (e & -> & He). apply Hmem in He as [Hf Hl]. split; [|done].
      exists e. split; [done|]. apply find_some in Hf as [Hf _]. by apply list_elem_of_In.
    + intros [(e & -> & He) Hl].
      destruct (first_occurrence entries (accession_number e)) as [e'|] eqn:Hf.
      * pose proof Hf as Hf'. apply find_some in Hf' as [_ Heq].
        apply String.eqb_eq in Heq. exists e'. split; [done|]. apply Hmem.
        rewrite Heq. done.
      * apply list_elem_of_In in He.
        apply (find_none _ _ Hf) in He. unfold same_accession in He.
        rewrite String.eqb_refl in He. discriminate.
  - intros entries2 e2. rewrite dedup_unfold. cbv zeta. simpl fst.
    rewrite list_elem_of_In, filter_In, negb_true_iff, bool_decide_eq_false.
    intros [_ Hn]. rewrite elem_of_union, elem_of_list_to_set in Hn. tauto.
Qed.

(** C1 as stated fails.  Last seen wins would make every returned
    entry the last one of the batch with its accession number; on a
    batch that lists one accession number under two companies, [_dedup]
    returns the first of the two entries. *)
Lemma dedup_last_seen_wins_fails :
  ¬ (∀ entries ledger e, e ∈ fst (_dedup entries ledger) →
        last_occurrence entries (accession_number e) = Some e).
Proof.
  intros H.
  specialize (H [filing "0001-26-1" "Subject Co"; filing "0001-26-1" "Filer LP"] ∅
                (filing "0001-26-1" "Subject Co")).
  assert (Hin : filing "0001-26-1" "Subject Co"
            ∈ fst (_dedup [filing "0001-26-1" "Subject Co"; filing "0001-26-1" "Filer LP"] ∅)).
  { vm_compute. left. }
  specialize (H Hin). vm_compute in H. discriminate.
Qed.

End DedupProperties.

(* ================================================================== *)
(** * Normalization of the feed entries *)
(* ================================================================== *)

Section NormalizationProperties.
Import feed_poller poller_examples.

(** Without a table, every normalized entry has the placeholder. *)
Lemma parse_entry_without_table entry f :
  _parse_entry entry None = Some f → ticker f = "...".
Proof.
  unfold _parse_entry. 
  destruct (Re.re_match _ _ _) as [m|]; [|discriminate].
  match goal with |- context [match ?s with Some _ => _ | None => _ end = Some f] => destruct s end.
  - intros [= <-]. simpl. done.
  - discriminate.
Qed.

Lemma poll_once_without_table table feed f :
  f ∈ _poll_once table feed → ticker f = "...".
Proof.
  destruct feed as [e|entries]; simpl; [by intros ?%elem_of_nil|].
  rewrite list_elem_of_omap. intros (entry & _ & Hf).
  by apply parse_entry_without_table in Hf.
Qed.

(** C2 (the code at the failing input).  The table loaded at start-up
    maps the CIK 0001682472 to BAC, and [_parse_entry] resolves the
    ticker when it is given that table; [_poll_once] calls it without
    a table, and the normalized entry carries the placeholder of an
    empty table instead of BAC. *)
Lemma poll_once_ignores_loaded_table :
  bofa_table !! "0001682472" = Some "BAC"
  ∧ ticker <$> _parse_entry bofa_entry (Some bofa_table) = Some "BAC"
  ∧ map (λ f, (cik f, ticker f)) (_poll_once bofa_table (inr [bofa_entry]))
    = [("0001682472", "...")].
Proof. vm_compute. done. Qed.

End NormalizationProperties.

(* ================================================================== *)
(** * The heuristic classifier *)
(* ================================================================== *)

Section ClassifierProperties.
Import alpha_engine typed_fields.

Lemma field_ok_get d k ok :
  field_ok d k ok = true →
  ∀ dflt, ok dflt = true → ok (dict_get_default d k dflt) = true.
Proof.
  unfold field_ok, dict_get_default. destruct (dict_get d k); auto.
Qed.

Lemma set_of_str_list l :
  forallb is_str l = true → Py.set_of (PyList l) = inr l.
Proof.
  intros H. unfold Py.set_of. simpl.
  replace (forallb Py.hashable l) with true; [done|].
  symmetry. apply forallb_forall. intros x Hx.
  rewrite forallb_forall in H. specialize (H x Hx). by destruct x.
Qed.

(** The rule of the whale segment on typed fields. *)
Lemma whale_rule (parsed_data : pydict) (form_subtype strategy : string)
    (ownership : pyval) :
  dict_get_default parsed_data "form_subtype" (PyStr "") = PyStr form_subtype →
  dict_get_default parsed_data "strategy" (PyStr "") = PyStr strategy →
  dict_get_default parsed_data "ownership_pct" PyNone = ownership →
  is_number_or_none ownership = true →
  pre_classify "whale" parsed_data =
    inr (PyInt (if String.eqb form_subtype "13D"
                then (if contains "activist" strategy then 80 else 60)
                else if exceeds_5 ownership then 40 else 0)).
Proof.
  intros Hsub Hstr Hown Hty.
  unfold pre_classify. simpl String.eqb. cbv iota.
  rewrite Hsub, Hstr, Hown. simpl Py.eq_str.
  destruct (String.eqb form_subtype "13D"); simpl.
  - by destruct (contains "activist" strategy).
  - destruct ownership as [| | z | f | | |]; try discriminate; simpl.
    + done.
    + destruct (z =? 0) eqn:Hz; simpl.
      * apply Z.eqb_eq in Hz as ->. done.
      * by destruct (5 <? z).
    + unfold Py.float_is_zero, Py.int_lt_float.
      destruct (Prim2SF f) as [s|s| |s m e]; simpl; try done.
      * by destruct s.
      * by destruct (if 0 <=? e then _ else _).
Qed.

(** C3 (amended).  For the segment whale, on fields whose form_subtype
    and strategy are strings and whose ownership is a number or None,
    [pre_classify] returns +80 when form_subtype is 13D and the
    strategy label contains the word activist, which both labels
    activist and potentially activist do and the label passive does
    not; +60 when form_subtype is 13D and the label does not contain
    it; +40 when form_subtype is not 13D and the ownership exceeds 5;
    0 otherwise.  In particular, on the fields that the 13D parser
    produces for a text with a Schedule 13D heading and neither
    activism nor passive language, the label is potentially activist
    and the score is +80. *)
Theorem whale_score (parsed_data : pydict) (form_subtype strategy : string)
    (ownership : pyval) :
  dict_get_default parsed_data "form_subtype" (PyStr "") = PyStr form_subtype →
  dict_get_default parsed_data "strategy" (PyStr "") = PyStr strategy →
  dict_get_default parsed_data "ownership_pct" PyNone = ownership →
  is_number_or_none ownership = true →
  pre_classify "whale" parsed_data =
    inr (PyInt (if String.eqb form_subtype "13D"
                then (if contains "activist" strategy then 80 else 60)
                else if exceeds_5 ownership then 40 else 0))
  ∧ (contains "activist" "activist" = true
     ∧ contains "activist" "potentially activist" = true
     ∧ contains "activist" "passive" = false)
  ∧ ∀ txt,
      Re.re_search Re.ignorecase form_13d_13g.schedule_13d_re (slice_to 2000 txt) ≠ None →
      Re.re_search Re.ignorecase form_13d_13g._ACTIVISM_KEYWORDS txt = None →
      Re.re_search Re.ignorecase form_13d_13g._PASSIVE_KEYWORDS txt = None →
      dict_get (form_13d_13g.fields_13d_13g txt) "strategy" = Some (PyStr "potentially activist")
      ∧ pre_classify "whale" (form_13d_13g.fields_13d_13g txt) = inr (PyInt 80).
Proof.
  intros Hsub Hstr Hown Hty.
  split; [by apply whale_rule|split; [by vm_compute|]].
  intros txt H13 Hact Hpas. unfold form_13d_13g.fields_13d_13g.
  rewrite Hact, Hpas.
  destruct (Re.re_search Re.ignorecase form_13d_13g.schedule_13d_re (slice_to 2000 txt));
    [|done].
  split; reflexivity.
Qed.

(** The rule at the fields of two Schedule 13D texts. *)
Lemma whale_score_witness :
  pre_classify "whale"
    (form_13d_13g.fields_13d_13g
       "SCHEDULE 13D NAME OF REPORTING PERSON: Icahn Enterprises The reporting person owns 8.5% of the outstanding shares. Item 4. PURPOSE OF TRANSACTION The reporting person intends to seek board seats. Item 5.")
  = inr (PyInt 80)
  ∧ pre_classify "whale"
      (form_13d_13g.fields_13d_13g
         "SCHEDULE 13D The reporting person owns 8.5% of the outstanding shares.")
    = inr (PyInt 80).
Proof.
  pose proof (whale_score
    (form_13d_13g.fields_13d_13g
       "SCHEDULE 13D NAME OF REPORTING PERSON: Icahn Enterprises The reporting person owns 8.5% of the outstanding shares. Item 4. PURPOSE OF TRANSACTION The reporting person intends to seek board seats. Item 5.")
    "13D" "activist" (PyFloat 8.5) eq_refl eq_refl eq_refl eq_refl) as (Hscore & _ & Hparser).
  split; [exact Hscore|].
  apply Hparser; [by vm_compute | by vm_compute | by vm_compute].
Defined.

(** C3 as stated fails.  On a Schedule 13D text without activism or
    passive language the parser labels the strategy potentially
    activist, and the score of [pre_classify] is +80, not +60. *)
Lemma whale_potentially_activist_is_not_60 :
  let parsed_data :=
    form_13d_13g.fields_13d_13g
      "SCHEDULE 13D The reporting person owns 8.5% of the outstanding shares." in
  dict_get parsed_data "form_subtype" = Some (PyStr "13D")
  ∧ dict_get parsed_data "has_activism_language" = Some (PyBool false)
  ∧ dict_get parsed_data "strategy" = Some (PyStr "potentially activist")
  ∧ pre_classify "whale" parsed_data = inr (PyInt 80)
  ∧ pre_classify "whale" parsed_data ≠ inr (PyInt 60).
Proof. vm_compute. repeat split; congruence. Qed.

Lemma str_list_typed l : is_str_list (PyList (map PyStr l)) = true.
Proof. simpl. induction l as [|x l IH]; simpl; [done|exact IH]. Qed.

(** The fields of the parsers have the types that [parser_typed] asks. *)
Lemma fields_8k_typed txt : parser_typed (form_8k.fields_8k txt) = true.
Proof.
  unfold parser_typed, field_ok, form_8k.fields_8k. simpl dict_get.
  rewrite !andb_true_r. apply str_list_typed.
Qed.

Lemma fields_13d_13g_typed txt : parser_typed (form_13d_13g.fields_13d_13g txt) = true.
Proof.
  unfold parser_typed, field_ok, form_13d_13g.fields_13d_13g. simpl dict_get.
  by destruct (form_13d_13g.percentages _).
Qed.

Lemma fields_10q_typed ix_tags txt : parser_typed (form_10q.fields_10q ix_tags txt) = true.
Proof. reflexivity. Qed.

Lemma generic_fields_typed ft : parser_typed [("form_type", PyStr ft)] = true.
Proof. reflexivity. Qed.

(** C4 as stated fails.  A fields dictionary whose sentiment_score is
    None makes [pre_classify] raise a TypeError for the segment pulse,
    so it does not return an integer of the range for every
    dictionary. *)
Lemma pre_classify_raises_on_none_score :
  pre_classify "pulse" [("sentiment_score", PyNone)] = inl TypeError
  ∧ ¬ (∀ segment parsed_data, ∃ n,
         pre_classify segment parsed_data = inr (PyInt n) ∧ -100 ≤ n ≤ 100).
Proof.
  split; [reflexivity|].
  intros H. destruct (H "pulse" [("sentiment_score", PyNone)]) as (n & Hn & _).
  discriminate Hn.
Qed.

(** C4 (amended).  For every segment string, recognized or not, and
    every fields dictionary, empty or incomplete ones included, in
    which each field that the classifier reads is absent or has the
    type its parser gives it (items a list of strings, form_subtype and
    strategy strings, ownership_pct a number or None, sentiment_score
    an integer), [pre_classify] returns without raising an integer in
    [-100,100]; for an unrecognized segment it returns 0. *)
Theorem pre_classify_bounded (segment : string) (parsed_data : pydict) :
  parser_typed parsed_data = true →
  ∃ n, pre_classify segment parsed_data = inr (PyInt n)
       ∧ -100 ≤ n ≤ 100
       ∧ (known_segment segment = false → n = 0).
Proof.
  unfold parser_typed. rewrite !andb_true_iff.
  intros [[[[Hitems Hsub] Hstr] Hown] Hscore].
  unfold pre_classify, known_segment.
  destruct (String.eqb segment "catalyst"); simpl orb.
  { pose proof (field_ok_get _ _ _ Hitems (PyList []) eq_refl) as Hi.
    destruct (dict_get_default parsed_data "items" (PyList [])) as [| | | | |l|]; try discriminate.
    simpl in Hi. rewrite (set_of_str_list _ Hi). simpl.
    destruct (Py.meets l form_8k.BEARISH_ITEMS); [eexists; split; [done|split; [lia|done]]|].
    destruct (Py.meets l form_8k.BULLISH_ITEMS); eexists; (split; [done|split; [lia|done]]). }
  destruct (String.eqb segment "whale"); simpl orb.
  { pose proof (field_ok_get _ _ _ Hsub (PyStr "") eq_refl) as H1.
    pose proof (field_ok_get _ _ _ Hstr (PyStr "") eq_refl) as H2.
    pose proof (field_ok_get _ _ _ Hown PyNone eq_refl) as H3.
    destruct (dict_get_default parsed_data "form_subtype" (PyStr "")) as [| | | |sub| |] eqn:E1;
      try discriminate.
    destruct (dict_get_default parsed_data "strategy" (PyStr "")) as [| | | |str| |] eqn:E2;
      try discriminate.
    pose proof (whale_rule parsed_data sub str _ E1 E2 eq_refl H3) as Hw.
    unfold pre_classify in Hw. simpl String.eqb in Hw. cbv iota in Hw.
    rewrite E1, E2 in Hw. rewrite Hw.
    eexists. split; [done|]. split; [|done].
    destruct (String.eqb sub "13D"); [destruct (contains _ _); lia|].
    destruct (exceeds_5 _); lia. }
  destruct (String.eqb segment "pulse"); simpl orb.
  { pose proof (field_ok_get _ _ _ Hscore (PyInt 0) eq_refl) as Hs.
    destruct (dict_get_default parsed_data "sentiment_score" (PyInt 0)) as [| |z| | | |];
      try discriminate.
    simpl. unfold Py.min_int, Py.max_int. simpl.
    destruct (z * 20 <? 100) eqn:E1; simpl.
    - destruct (-100 <? z * 20) eqn:E2; simpl; eexists; (split; [done|split; [lia|done]]).
    - eexists. split; [done|]. split; [lia|done]. }
  exists 0. split; [done|]. split; [lia|done].
Qed.

(** The bound at the fields of a quarterly report with more risk than
    positive keywords. *)
Lemma pre_classify_bounded_witness :
  ∃ n, pre_classify "pulse" [("revenue", PyNone); ("sentiment_score", PyInt (-7))]
       = inr (PyInt n)
       ∧ -100 ≤ n ≤ 100
       ∧ (known_segment "pulse" = false → n = 0).
Proof. apply pre_classify_bounded. reflexivity. Defined.

End ClassifierProperties.

(* ================================================================== *)
(** * The adapter of the generative classifier *)
(* ================================================================== *)

Section AdapterProperties.
Import ai_processor adapter_examples adapter_spec.

Lemma dict_get_set d k v : dict_get (dict_set d k v) k = Some v.
Proof.
  induction d as [|[k' v'] d IH]; simpl.
  - by rewrite String.eqb_refl.
  - destruct (String.eqb k' k) eqn:E; simpl; rewrite E; [done|apply IH].
Qed.

Lemma dict_get_pop_ne d k k' :
  k ≠ k' → dict_get (dict_pop d k') k = dict_get d k.
Proof.
  intros Hne. induction d as [|[k0 v0] d IH]; simpl; [done|].
  destruct (String.eqb k0 k') eqn:E; simpl.
  - apply String.eqb_eq in E as ->.
    destruct (String.eqb k' k) eqn:E'; [|done].
    apply String.eqb_eq in E'. congruence.
  - by rewrite IH.
Qed.

(** Whenever the validation returns, the impact is an integer of the range. *)
Lemma validate_impact_range d d' :
  _validate_impact (PyDict d) = inr d' →
  ∃ n, dict_get d' "impact" = Some (PyInt n) ∧ -100 ≤ n ≤ 100.
Proof.
  unfold _validate_impact.
  match goal with |- context [Py.int ?r] => generalize r end. intros raw.
  destruct (Py.int raw) as [[]|z]; simpl; try discriminate;
    intros [= <-]; eexists;
    (split; [rewrite dict_get_pop_ne by done; apply dict_get_set | lia]).
Qed.

(** The validation raises on an infinite impact only, and then with an [OverflowError]. *)
Lemma validate_impact_raises d e :
  _validate_impact (PyDict d) = inl e →
  e = OverflowError
  ∧ ∃ f neg, dict_get_default d "impact" (dict_get_default d "signal" (PyInt 0)) = PyFloat f
             ∧ Prim2SF f = S754_infinity neg.
Proof.
  unfold _validate_impact.
  destruct (dict_get_default d "impact" _) as [| b | z | f | s | l | d0]; simpl;
    try discriminate.
  unfold Py.int_of_float.
  destruct (Prim2SF f) as [s|s| |s m e0] eqn:Hf; simpl; try discriminate.
  intros [= <-]. eauto.
Qed.

(** C5 (the code at the failing input).  On a response dictionary
    whose impact is a float infinity, which json.loads produces for a
    numeral such as 1e999, [_validate_impact] raises an OverflowError
    instead of returning a dictionary with an impact in [-100,100]:
    the conversion to an integer raises it, and only TypeError and
    ValueError are caught. *)
Lemma validate_impact_overflows_on_infinity :
  _validate_impact overflowing_reply = inl OverflowError.
Proof. reflexivity. Qed.

(** C9 (amended).  For every reply that holds no JSON at any of
    the places where [_parse_response] looks (the reply stripped of
    surrounding white space, the object of a fenced code block, the
    object around a summary key: [json.loads] returns at none of
    them), the parser either returns the synthetic result, or raises an
    exception of [json.loads] other than JSONDecodeError, which it does
    not catch.  It returns the synthetic result exactly when every
    place ends in a JSONDecodeError: the summary is the stripped reply
    cut at 300 characters, the impact 0 and the reasons the one fixed
    could-not-parse reason, and [_validate_impact] leaves that result
    as it is. *)
Theorem parse_response_falls_back (json_loads : string → result pyval) (reply : string) :
  let txt := strip reply in
  let synthetic :=
    [ ("summary", PyStr (slice_to 300 txt));
      ("impact", PyInt 0);
      ("reasons", PyList [PyStr "Could not parse structured SLM response"]) ] in
  (∀ s v, s ∈ decoding_attempts txt → json_loads s ≠ inr v) →
  ((∀ s, s ∈ decoding_attempts txt → json_loads s = inl JSONDecodeError)
   ↔ _parse_response json_loads reply = inr (PyDict synthetic))
  ∧ (∀ d, _parse_response json_loads reply = inr d →
          d = PyDict synthetic ∧ _validate_impact d = inr synthetic)
  ∧ (∀ e, _parse_response json_loads reply = inl e →
          e ≠ JSONDecodeError
          ∧ ∃ s, s ∈ decoding_attempts txt ∧ json_loads s = inl e).
Proof.
  intros txt synthetic Hscope.
  assert (Hcases :
    (_parse_response json_loads reply = inr (PyDict synthetic)
     ∧ ∀ s, s ∈ decoding_attempts txt → json_loads s = inl JSONDecodeError)
    ∨ (∃ e s, _parse_response json_loads reply = inl e ∧ e ≠ JSONDecodeError
              ∧ s ∈ decoding_attempts txt ∧ json_loads s = inl e)).
  { revert Hscope. unfold _parse_response, decoding_attempts, try_loads. fold txt.
    destruct (Re.re_search Re.dotall fence_re txt) as [mf|];
      destruct (Re.re_search Re.dotall summary_re txt) as [ms|]; simpl app; intros Hscope;
      repeat
        match goal with
        | |- context [json_loads ?s] =>
            let E := fresh "E" in
            destruct (json_loads s) as [[]|v] eqn:E;
            [..|exfalso; apply (Hscope s v); [set_solver|exact E]]
        end;
      first
        [ left; split; [reflexivity|];
          intros s Hs; repeat (apply elem_of_cons in Hs as [->|Hs]; [assumption|]);
          by apply elem_of_nil in Hs
        | right;
          match goal with
          | |- ∃ e s, raise ?x = inl e ∧ _ =>
              match goal with
              | H : json_loads ?s = inl x |- _ =>
                  exists x, s; split; [reflexivity|]; split; [discriminate|];
                  split; [set_solver|exact H]
              end
          end ]. }
  destruct Hcases as [[Hp Hall]|(e & s & Hp & Hne & Hs & He)].
  - split; [|split].
    + split; [by intros _|by intros _].
    + intros d Hd. rewrite Hp in Hd. injection Hd as <-. split; reflexivity.
    + intros e He. rewrite Hp in He. discriminate He.
  - split; [|split].
    + split.
      * intros Hall. rewrite (Hall s Hs) in He. injection He as <-. done.
      * intros Hd. rewrite Hp in Hd. discriminate Hd.
    + intros d Hd. rewrite Hp in Hd. discriminate Hd.
    + intros e' He'. rewrite Hp in He'. injection He' as <-. split; [done|]. by exists s.
Qed.

(** C9 as stated fails.  A reply of a thousand open brackets is
    not JSON, has no fenced block and no object around a summary key;
    [json.loads] gives up on it with a RecursionError, and
    [_parse_response], which catches JSONDecodeError only, raises it
    instead of returning the synthetic result. *)
Lemma parse_response_raises_on_deep_nesting :
  nesting_loads (strip deep_reply) = inl RecursionError
  ∧ Re.re_search Re.dotall fence_re (strip deep_reply) = None
  ∧ Re.re_search Re.dotall summary_re (strip deep_reply) = None
  ∧ _parse_response nesting_loads deep_reply = inl RecursionError.
Proof. vm_compute. repeat split. Qed.

(** The fallback at a reply in plain prose. *)
Lemma parse_response_falls_back_witness :
  _parse_response rejecting_loads "  The filing looks routine.  " =
    inr (PyDict [ ("summary", PyStr "The filing looks routine.");
                  ("impact", PyInt 0);
                  ("reasons", PyList [PyStr "Could not parse structured SLM response"]) ]).
Proof.
  refine (proj1 (proj1 (parse_response_falls_back rejecting_loads
                          "  The filing looks routine.  " _)) _).
  - intros s v _. discriminate.
  - intros s _. reflexivity.
Defined.

End AdapterProperties.

(* ================================================================== *)
(** * The item-code parser *)
(* ================================================================== *)

Section ItemCodeProperties.
Import form_8k parser_examples.

(** The order of strings is transitive, total and antisymmetric. *)
Lemma string_compare_le_trans (s1 : string) : ∀ s2 s3,
  String.compare s1 s2 ≠ Gt → String.compare s2 s3 ≠ Gt → String.compare s1 s3 ≠ Gt.
Proof.
  induction s1 as [|a s1 IH]; intros [|b s2] [|c s3]; simpl; try easy.
  unfold Ascii.compare.
  destruct (N.compare_spec (N_of_ascii a) (N_of_ascii b)) as [Hab|Hab|Hab];
    destruct (N.compare_spec (N_of_ascii b) (N_of_ascii c)) as [Hbc|Hbc|Hbc];
    destruct (N.compare_spec (N_of_ascii a) (N_of_ascii c)) as [Hac|Hac|Hac];
    try easy; try lia.
  apply IH.
Qed.

#[local] Instance str_le_trans : Transitive str_le.
Proof.
  intros a b c. unfold str_le, String.leb. intros Hab Hbc.
  pose proof (string_compare_le_trans a b c) as H.
  destruct (String.compare a b); destruct (String.compare b c);
    destruct (String.compare a c); try easy; exfalso; apply H; easy.
Qed.

#[local] Instance str_le_total : Total str_le.
Proof. intros a b. apply String.leb_total. Qed.

#[local] Instance str_le_antisym : AntiSymm eq str_le.
Proof. intros a b. apply String.leb_antisym. Qed.

Lemma sorted_set_elem xs c : c ∈ sorted_set xs ↔ c ∈ xs.
Proof.
  unfold sorted_set. rewrite merge_sort_Permutation. apply elem_of_remove_dups.
Qed.

Lemma sorted_set_NoDup xs : NoDup (sorted_set xs).
Proof.
  unfold sorted_set. rewrite merge_sort_Permutation. apply NoDup_remove_dups.
Qed.

Lemma sorted_set_sorted xs : StronglySorted str_le (sorted_set xs).
Proof. apply StronglySorted_merge_sort; apply _. Qed.

(** A sorted list without duplicates is determined by its elements. *)
Lemma sorted_set_unique xs ys :
  NoDup ys → StronglySorted str_le ys → (∀ c, c ∈ xs ↔ c ∈ ys) → sorted_set xs = ys.
Proof.
  intros Hnd Hs Hel. apply (StronglySorted_unique str_le); [apply sorted_set_sorted|done|].
  apply NoDup_Permutation; [apply sorted_set_NoDup|done|].
  intros c. rewrite sorted_set_elem. apply Hel.
Qed.

Lemma intersects_spec items codes :
  intersects items codes = true ↔ ∃ c, c ∈ items ∧ c ∈ codes.
Proof.
  unfold intersects. rewrite existsb_exists. split.
  - intros (c & Hc & Hd). exists c. split; [by apply list_elem_of_In|].
    by apply bool_decide_eq_true in Hd.
  - intros (c & Hc & Hd). exists c. split; [by apply list_elem_of_In|].
    by apply bool_decide_eq_true.
Qed.

(** C8.  For every input, the items list of [parse_8k] has no
    duplicates and is sorted in ascending order of strings, it holds
    exactly the codes that the item pattern matches in the cleaned
    text, has_bullish_items is true exactly when a matched code is in
    the bullish set and has_bearish_items exactly when one is in the
    bearish set; in particular, when the matched codes are 1.01 and
    9.01, the items are 1.01 then 9.01, has_bullish_items is true and
    has_bearish_items is false. *)
Theorem parse_8k_items (soup_text : string → string) (raw_html : string) :
  let txt := fst (parse_8k soup_text raw_html) in
  let parsed_data := snd (parse_8k soup_text raw_html) in
  let codes := Re.findall1 Re.ignorecase _ITEM_RE txt in
  ∃ items bullish bearish,
    dict_get parsed_data "items" = Some (PyList (map PyStr items))
    ∧ dict_get parsed_data "has_bullish_items" = Some (PyBool bullish)
    ∧ dict_get parsed_data "has_bearish_items" = Some (PyBool bearish)
    ∧ NoDup items
    ∧ StronglySorted str_le items
    ∧ (∀ c, c ∈ items ↔ c ∈ codes)
    ∧ (bullish = true ↔ ∃ c, c ∈ codes ∧ c ∈ BULLISH_ITEMS)
    ∧ (bearish = true ↔ ∃ c, c ∈ codes ∧ c ∈ BEARISH_ITEMS)
    ∧ ((∀ c, c ∈ codes ↔ c = "1.01" ∨ c = "9.01") →
       items = ["1.01"; "9.01"] ∧ bullish = true ∧ bearish = false).
Proof.
  intros txt parsed_data codes.
  exists (sorted_set codes), (intersects (sorted_set codes) BULLISH_ITEMS),
    (intersects (sorted_set codes) BEARISH_ITEMS).
  split; [reflexivity|]. split; [reflexivity|]. split; [reflexivity|].
  split; [apply sorted_set_NoDup|]. split; [apply sorted_set_sorted|].
  split; [apply sorted_set_elem|].
  split; [|split].
  - rewrite intersects_spec. by setoid_rewrite sorted_set_elem.
  - rewrite intersects_spec. by setoid_rewrite sorted_set_elem.
  - intros Hcodes.
    assert (sorted_set codes = ["1.01"; "9.01"]) as ->.
    { apply sorted_set_unique.
      - repeat constructor; set_solver.
      - repeat constructor.
      - intros c. rewrite Hcodes. set_solver. }
    by vm_compute.
Qed.

(** The fields of a report that announces a material agreement. *)
Lemma parse_8k_items_witness :
  let parsed_data := snd (parse_8k no_markup material_agreement_8k) in
  dict_get parsed_data "items" = Some (PyList [PyStr "1.01"; PyStr "9.01"])
  ∧ dict_get parsed_data "has_bullish_items" = Some (PyBool true)
  ∧ dict_get parsed_data "has_bearish_items" = Some (PyBool false).
Proof.
  assert (Hcodes : Re.findall1 Re.ignorecase _ITEM_RE
                     (fst (parse_8k no_markup material_agreement_8k)) = ["1.01"; "9.01"])
    by (vm_compute; reflexivity).
  destruct (parse_8k_items no_markup material_agreement_8k)
    as (items & bullish & bearish & Hi & Hb & Hs & _ & _ & _ & _ & _ & Hex).
  cbv zeta in Hex. rewrite Hcodes in Hex.
  destruct Hex as (Hitems & Hbull & Hbear).
  { intros c. rewrite !elem_of_cons, elem_of_nil. tauto. }
  subst items bullish bearish. 
  split; [exact Hi | split; [exact Hb | exact Hs]].
Defined.

End ItemCodeProperties.

(* ================================================================== *)
(** * The document fetcher and the parser registry *)
(* ================================================================== *)

Section FetcherProperties.
Import filing_fetcher selection_spec fetcher_examples.

(** Splitting at the first slash. *)
Lemma chars_append s1 s2 : chars (String.append s1 s2) = chars s1 ++ chars s2.
Proof. induction s1 as [|c s1 IH]; simpl; [done|]. by rewrite <- IH. Qed.

Lemma length_chars s : List.length (chars s) = String.length s.
Proof. induction s as [|c s IH]; simpl; [done|]. by rewrite <- IH. Qed.

Lemma text_chars s : text (chars s) = s.
Proof. apply string_of_list_ascii_of_string. Qed.

Lemma split_chars_no_slash l : ∀ cur fuel,
  find_sub (chars "/") l = false → (List.length l < fuel)%nat →
  split_chars (chars "/") cur l fuel = [rev cur ++ l].
Proof.
  induction l as [|c l IH]; intros cur [|fuel] Hno Hlen; simpl in *; try lia.
  - by rewrite app_nil_r.
  - rewrite andb_true_r in Hno. apply orb_false_iff in Hno as [Hc Hl].
    rewrite andb_true_r, Hc, IH by (done || lia). simpl. by rewrite <- app_assoc.
Qed.

Lemma split_chars_first_slash l : ∀ cur fuel rest,
  find_sub (chars "/") l = false → (List.length l < fuel)%nat →
  hd [] (split_chars (chars "/") cur (l ++ "/"%char :: rest) fuel) = rev cur ++ l.
Proof.
  induction l as [|c l IH]; intros cur [|fuel] rest Hno Hlen; simpl in *; try lia.
  - by rewrite app_nil_r.
  - rewrite andb_true_r in Hno. apply orb_false_iff in Hno as [Hc Hl].
    rewrite andb_true_r, Hc, IH by (done || lia). simpl. by rewrite <- app_assoc.
Qed.

(** The base form type of a form type without a slash is the form type,
    and a marker after a slash does not change it. *)
Lemma base_form_of_plain ft :
  contains "/" ft = false → base_form_of ft = strip ft.
Proof.
  intros Hno. unfold base_form_of, split_head, split.
  rewrite split_chars_no_slash by (done || rewrite length_chars; lia).
  simpl. by rewrite text_chars.
Qed.

Lemma base_form_of_amended ft marker :
  contains "/" ft = false →
  base_form_of (String.append ft (String "/" marker)) = base_form_of ft.
Proof.
  intros Hno. rewrite (base_form_of_plain ft Hno).
  unfold base_form_of, split_head, split.
  rewrite chars_append. simpl chars at 2.
  set (fuel := S (String.length _)).
  assert (Hfuel : (List.length (chars ft) < fuel)%nat).
  { subst fuel. rewrite length_chars, <- !length_chars, chars_append, length_app. lia. }
  pose proof (split_chars_first_slash (chars ft) [] fuel (list_ascii_of_string marker) Hno Hfuel) as H.
  destruct (split_chars _ _ _ _) as [|x xs]; simpl in *.
  - destruct (chars ft) as [|? ?] eqn:E; simpl in H; [|discriminate].
    rewrite <- (text_chars ft), E. done.
  - subst x. by rewrite text_chars.
Qed.

(** Without a document, the fetch yields the empty text and no field:
    when the index page cannot be downloaded or lists no document link,
    and when the download of the document fails. *)
Lemma fetch_without_document
    (_download_text : string → result string) (urljoin : string → string → string)
    (soup_text_html soup_text_lxml : string → string)
    (soup_ix_tags : string → list (option string * string))
    (parse_form4 parse_s1_s3 : string → string * pydict)
    (index_url form_type : string) :
  _get_doc_url_from_index _download_text urljoin index_url = None
  ∨ (∃ doc_url err,
       _get_doc_url_from_index _download_text urljoin index_url = Some doc_url
       ∧ _download_text doc_url = inl err) →
  fetch_filing_document _download_text urljoin soup_text_html soup_text_lxml
    soup_ix_tags parse_form4 parse_s1_s3 index_url form_type = ("", []).
Proof.
  unfold fetch_filing_document. intros [->|(doc_url & err & -> & ->)]; [done|].
  by destruct (String.eqb doc_url "").
Qed.

Lemma index_page_unavailable
    (_download_text : string → result string) (urljoin : string → string → string)
    (index_url : string) (err : exn) :
  _download_text index_url = inl err →
  _get_doc_url_from_index _download_text urljoin index_url = None.
Proof. unfold _get_doc_url_from_index. by intros ->. Qed.

(** C6 (amended).  Once the document is resolved and downloaded, the
    parser is chosen by the base form type, the part of the form type
    before the first slash, stripped: a marker after a slash does not
    change it (10-Q/A has base 10-Q, 10-K/A has base 10-K).  A form of
    base 10-Q is parsed by [parse_10q], the periodic financial-report
    parser; a form of base 10-K is parsed by the fallback for
    unrecognized forms, which returns the text without its markup and
    the form type as only field. *)
Theorem periodic_report_dispatch
    (_download_text : string → result string) (urljoin : string → string → string)
    (soup_text_html soup_text_lxml : string → string)
    (soup_ix_tags : string → list (option string * string))
    (parse_form4 parse_s1_s3 : string → string * pydict)
    (index_url form_type doc_url raw : string) :
  let fetch := fetch_filing_document _download_text urljoin soup_text_html soup_text_lxml
                 soup_ix_tags parse_form4 parse_s1_s3 in
  _get_doc_url_from_index _download_text urljoin index_url = Some doc_url →
  doc_url ≠ "" →
  _download_text doc_url = inr raw →
  (base_form_of form_type = "10-Q" →
     fetch index_url form_type = form_10q.parse_10q soup_ix_tags soup_text_lxml raw)
  ∧ (base_form_of form_type = "10-K" →
     fetch index_url form_type = (strip_markup raw, [("form_type", PyStr form_type)]))
  ∧ (∀ marker, contains "/" form_type = false →
     base_form_of (String.append form_type (String "/" marker)) = base_form_of form_type)
  ∧ base_form_of "10-Q/A" = "10-Q" ∧ base_form_of "10-K/A" = "10-K"
  ∧ base_form_of "10-Q" = "10-Q" ∧ base_form_of "10-K" = "10-K".
Proof.
  intros fetch Hurl Hne Hraw.
  assert (Hfetch : fetch index_url form_type
            = run_parser soup_text_html soup_text_lxml soup_ix_tags parse_form4 parse_s1_s3
                (route (base_form_of form_type)) form_type raw).
  { subst fetch. unfold fetch_filing_document. rewrite Hurl.
    destruct (String.eqb_spec doc_url "") as [->|_]; [done|]. by rewrite Hraw. }
  split; [|split; [|split; [|by vm_compute]]].
  - intros Hb. rewrite Hfetch, Hb. reflexivity.
  - intros Hb. rewrite Hfetch, Hb. reflexivity.
  - intros marker Hno. by apply base_form_of_amended.
Qed.

(** The dispatch at an amended annual and an amended quarterly report. *)
Lemma periodic_report_dispatch_witness :
  let fetch :=
    fetch_filing_document
      (serve [(index_url, report_page);
              (String.append "https://www.sec.gov" report_link, annual_report)])
      urljoin_unused strip_markup strip_markup no_ix_tags
      no_parser no_parser in
  fetch index_url "10-K/A"
  = ("Total revenue: $1,250,000 strong demand", [("form_type", PyStr "10-K/A")])
  ∧ fetch index_url "10-Q/A"
    = form_10q.parse_10q no_ix_tags strip_markup annual_report.
Proof.
  pose proof (periodic_report_dispatch
    (serve [(index_url, report_page);
            (String.append "https://www.sec.gov" report_link, annual_report)])
    urljoin_unused strip_markup strip_markup no_ix_tags
    no_parser no_parser index_url) as H.
  split.
  - refine (proj1 (proj2 (H "10-K/A" _ annual_report _ _ _)) _);
      [by vm_compute | by vm_compute | by vm_compute | by vm_compute].
  - refine (proj1 (H "10-Q/A" _ annual_report _ _ _) _);
      [by vm_compute | by vm_compute | by vm_compute | by vm_compute].
Defined.

(** C6 as stated fails.  The base form 10-K, which the segment table
    sends to the pulse segment, is routed to the fallback and not to
    the periodic financial-report parser: the fields of an annual
    report are its form type alone. *)
Lemma annual_report_takes_the_fallback :
  route (base_form_of "10-K") = Generic
  ∧ route (base_form_of "10-K") ≠ Parse10Q
  ∧ route (base_form_of "10-Q") = Parse10Q
  ∧ feed_poller.table_get feed_poller.FORM_TO_SEGMENT "10-K" = Some "pulse"
  ∧ fetch_filing_document
      (serve [(index_url, report_page);
              (String.append "https://www.sec.gov" report_link, annual_report)])
      urljoin_unused strip_markup strip_markup no_ix_tags
      no_parser no_parser index_url "10-K"
    = ("Total revenue: $1,250,000 strong demand", [("form_type", PyStr "10-K")]).
Proof. vm_compute. repeat split; congruence. Qed.

(** Without a file of the viewer among links that are all .htm, .html
    or .xml, the selection is the documented one. *)
Lemma pick_best_documented doc_links :
  Forall (λ link, is_viewer_file link = false) doc_links →
  Forall (λ link, is_htm link = true ∨ is_xml link = true) doc_links →
  pick_best doc_links = documented_best doc_links.
Proof.
  intros Hview Hext. unfold pick_best, documented_best, first_htm, first_without_xsl.
  assert (H1 : List.find (λ link, negb (is_viewer_file link) && negb (has_xsl link) && is_htm link)
                 doc_links
               = List.find (λ link, survives link && is_htm link) doc_links) by done.
  rewrite H1. destruct (List.find (λ link, survives link && is_htm link) doc_links) eqn:Hhtm;
    [done|].
  assert (H2 : List.find (λ link, negb (has_xsl link)) doc_links
               = List.find (λ link, survives link && is_xml link) doc_links).
  { clear H1. induction doc_links as [|x l IH]; simpl in *; [done|].
    apply Forall_cons in Hview as [Hx Hview]. apply Forall_cons in Hext as [Hex Hext].
    unfold survives in *. rewrite Hx in *. simpl in *.
    destruct (has_xsl x); simpl in *; [by apply IH|].
    destruct (is_htm x); [discriminate|].
    destruct Hex as [Hh | Hx2]; [discriminate | by rewrite Hx2]. }
  by rewrite H2.
Qed.

(** What the three stages of the selection return. *)
Lemma pick_best_stages doc_links best :
  pick_best doc_links = Some best ↔
    first_htm doc_links = Some best
    ∨ (first_htm doc_links = None ∧ first_without_xsl doc_links = Some best)
    ∨ (first_htm doc_links = None ∧ first_without_xsl doc_links = None
       ∧ head doc_links = Some best).
Proof.
  unfold pick_best.
  destruct (first_htm doc_links); [naive_solver|].
  destruct (first_without_xsl doc_links); naive_solver.
Qed.

(** C7 (the code at the failing input).  The index page lists a file
    of the XBRL viewer, R2.htm, before a raw XML document.  No .htm
    link survives the filtering and an .xml link does, so the
    documented selection is the XML document; [pick_best] returns the
    viewer file, because its second loop skips only the paths with an
    XSLT segment, and [_get_doc_url_from_index] resolves to it. *)
Lemma viewer_file_beats_raw_xml :
  let doc_links := [viewer_link; xml_link] in
  List.filter is_doc_link
    (Re.findall1 Re.ignorecase href_re viewer_first_page) = doc_links
  ∧ is_viewer_file viewer_link = true
  ∧ first_htm doc_links = None
  ∧ (is_viewer_file xml_link = false ∧ has_xsl xml_link = false
     ∧ endswith (lower xml_link) ".xml" = true)
  ∧ documented_best doc_links = Some xml_link
  ∧ pick_best doc_links = Some viewer_link
  ∧ _get_doc_url_from_index (serve [(index_url, viewer_first_page)]) urljoin_unused index_url
    = Some (String.append "https://www.sec.gov" viewer_link).
Proof. by vm_compute. Qed.

End FetcherProperties.

(* ================================================================== *)
(** * The orchestrator *)
(* ================================================================== *)

Section OrchestratorProperties.
Import feed_poller dedup_spec poller_examples orchestrator_examples.

Variable fetch_filing_document : string → string → string * pydict.
Variable summarise_filing :
  string → string → string → option string → pydict → string → result pydict.
Variable broadcast_fn : bool.

Abbreviation process := (_process_filing fetch_filing_document summarise_filing broadcast_fn).
Abbreviation cycle := (poll_cycle fetch_filing_document summarise_filing broadcast_fn).

(** Processing a filing never touches the ledger, a turn only adds to it. *)
Lemma broadcast_ledger b ev st : seen_filings (broadcast b ev st) = seen_filings st.
Proof. by destruct b. Qed.

Lemma process_body_ledger e st :
  seen_filings (snd (process_body fetch_filing_document summarise_filing broadcast_fn e st))
  = seen_filings st.
Proof.
  unfold process_body.
  destruct (existsb _ _); [done|].
  destruct (fetch_filing_document _ _) as [raw_text parsed_data].
  destruct (String.eqb raw_text ""); [done|].
  destruct (alpha_engine.pre_classify _ _); [done|].
  cbv zeta. simpl snd. rewrite broadcast_ledger. simpl. apply broadcast_ledger.
Qed.

Lemma process_filing_ledger e st : seen_filings (snd (process e st)) = seen_filings st.
Proof.
  unfold _process_filing. case_bool_decide as Hguard; [done|].
  pose proof (process_body_ledger e
    (with_processing ({[accession_number e]} ∪ _currently_processing st) st)) as Hb.
  destruct (process_body _ _ _ _ _) as [outcome st']. simpl in *. done.
Qed.

Lemma fold_process_ledger new_entries : ∀ st,
  seen_filings (fold_left (λ s e, snd (process e s)) new_entries st) = seen_filings st.
Proof.
  induction new_entries as [|e es IH]; intros st; simpl; [done|].
  by rewrite IH, process_filing_ledger.
Qed.

Lemma dedup_new_not_in_ledger entries (ledger : gset string) e :
  e ∈ fst (_dedup entries ledger) → accession_number e ∉ ledger.
Proof.
  rewrite dedup_unfold. cbv zeta. simpl fst.
  rewrite list_elem_of_In, filter_In, negb_true_iff, bool_decide_eq_false. tauto.
Qed.


Lemma dedup_new_in_new_ledger entries (ledger : gset string) e :
  e ∈ fst (_dedup entries ledger) → accession_number e ∈ snd (_dedup entries ledger).
Proof.
  rewrite dedup_unfold. cbv zeta. simpl fst. simpl snd. intros H.
  apply elem_of_union_l, elem_of_list_to_set, list_elem_of_fmap. eauto.
Qed.

Lemma dedup_ledger_grows entries (ledger : gset string) :
  ledger ⊆ snd (_dedup entries ledger).
Proof. rewrite dedup_unfold. cbv zeta. simpl snd. apply union_subseteq_r. Qed.

Lemma poll_cycle_ledger feed st : seen_filings st ⊆ seen_filings (snd (cycle feed st)).
Proof.
  unfold poll_cycle.
  pose proof (dedup_ledger_grows (_poll_once (cik_ticker st) feed) (seen_filings st)) as H.
  destruct (_dedup _ _) as [new_entries ledger]. simpl in *.
  by rewrite fold_process_ledger.
Qed.

Lemma later_ledger st st' :
  later fetch_filing_document summarise_filing broadcast_fn st st' →
  seen_filings st ⊆ seen_filings st'.
Proof.
  induction 1 as [st|st st' e _ IH|st st' feed _ IH]; [done| |].
  - by rewrite process_filing_ledger.
  - etrans; [exact IH|apply poll_cycle_ledger].
Qed.

Lemma poll_cycle_new feed st e :
  e ∈ fst (cycle feed st) → accession_number e ∉ seen_filings st.
Proof.
  unfold poll_cycle.
  pose proof (dedup_new_not_in_ledger (_poll_once (cik_ticker st) feed) (seen_filings st) e) as H.
  destruct (_dedup _ _) as [new_entries ledger]. simpl in *. done.
Qed.

(** A failed fetch leaves the two tables and the broadcast log as they were. *)
Lemma process_filing_without_text e st :
  fst (fetch_filing_document (filing_url e) (form_type e)) = "" →
  fst (process e st) = inr tt
  ∧ filings (snd (process e st)) = filings st
  ∧ broadcasts (snd (process e st)) = broadcasts st.
Proof.
  intros Hfetch. unfold _process_filing. case_bool_decide as Hguard; [done|].
  unfold process_body. simpl filings at 1.
  destruct (existsb _ _); [done|].
  destruct (fetch_filing_document _ _) as [raw_text parsed_data]. simpl in Hfetch.
  subst raw_text. done.
Qed.

(** C10.  Take a filing that [_dedup] judged new in some turn of the
    loop, and any state whose ledger is the one that this [_dedup]
    left.  If the fetch yields no text (the document could not be
    resolved or downloaded, or its text is empty), [_process_filing]
    returns normally, with the filings table and the broadcast log
    unchanged; the accession number of the filing is in the ledger;
    and in every state that the loop reaches afterwards, whatever the
    feed returns, no turn hands a filing with that accession number to
    [_process_filing] again. *)
Theorem failed_fetch_is_never_retried (st st1 : state) (feed : result (list FeedEntry))
    (e : Filing) :
  let batch := _dedup (_poll_once (cik_ticker st) feed) (seen_filings st) in
  e ∈ fst batch →
  seen_filings st1 = snd batch →
  fst (fetch_filing_document (filing_url e) (form_type e)) = "" →
  let st2 := snd (process e st1) in
  fst (process e st1) = inr tt
  ∧ filings st2 = filings st1
  ∧ broadcasts st2 = broadcasts st1
  ∧ accession_number e ∈ seen_filings st2
  ∧ ∀ st3 feed',
      later fetch_filing_document summarise_filing broadcast_fn st2 st3 →
      accession_number e ∉ map accession_number (fst (cycle feed' st3)).
Proof.
  intros batch Hnew Hledger Hfetch st2.
  destruct (process_filing_without_text e st1 Hfetch) as (Hret & Hrows & Hsent).
  assert (Hin : accession_number e ∈ seen_filings st2).
  { subst st2. rewrite process_filing_ledger, Hledger. by apply dedup_new_in_new_ledger. }
  repeat split; try done.
  intros st3 feed' Hlater Hretry.
  apply list_elem_of_fmap in Hretry as (e' & Hacc & He').
  apply poll_cycle_new in He'. apply later_ledger in Hlater.
  rewrite <- Hacc in He'. set_solver.
Qed.

End OrchestratorProperties.

(** The property at a filing whose index page cannot be downloaded. *)
Lemma failed_fetch_is_never_retried_witness :
  let st1 := feed_poller.with_ledger {["0001193125-26-055710"]}
               orchestrator_examples.initial_state in
  let st2 := snd (feed_poller._process_filing orchestrator_examples.offline_fetch
                    orchestrator_examples.service_down true
                    orchestrator_examples.bofa_filing st1) in
  feed_poller.filings st2 = [] ∧ feed_poller.broadcasts st2 = []
  ∧ "0001193125-26-055710"
    ∉ map feed_poller.accession_number
        (fst (feed_poller.poll_cycle orchestrator_examples.offline_fetch
                orchestrator_examples.service_down true
                (inr [poller_examples.bofa_entry]) st2)).
Proof.
  intros st1 st2.
  destruct (failed_fetch_is_never_retried orchestrator_examples.offline_fetch
              orchestrator_examples.service_down true
              orchestrator_examples.initial_state st1
              (inr [poller_examples.bofa_entry]) orchestrator_examples.bofa_filing)
    as (_ & Hrows & Hsent & _ & Hnever).
  - vm_compute. left.
  - vm_compute. reflexivity.
  - vm_compute. reflexivity.
  - split; [exact Hrows|]. split; [exact Hsent|].
    apply Hnever. constructor.
Defined.

(* ================================================================== *)
(** * The orchestrator: what one task and one turn do to the tables *)
(* ================================================================== *)

Section PipelineProperties.
Import feed_poller dedup_spec poller_examples orchestrator_examples pipeline_spec pipeline_examples.

Variable fetch_filing_document : string → string → string * pydict.
Variable summarise_filing :
  string → string → string → option string → pydict → string → result pydict.
Variable broadcast_fn : bool.

Abbreviation process' := (_process_filing fetch_filing_document summarise_filing broadcast_fn).
Abbreviation cycle' := (poll_cycle fetch_filing_document summarise_filing broadcast_fn).

Lemma chars_text l : chars (text l) = l.
Proof. apply list_ascii_of_string_of_list_ascii. Qed.

Lemma length_slice_to n s : (String.length (slice_to n s) ≤ n)%nat.
Proof.
  unfold slice_to. rewrite <- length_chars, chars_text, length_firstn. apply Nat.le_min_l.
Qed.

Lemma existsb_accession acc rows :
  existsb (λ row, String.eqb (row_accession_number row) acc) rows = false →
  acc ∉ map row_accession_number rows.
Proof.
  intros Hex Hin. apply list_elem_of_fmap in Hin as (row & -> & Hrow).
  apply not_true_iff_false in Hex. apply Hex.
  apply existsb_exists. exists row. split; [by apply list_elem_of_In|apply String.eqb_refl].
Qed.

Lemma process_body_outcome e st :
  task_outcome broadcast_fn e st
    (snd (process_body fetch_filing_document summarise_filing broadcast_fn e st)).
Proof.
  unfold process_body, task_outcome.
  destruct (existsb _ _) eqn:Hex; [simpl; tauto|].
  destruct (fetch_filing_document _ _) as [raw_text parsed_data].
  destruct (String.eqb raw_text ""); [simpl; tauto|].
  destruct (alpha_engine.pre_classify _ _) as [err|h]; [simpl; tauto|].
  cbv zeta. simpl snd. apply existsb_accession in Hex.
  unfold events_of, broadcast.
  destruct broadcast_fn; simpl; (repeat split; try done); right;
    eexists; (refine (conj _ (conj Hex (conj _ (conj eq_refl _)))); simpl;
    rewrite <- ?app_assoc, ?app_nil_r; done).
Qed.

Lemma process_filing_outcome e st : task_outcome broadcast_fn e st (snd (process' e st)).
Proof.
  unfold _process_filing. case_bool_decide as Hguard.
  { unfold task_outcome. simpl. tauto. }
  pose proof (process_body_outcome e
    (with_processing ({[accession_number e]} ∪ _currently_processing st) st)) as Hb.
  destruct (process_body _ _ _ _ _) as [outcome st']. simpl in *.
  destruct Hb as (Hl & Hp & Hc & Hrows). unfold task_outcome. simpl.
  repeat split; [done| |done|done].
  rewrite Hp. set_solver.
Qed.

(** The rows and events that a list of tasks adds. *)
Lemma fold_process_outcome new_entries : ∀ st,
  let st' := fold_left (λ s e, snd (process' e s)) new_entries st in
  _currently_processing st' = _currently_processing st
  ∧ cik_ticker st' = cik_ticker st
  ∧ ∃ rows evs,
      filings st' = filings st ++ rows
      ∧ broadcasts st' = broadcasts st ++ evs
      ∧ (∀ row, row ∈ rows →
           row_accession_number row ∈ map accession_number new_entries)
      ∧ (NoDup (map row_accession_number (filings st)) →
         NoDup (map row_accession_number (filings st')))
      ∧ (∀ row, new_filing row ∈ evs → row ∈ rows).
Proof.
  induction new_entries as [|e es IH]; intros st; simpl.
  { repeat split. exists [], []. rewrite !app_nil_r.
    repeat split; try done; intros row H; inversion H. }
  destruct (IH (snd (process' e st))) as (Hp & Hc & rows & evs & Hr & Hb & Hacc & Hnd & Hev).
  destruct (process_filing_outcome e st) as (_ & Hp1 & Hc1 & Hcase).
  split; [congruence|]. split; [congruence|].
  destruct Hcase as [[Hr1 Hb1]|(row & Hrow & Hfresh & _ & Hr1 & Hb1)].
  - exists rows, evs. rewrite Hr, Hb, Hr1, Hb1.
    repeat split; try done.
    + intros row Hrow. right. by apply Hacc.
    + intros H. rewrite Hr, Hr1 in Hnd. by apply Hnd.
  - exists (row :: rows), (events_of broadcast_fn e row ++ evs). rewrite Hr, Hb, Hr1, Hb1.
    rewrite <- !app_assoc. simpl.
    repeat split; try done.
    + intros row' [->|Hrow']%elem_of_cons; [rewrite Hrow; left|right; by apply Hacc].
    + intros H. rewrite Hr, Hr1, <- app_assoc in Hnd. simpl in Hnd. apply Hnd.
      rewrite map_app. simpl. apply NoDup_app. split; [done|]. split.
      * intros a Ha [->|Hnil]%elem_of_cons; [|inversion Hnil].
        rewrite Hrow in Ha. contradiction.
      * apply NoDup_singleton.
    + intros row' [Hin|Hin]%elem_of_app.
      * unfold events_of in Hin. destruct broadcast_fn; [|inversion Hin].
        apply elem_of_cons in Hin as [Heq|Hin]; [discriminate|].
        apply elem_of_cons in Hin as [[= ->]|Hin]; [left|inversion Hin].
      * right. by apply Hev.
Qed.

(** X1.  The in-flight guard is released on every path: when a task
    ends, whether it returned early, persisted a row or raised, and
    when a whole turn of the loop ends, the set of accession numbers
    in flight is what it was before. *)
Theorem in_flight_guard_released (e : Filing) (feed : result (list FeedEntry)) (st : state) :
  _currently_processing (snd (process' e st)) = _currently_processing st
  ∧ _currently_processing (snd (cycle' feed st)) = _currently_processing st.
Proof.
  split; [apply process_filing_outcome|].
  unfold poll_cycle. destruct (_dedup _ _) as [new_entries ledger]. simpl.
  by destruct (fold_process_outcome new_entries (with_ledger ledger st)) as (-> & _).
Qed.

(** X2.  The filings table and the broadcast log are append-only: a
    turn of the loop keeps every row and every event in place and
    adds rows only for filings that [_dedup] judged new in this turn;
    a new_filing event is broadcast only for a row persisted in the
    same turn. *)
Theorem turn_is_append_only (feed : result (list FeedEntry)) (st : state) :
  let st' := snd (cycle' feed st) in
  ∃ rows evs,
    filings st' = filings st ++ rows
    ∧ broadcasts st' = broadcasts st ++ evs
    ∧ (∀ row, row ∈ rows →
         row_accession_number row ∈ map accession_number (fst (cycle' feed st))
         ∧ row_accession_number row ∉ seen_filings st)
    ∧ (∀ row, new_filing row ∈ evs → row ∈ rows).
Proof.
  unfold poll_cycle.
  pose proof (dedup_new_not_in_ledger (_poll_once (cik_ticker st) feed) (seen_filings st))
    as Hnew.
  destruct (_dedup _ _) as [new_entries ledger]. simpl in *.
  destruct (fold_process_outcome new_entries (with_ledger ledger st))
    as (_ & _ & rows & evs & Hr & Hb & Hacc & _ & Hev).
  exists rows, evs. repeat split; try done.
  - by apply Hacc.
  - specialize (Hacc row H). apply list_elem_of_fmap in Hacc as (e & -> & He).
    by apply Hnew.
Qed.

(** X3.  No accession number is persisted twice: if the rows of the
    filings table carry distinct accession numbers, they still do in
    every state that the loop reaches, by tasks and by turns, whatever
    the feed, the fetcher and the model return. *)
Theorem rows_stay_unique (st st' : state) :
  later fetch_filing_document summarise_filing broadcast_fn st st' →
  NoDup (map row_accession_number (filings st)) →
  NoDup (map row_accession_number (filings st')).
Proof.
  induction 1 as [st|st st' e _ IH|st st' feed _ IH]; intros Hnd; [done| |].
  - destruct (fold_process_outcome [e] st') as (_ & _ & _ & _ & _ & _ & _ & H & _).
    apply H, IH, Hnd.
  - unfold poll_cycle. destruct (_dedup _ _) as [new_entries ledger]. simpl.
    destruct (fold_process_outcome new_entries (with_ledger ledger st'))
      as (_ & _ & _ & _ & _ & _ & _ & H & _).
    apply H, IH, Hnd.
Qed.

(** X4.  Every persisted filing is on the ledger: if each row of the
    filings table has its accession number in the ledger, the same
    holds after a turn of the loop. *)
Theorem rows_are_on_the_ledger (feed : result (list FeedEntry)) (st : state) :
  (∀ row, row ∈ filings st → row_accession_number row ∈ seen_filings st) →
  ∀ row, row ∈ filings (snd (cycle' feed st)) →
         row_accession_number row ∈ seen_filings (snd (cycle' feed st)).
Proof.
  intros Hinv row. unfold poll_cycle.
  pose proof (dedup_new_in_new_ledger (_poll_once (cik_ticker st) feed) (seen_filings st))
    as Hnew.
  pose proof (dedup_ledger_grows (_poll_once (cik_ticker st) feed) (seen_filings st))
    as Hgrow.
  destruct (_dedup _ _) as [new_entries ledger]. simpl in *.
  rewrite fold_process_ledger. simpl.
  destruct (fold_process_outcome new_entries (with_ledger ledger st))
    as (_ & _ & rows & evs & Hr & _ & Hacc & _).
  rewrite Hr. simpl. intros [Hold|Hrow]%elem_of_app.
  - apply Hgrow, Hinv, Hold.
  - specialize (Hacc row Hrow). apply list_elem_of_fmap in Hacc as (e & -> & He).
    by apply Hnew.
Qed.

(** X5.  A turn without news is a no-op: when the feed cannot be
    fetched, or every entry it lists is already on the ledger, the
    turn hands nothing to [_process_filing] and leaves the whole state
    as it was. *)
Theorem turn_without_news (feed : result (list FeedEntry)) (st : state) :
  (∀ e, e ∈ _poll_once (cik_ticker st) feed → accession_number e ∈ seen_filings st) →
  cycle' feed st = ([], st).
Proof.
  intros Hseen. unfold poll_cycle. rewrite dedup_unfold. cbv zeta.
  assert (List.filter (λ e, negb (bool_decide (accession_number e ∈ seen_filings st)))
            (first_seen ∅ (_poll_once (cik_ticker st) feed)) = []) as ->.
  { assert (∀ x, x ∈ first_seen ∅ (_poll_once (cik_ticker st) feed) →
                 accession_number x ∈ seen_filings st) as Hall.
    { intros x Hx. apply Hseen. apply first_seen_spec in Hx as [_ Hf].
      apply find_some in Hf as [Hf _]. by apply list_elem_of_In. }
    revert Hall. generalize (first_seen ∅ (_poll_once (cik_ticker st) feed)).
    intros l Hall. induction l as [|x l IH]; [done|]. simpl.
    rewrite bool_decide_eq_true_2 by (apply Hall; left). simpl.
    apply IH. intros y Hy. apply Hall. by right. }
  simpl. f_equal. destruct st. unfold with_ledger. simpl. f_equal. set_solver.
Qed.

(** X6.  The heuristic fallback, end to end.  For a filing that is
    neither in flight nor persisted, whose fetch yields text and whose
    fields the heuristic classifier accepts, a failure of the model
    does not lose the filing: the task returns normally and persists
    exactly one row, which holds the parsed fields, the text cut at
    the configured 20000 characters, the heuristic score as signal,
    the heuristic summary and the one fixed reason.  The
    filing_processing event is broadcast first, the new_filing event
    with the same row last. *)
Theorem heuristic_fallback_is_persisted (e : Filing) (st : state)
    (raw_text : string) (parsed_data : pydict) (h : pyval) (err : exn) :
  accession_number e ∉ _currently_processing st →
  accession_number e ∉ map row_accession_number (filings st) →
  fetch_filing_document (filing_url e) (form_type e) = (raw_text, parsed_data) →
  raw_text ≠ "" →
  alpha_engine.pre_classify (segment e) parsed_data = inr h →
  summarise_filing (form_type e) (segment e) (company_name e) (Some (ticker e))
    parsed_data raw_text = inl err →
  ∃ row,
    process' e st
    = (inr tt,
       {| seen_filings := seen_filings st;
          filings := filings st ++ [row];
          _currently_processing := _currently_processing st;
          broadcasts := broadcasts st ++ events_of broadcast_fn e row;
          cik_ticker := cik_ticker st |})
    ∧ row_accession_number row = accession_number e
    ∧ row_metadata row = parsed_data
    ∧ row_raw_extract row = slice_to filing_text_max_chars raw_text
    ∧ (String.length (row_raw_extract row) ≤ filing_text_max_chars)%nat
    ∧ row_signal row = h
    ∧ row_summary row = PyStr (heuristic_summary e raw_text)
    ∧ row_signal_reasons row
      = PyList [PyStr "Heuristic classification (SLM unavailable)"].
Proof.
  intros Hflight Hfresh Hfetch Htext Hscore Hdown.
  unfold _process_filing. rewrite bool_decide_eq_false_2 by done.
  unfold process_body. simpl filings.
  assert (existsb (λ row, String.eqb (row_accession_number row) (accession_number e))
            (filings st) = false) as ->.
  { apply not_true_iff_false. intros Hex. apply existsb_exists in Hex as (row & Hrow & Heq).
    apply String.eqb_eq in Heq. apply Hfresh, list_elem_of_fmap.
    exists row. split; [done|by apply list_elem_of_In]. }
  rewrite Hfetch. apply String.eqb_neq in Htext. rewrite Htext, Hscore, Hdown.
  cbv zeta.
  assert (({[accession_number e]} ∪ _currently_processing st) ∖ {[accession_number e]}
          = _currently_processing st) as Hcp by set_solver.
  unfold events_of, broadcast, with_processing, insert_row.
  destruct broadcast_fn; simpl; rewrite Hcp, <- ?app_assoc, ?app_nil_r; simpl;
    (eexists; split; [reflexivity|]; simpl;
     do 3 (split; [done|]); split; [apply length_slice_to|]; done).
Qed.

End PipelineProperties.

(** The uniqueness of rows after a turn from the empty tables. *)
Lemma rows_stay_unique_witness :
  NoDup (map feed_poller.row_accession_number
           (feed_poller.filings
              (snd (feed_poller.poll_cycle pipeline_examples.online_fetch
                      orchestrator_examples.service_down true
                      (inr [poller_examples.bofa_entry; poller_examples.bofa_entry])
                      orchestrator_examples.initial_state)))).
Proof.
  apply (rows_stay_unique pipeline_examples.online_fetch
           orchestrator_examples.service_down true
           orchestrator_examples.initial_state).
  - apply feed_poller.later_cycle, feed_poller.later_now.
  - simpl. constructor.
Defined.

(** The invariant after a turn from the empty tables. *)
Lemma rows_are_on_the_ledger_witness :
  let st := snd (feed_poller.poll_cycle pipeline_examples.online_fetch
                   orchestrator_examples.service_down true
                   (inr [poller_examples.bofa_entry])
                   orchestrator_examples.initial_state) in
  Forall (λ row, feed_poller.row_accession_number row ∈ feed_poller.seen_filings st)
         (feed_poller.filings st).
Proof.
  apply Forall_forall.
  apply (rows_are_on_the_ledger pipeline_examples.online_fetch
           orchestrator_examples.service_down true).
  simpl. intros row Hrow. inversion Hrow.
Defined.

(** A second turn over the entry of the first one. *)
Lemma turn_without_news_witness :
  let st := feed_poller.with_ledger {["0001193125-26-055710"]}
              orchestrator_examples.initial_state in
  feed_poller.poll_cycle pipeline_examples.online_fetch
    orchestrator_examples.service_down true (inr [poller_examples.bofa_entry]) st
  = ([], st).
Proof.
  intros st.
  apply (turn_without_news pipeline_examples.online_fetch
           orchestrator_examples.service_down true).
  intros e He. vm_compute in He.
  apply elem_of_cons in He as [->|He]; [|inversion He].
  subst st. simpl. apply elem_of_singleton. reflexivity.
Defined.

(** The example filing with the model down: one row with the
    heuristic score of a material agreement. *)
Lemma heuristic_fallback_is_persisted_witness :
  ∃ row,
    feed_poller.filings
      (snd (feed_poller._process_filing pipeline_examples.online_fetch
              orchestrator_examples.service_down true
              orchestrator_examples.bofa_filing orchestrator_examples.initial_state))
    = [row]
    ∧ feed_poller.row_signal row = PyInt 70.
Proof.
  destruct (heuristic_fallback_is_persisted pipeline_examples.online_fetch
              orchestrator_examples.service_down true
              orchestrator_examples.bofa_filing orchestrator_examples.initial_state
              (filing_fetcher.strip_markup parser_examples.material_agreement_8k)
              (form_8k.fields_8k
                 (squeeze (filing_fetcher.strip_markup parser_examples.material_agreement_8k)))
              (PyInt 70) HTTPError)
    as (row & Hrun & _ & _ & _ & _ & Hsignal & _).
  - simpl. apply not_elem_of_empty.
  - simpl. apply not_elem_of_nil.
  - vm_compute. reflexivity.
  - vm_compute. discriminate.
  - vm_compute. reflexivity.
  - reflexivity.
  - exists row. rewrite Hrun. split; [reflexivity|exact Hsignal].
Defined.

(* ================================================================== *)
(** * The heuristic classifier on the fields of the parsers *)
(* ================================================================== *)

Section ScoreOfParsedFields.
Import alpha_engine typed_fields routing_spec.

Lemma meets_strings items codes :
  Py.meets (map PyStr items) codes = form_8k.intersects items codes.
Proof.
  unfold Py.meets, form_8k.intersects.
  induction items as [|c items IH]; simpl; [done|]. by rewrite IH.
Qed.

Lemma hashable_strings items : forallb Py.hashable (map PyStr items) = true.
Proof. induction items as [|c items IH]; simpl; [done|exact IH]. Qed.

(** X7.  On the fields that the 8-K parser extracts from any text,
    the catalyst score is -70 when a bearish item code occurs in the
    text, also when bullish ones occur with it; +70 when a bullish
    code occurs and no bearish one; 0 otherwise.  The two flags of
    the parser say which case applies. *)
Theorem catalyst_score_of_8k (txt : string) :
  let parsed_data := form_8k.fields_8k txt in
  let codes := Re.findall1 Re.ignorecase form_8k._ITEM_RE txt in
  ∃ bullish bearish : bool,
    dict_get parsed_data "has_bullish_items" = Some (PyBool bullish)
    ∧ dict_get parsed_data "has_bearish_items" = Some (PyBool bearish)
    ∧ (bullish = true ↔ ∃ c, c ∈ codes ∧ c ∈ form_8k.BULLISH_ITEMS)
    ∧ (bearish = true ↔ ∃ c, c ∈ codes ∧ c ∈ form_8k.BEARISH_ITEMS)
    ∧ pre_classify "catalyst" parsed_data
      = inr (PyInt (if bearish then -70 else if bullish then 70 else 0)).
Proof.
  intros parsed_data codes.
  exists (form_8k.intersects (sorted_set codes) form_8k.BULLISH_ITEMS),
         (form_8k.intersects (sorted_set codes) form_8k.BEARISH_ITEMS).
  split; [reflexivity|]. split; [reflexivity|].
  split; [|split].
  - rewrite intersects_spec. by setoid_rewrite sorted_set_elem.
  - rewrite intersects_spec. by setoid_rewrite sorted_set_elem.
  - unfold pre_classify, parsed_data, form_8k.fields_8k. fold codes.
    simpl String.eqb. cbv iota. unfold dict_get_default. simpl dict_get.
    unfold Py.set_of. simpl bind. rewrite hashable_strings. simpl bind.
    rewrite !meets_strings.
    destruct (form_8k.intersects _ form_8k.BEARISH_ITEMS); [done|].
    by destruct (form_8k.intersects _ form_8k.BULLISH_ITEMS).
Qed.

Lemma float_max_In l : ∀ cur, In (form_13d_13g.float_max cur l) (cur :: l).
Proof.
  induction l as [|f l IH]; intros cur; simpl; [auto|].
  destruct (IH (if PrimFloat.ltb cur f then f else cur)) as [H|H]; [|auto].
  destruct (PrimFloat.ltb cur f); rewrite <- H; auto.
Qed.

Lemma percentages_range matches f :
  In f (form_13d_13g.percentages matches) →
  Py.int_lt_float 0 f = true ∧ Py.float_le_int f 100 = true.
Proof.
  unfold form_13d_13g.percentages.
  rewrite <- list_elem_of_In, list_elem_of_omap. intros (p & _ & Hp).
  destruct (Py.float_of_decimal p) as [err|g]; [done|].
  destruct (Py.int_lt_float 0 g && Py.float_le_int g 100) eqn:E; [|done].
  injection Hp as <-. by apply andb_true_iff.
Qed.

(** X8.  The ownership that the 13D/13G parser reports is None,
    when no percentage of the first 5000 characters lies in the
    interval from 0 (excluded) to 100 (included), or one of the
    percentages found there that lie in this interval: never a value
    outside it. *)
Theorem ownership_pct_in_range (txt : string) :
  let found :=
    form_13d_13g.percentages
      (Re.findall1 Re.ignorecase form_13d_13g._PERCENT_RE (slice_to 5000 txt)) in
  let ownership := dict_get (form_13d_13g.fields_13d_13g txt) "ownership_pct" in
  (found = [] ∧ ownership = Some PyNone)
  ∨ ∃ f, ownership = Some (PyFloat f) ∧ In f found
         ∧ Py.int_lt_float 0 f = true ∧ Py.float_le_int f 100 = true.
Proof.
  intros found ownership. subst ownership.
  unfold form_13d_13g.fields_13d_13g. simpl dict_get. fold found.
  destruct found as [|f fs] eqn:Hfound; [by left|].
  right. exists (form_13d_13g.float_max f fs).
  pose proof (float_max_In fs f) as Hin.
  split; [done|]. split; [done|].
  apply (percentages_range
           (Re.findall1 Re.ignorecase form_13d_13g._PERCENT_RE (slice_to 5000 txt))).
  fold found. by rewrite Hfound.
Qed.

(** X9.  On the fields that the 13D/13G parser extracts from any
    text, the whale score depends on the text alone: with a Schedule
    13D heading in the first 2000 characters it is +60 when the text
    has passive language and no activism language, and +80 in every
    other case; without the heading the filing counts as a 13G, and
    the score is +40 when the reported ownership exceeds 5 and 0
    otherwise. *)
Theorem whale_score_of_13d_13g (txt : string) :
  let parsed_data := form_13d_13g.fields_13d_13g txt in
  let is_13d :=
    form_13d_13g.is_some
      (Re.re_search Re.ignorecase form_13d_13g.schedule_13d_re (slice_to 2000 txt)) in
  let has_activism :=
    form_13d_13g.is_some (Re.re_search Re.ignorecase form_13d_13g._ACTIVISM_KEYWORDS txt) in
  let has_passive :=
    form_13d_13g.is_some (Re.re_search Re.ignorecase form_13d_13g._PASSIVE_KEYWORDS txt) in
  pre_classify "whale" parsed_data
  = inr (PyInt (if is_13d
                then (if has_passive && negb has_activism then 60 else 80)
                else if exceeds_5 (dict_get_default parsed_data "ownership_pct" PyNone)
                     then 40 else 0)).
Proof.
  intros parsed_data is_13d has_activism has_passive.
  rewrite (whale_rule parsed_data (if is_13d then "13D" else "13G")
             (form_13d_13g.strategy_label is_13d has_activism has_passive)
             (dict_get_default parsed_data "ownership_pct" PyNone)
             eq_refl eq_refl eq_refl).
  - generalize (exceeds_5 (dict_get_default parsed_data "ownership_pct" PyNone)).
    intros large. do 2 f_equal.
    by destruct is_13d, has_activism, has_passive.
  - unfold parsed_data, form_13d_13g.fields_13d_13g, dict_get_default. simpl dict_get.
    by destruct (form_13d_13g.percentages _).
Qed.

Lemma mentions_length kws txt :
  (List.length (form_10q.mentions kws txt) ≤ List.length kws)%nat.
Proof.
  unfold form_10q.mentions.
  induction kws as [|kw kws IH]; [done|].
  change (omap ?f (kw :: kws)) with
    (match f kw with Some y => y :: omap f kws | None => omap f kws end).
  simpl. destruct (Nat.ltb 0 _); simpl; lia.
Qed.

(** The classifier on typed fields. *)
Lemma pre_classify_typed (segment : string) (parsed_data : pydict) :
  parser_typed parsed_data = true →
  ∃ n, pre_classify segment parsed_data = inr (PyInt n) ∧ -100 ≤ n ≤ 100.
Proof.
  unfold parser_typed. rewrite !andb_true_iff.
  intros [[[[Hitems Hsub] Hstr] Hown] Hscore].
  unfold pre_classify.
  destruct (String.eqb segment "catalyst").
  { pose proof (field_ok_get _ _ _ Hitems (PyList []) eq_refl) as Hi.
    destruct (dict_get_default parsed_data "items" (PyList [])) as [| | | | |l|]; try discriminate.
    simpl in Hi. rewrite (set_of_str_list _ Hi). simpl.
    destruct (Py.meets l form_8k.BEARISH_ITEMS); [eexists; split; [done|lia]|].
    destruct (Py.meets l form_8k.BULLISH_ITEMS); eexists; (split; [done|lia]). }
  destruct (String.eqb segment "whale").
  { pose proof (field_ok_get _ _ _ Hsub (PyStr "") eq_refl) as H1.
    pose proof (field_ok_get _ _ _ Hstr (PyStr "") eq_refl) as H2.
    pose proof (field_ok_get _ _ _ Hown PyNone eq_refl) as H3.
    destruct (dict_get_default parsed_data "form_subtype" (PyStr "")) as [| | | |sub| |] eqn:E1;
      try discriminate.
    destruct (dict_get_default parsed_data "strategy" (PyStr "")) as [| | | |str| |] eqn:E2;
      try discriminate.
    pose proof (whale_rule parsed_data sub str _ E1 E2 eq_refl H3) as Hw.
    unfold pre_classify in Hw. simpl String.eqb in Hw. cbv iota in Hw.
    rewrite E1, E2 in Hw. rewrite Hw.
    eexists. split; [done|].
    destruct (String.eqb sub "13D"); [destruct (contains _ _); lia|].
    destruct (exceeds_5 _); lia. }
  destruct (String.eqb segment "pulse").
  { pose proof (field_ok_get _ _ _ Hscore (PyInt 0) eq_refl) as Hs.
    destruct (dict_get_default parsed_data "sentiment_score" (PyInt 0)) as [| |z| | | |];
      try discriminate.
    simpl. unfold Py.min_int, Py.max_int. simpl.
    destruct (z * 20 <? 100) eqn:E1; simpl.
    - destruct (-100 <? z * 20) eqn:E2; simpl; eexists; (split; [done|lia]).
    - eexists. split; [done|lia]. }
  exists 0. split; [done|lia].
Qed.

Lemma pulse_rule (parsed_data : pydict) (s : Z) :
  dict_get_default parsed_data "sentiment_score" (PyInt 0) = PyInt s →
  pre_classify "pulse" parsed_data = inr (PyInt (clamp (20 * s))).
Proof.
  intros Hs. unfold pre_classify. simpl String.eqb. cbv iota. rewrite Hs.
  unfold clamp. simpl. unfold Py.min_int, Py.max_int. simpl.
  destruct (s * 20 <? 100) eqn:E1; simpl.
  - destruct (-100 <? s * 20) eqn:E2; simpl; do 2 f_equal; lia.
  - do 2 f_equal. lia.
Qed.

(** X10.  On the fields that the 10-Q parser extracts from any text,
    the sentiment is the number of positive keywords that occur minus
    the number of risk keywords that occur, of nine and fifteen
    keywords, and the pulse score is twenty times the sentiment cut
    to the range from -100 to 100: it saturates from five keywords of
    difference on.  On the fields of the generic fallback, which
    carry no sentiment, the pulse score is 0. *)
Theorem pulse_score_of_10q (ix_tags : list (option string * string)) (txt form_type : string) :
  let parsed_data := form_10q.fields_10q ix_tags txt in
  (∃ (positive risk : list (string * nat)) (s : Z),
     dict_get parsed_data "positive_mentions" = Some (form_10q.count_dict positive)
     ∧ dict_get parsed_data "risk_mentions" = Some (form_10q.count_dict risk)
     ∧ s = Z.of_nat (List.length positive) - Z.of_nat (List.length risk)
     ∧ dict_get parsed_data "sentiment_score" = Some (PyInt s)
     ∧ (List.length positive ≤ 9)%nat ∧ (List.length risk ≤ 15)%nat
     ∧ pre_classify "pulse" parsed_data = inr (PyInt (clamp (20 * s)))
     ∧ (5 ≤ s → clamp (20 * s) = 100)
     ∧ (s ≤ -5 → clamp (20 * s) = -100))
  ∧ pre_classify "pulse" [("form_type", PyStr form_type)] = inr (PyInt 0).
Proof.
  intros parsed_data. split; [|reflexivity].
  unfold parsed_data, form_10q.fields_10q.
  set (mda_text := match Re.re_search _ _ _ with Some _ => _ | None => _ end).
  pose proof (mentions_length form_10q.RISK_KEYWORDS mda_text) as Hrisk.
  pose proof (mentions_length form_10q.POSITIVE_KEYWORDS mda_text) as Hpos.
  change (List.length form_10q.RISK_KEYWORDS) with 15%nat in Hrisk.
  change (List.length form_10q.POSITIVE_KEYWORDS) with 9%nat in Hpos.
  revert Hrisk Hpos.
  generalize (form_10q.mentions form_10q.RISK_KEYWORDS mda_text).
  generalize (form_10q.mentions form_10q.POSITIVE_KEYWORDS mda_text).
  intros pos risk Hrisk Hpos.
  exists pos, risk, (Z.of_nat (List.length pos) - Z.of_nat (List.length risk)).
  split; [reflexivity|]. split; [reflexivity|]. split; [reflexivity|].
  split; [reflexivity|]. split; [exact Hpos|]. split; [exact Hrisk|].
  split; [by apply pulse_rule|]. unfold clamp. lia.
Qed.

End ScoreOfParsedFields.

(* ================================================================== *)
(** * From the feed to the classifier *)
(* ================================================================== *)

Section FeedToClassifier.
Import feed_poller filing_fetcher alpha_engine typed_fields routing_spec.

Lemma table_get_In t k v : table_get t k = Some v → In (k, v) t.
Proof.
  induction t as [|[k' v'] t IH]; simpl; [done|].
  destruct (String.eqb_spec k' k) as [->|Hne]; [intros [= ->]; by left|].
  intros H. right. by apply IH.
Qed.

Lemma find_sub_slash l : find_sub (chars "/") l = negb (no_slash l).
Proof.
  induction l as [|c l IH]; [done|].
  change (find_sub (chars "/") (c :: l))
    with (Ascii.eqb "/" c && true || find_sub (chars "/") l).
  change (no_slash (c :: l)) with (negb (Ascii.eqb "/" c) && no_slash l).
  rewrite IH, andb_true_r. by destruct (Ascii.eqb "/" c).
Qed.

Lemma no_slash_app l1 l2 : no_slash (l1 ++ l2) = no_slash l1 && no_slash l2.
Proof. apply forallb_app. Qed.

Lemma no_slash_rev l : no_slash (rev l) = no_slash l.
Proof.
  induction l as [|c l IH]; [done|].
  change (rev (c :: l)) with (rev l ++ [c]).
  change (no_slash (c :: l)) with (negb (Ascii.eqb "/" c) && no_slash l).
  rewrite no_slash_app, IH.
  change (no_slash [c]) with (negb (Ascii.eqb "/" c) && true).
  rewrite andb_true_r. apply andb_comm.
Qed.

Lemma split_chars_head_no_slash l : ∀ cur fuel,
  no_slash cur = true → (List.length l < fuel)%nat →
  no_slash (hd [] (split_chars (chars "/") cur l fuel)) = true.
Proof.
  induction l as [|c l IH]; intros cur [|fuel] Hcur Hlen; simpl in Hlen; try lia.
  - simpl. by rewrite no_slash_rev.
  - change (split_chars (chars "/") cur (c :: l) (S fuel))
      with (if Ascii.eqb "/" c && true
            then rev cur :: split_chars (chars "/") [] l fuel
            else split_chars (chars "/") (c :: cur) l fuel).
    rewrite andb_true_r. destruct (Ascii.eqb "/" c) eqn:Hc.
    + simpl. by rewrite no_slash_rev.
    + apply IH; [|lia].
      change (no_slash (c :: cur)) with (negb (Ascii.eqb "/" c) && no_slash cur).
      by rewrite Hc.
Qed.

Lemma split_head_no_slash s : contains "/" (split_head "/" s) = false.
Proof.
  unfold contains, split_head, split. rewrite find_sub_slash.
  pose proof (split_chars_head_no_slash (chars s) [] (S (String.length s)) eq_refl) as H.
  rewrite length_chars in H. specialize (H ltac:(lia)).
  destruct (split_chars _ _ _ _) as [|p ps]; [done|].
  simpl in *. by rewrite chars_text, H.
Qed.

(** The segment of a form type and the parser it is routed to. *)
Lemma segment_route form_type segment :
  match table_get FORM_TO_SEGMENT form_type with
  | Some sg => Some sg
  | None => table_get FORM_TO_SEGMENT (split_head "/" form_type)
  end = Some segment →
  serves segment (route (base_form_of form_type)) = true.
Proof.
  destruct (table_get FORM_TO_SEGMENT form_type) as [sg|] eqn:Hdirect.
  - intros [= ->]. apply table_get_In in Hdirect.
    unfold FORM_TO_SEGMENT in Hdirect. simpl in Hdirect.
    repeat (destruct Hdirect as [[= <- <-]|Hdirect]; [by vm_compute|]).
    done.
  - intros Hbase. pose proof (split_head_no_slash form_type) as Hno.
    unfold base_form_of. revert Hbase Hno.
    generalize (split_head "/" form_type). intros base Hbase Hno.
    apply table_get_In in Hbase.
    unfold FORM_TO_SEGMENT in Hbase. simpl in Hbase.
    repeat (destruct Hbase as [[= <- <-]|Hbase];
            [first [by vm_compute | by vm_compute in Hno]|]).
    done.
Qed.

(** The route of a filing of the feed. *)
Lemma parse_entry_route (entry : FeedEntry) (table : option (gmap string string))
    (filing : Filing) :
  _parse_entry entry table = Some filing →
  serves (segment filing) (route (base_form_of (form_type filing))) = true.
Proof.
  unfold _parse_entry.
  destruct (Re.re_match _ _ _) as [m|]; [|done].
  cbv zeta.
  set (ft := match match entry_tags entry with [] => None | tag :: _ => _ end with
             | Some ft => _ | None => _ end).
  destruct (match table_get FORM_TO_SEGMENT ft with
            | Some sg => Some sg
            | None => table_get FORM_TO_SEGMENT (split_head "/" ft)
            end) as [sg|] eqn:Hsg; [|done].
  intros [= <-]. simpl. by apply segment_route.
Qed.

(** X11.  Every filing that [_parse_entry] builds, with or without a
    ticker table, has one of the three segments catalyst, whale and
    pulse, and the fetcher routes its form type to a parser of that
    segment: the 8-K parser for catalyst, the 13D/13G parser for
    whale, the 10-Q parser or the generic fallback for pulse; never
    to the Form 4 or the prospectus parser. *)
Theorem feed_segment_matches_parser (entry : FeedEntry)
    (table : option (gmap string string)) (filing : Filing) :
  _parse_entry entry table = Some filing →
  (segment filing = "catalyst" ∨ segment filing = "whale" ∨ segment filing = "pulse")
  ∧ serves (segment filing) (route (base_form_of (form_type filing))) = true.
Proof.
  intros Hroute%parse_entry_route. split; [|done].
  destruct (route (base_form_of (form_type filing))); simpl in Hroute;
    try discriminate; apply String.eqb_eq in Hroute; auto.
Qed.

Variable _download_text : string → result string.
Variable urljoin : string → string → string.
Variable soup_text_html : string → string.
Variable soup_text_lxml : string → string.
Variable soup_ix_tags : string → list (option string * string).
Variable parse_form4 : string → string * pydict.
Variable parse_s1_s3 : string → string * pydict.
Variable summarise_filing :
  string → string → string → option string → pydict → string → result pydict.
Variable broadcast_fn : bool.

Abbreviation fetch :=
  (fetch_filing_document _download_text urljoin soup_text_html soup_text_lxml
     soup_ix_tags parse_form4 parse_s1_s3).

(** The heuristic score of what the fetcher hands over. *)
Lemma fetched_fields_score form_type segment index_url :
  serves segment (route (base_form_of form_type)) = true →
  ∃ n, pre_classify segment (snd (fetch index_url form_type)) = inr (PyInt n)
       ∧ -100 ≤ n ≤ 100.
Proof.
  intros Hroute.
  assert (∃ n, pre_classify segment [] = inr (PyInt n) ∧ -100 ≤ n ≤ 100) as Hempty.
  { destruct (pre_classify_typed segment []) as (n & Hn & Hr); eauto. }
  unfold fetch_filing_document.
  destruct (_get_doc_url_from_index _ _ _) as [doc_url|]; [|exact Hempty].
  destruct (String.eqb doc_url ""); [exact Hempty|].
  destruct (_download_text doc_url) as [err|raw]; [exact Hempty|].
  apply pre_classify_typed.
  destruct (route (base_form_of form_type)); simpl in Hroute; try discriminate; simpl.
  - apply fields_8k_typed.
  - apply fields_13d_13g_typed.
  - apply fields_10q_typed.
  - apply generic_fields_typed.
Qed.

(** X12.  The heuristic classifier never raises on a filing of the
    feed: for every filing built by [_parse_entry], whatever the
    network and the HTML library return, the classifier accepts the
    fields that the fetcher hands over for the form type of the
    filing, the empty fields of a failed fetch included, and returns
    an integer between -100 and 100; so the one exception that the
    task can take from the classifier does not occur. *)
Theorem feed_filings_are_classified (entry : FeedEntry)
    (table : option (gmap string string)) (filing : Filing) (st : state) :
  _parse_entry entry table = Some filing →
  (∃ n, pre_classify (segment filing)
          (snd (fetch (filing_url filing) (feed_poller.form_type filing)))
        = inr (PyInt n) ∧ -100 ≤ n ≤ 100)
  ∧ fst (_process_filing fetch summarise_filing broadcast_fn filing st) = inr tt.
Proof.
  intros Hroute%parse_entry_route.
  pose proof (fetched_fields_score _ _ (filing_url filing) Hroute) as (n & Hn & Hrange).
  split; [eauto|].
  unfold _process_filing. case_bool_decide as Hguard; [done|].
  unfold process_body. simpl filings.
  destruct (existsb _ _); [done|].
  destruct (fetch _ _) as [raw_text parsed_data]. simpl in Hn.
  destruct (String.eqb raw_text ""); [done|].
  rewrite Hn. done.
Qed.

End FeedToClassifier.

(** The segment and the route of the example entry. *)
Lemma feed_segment_matches_parser_witness :
  feed_poller.segment orchestrator_examples.bofa_filing = "catalyst"
  ∧ filing_fetcher.route
      (filing_fetcher.base_form_of
         (feed_poller.form_type orchestrator_examples.bofa_filing))
    = filing_fetcher.Parse8K.
Proof.
  destruct (feed_segment_matches_parser poller_examples.bofa_entry None
              orchestrator_examples.bofa_filing) as [_ Hroute].
  - vm_compute. reflexivity.
  - split; [reflexivity|].
    destruct (filing_fetcher.route _); simpl in Hroute; try discriminate. reflexivity.
Defined.

(** The example entry on the network of the examples. *)
Lemma feed_filings_are_classified_witness :
  fst (feed_poller._process_filing pipeline_examples.online_fetch
         orchestrator_examples.service_down true
         orchestrator_examples.bofa_filing orchestrator_examples.initial_state)
  = inr tt.
Proof.
  apply (feed_filings_are_classified pipeline_examples.bofa_network
           fetcher_examples.urljoin_unused
           filing_fetcher.strip_markup filing_fetcher.strip_markup
           fetcher_examples.no_ix_tags fetcher_examples.no_parser fetcher_examples.no_parser
           orchestrator_examples.service_down true
           poller_examples.bofa_entry None).
  vm_compute. reflexivity.
Defined.

(* ================================================================== *)
(** * The adapter of the generative classifier *)
(* ================================================================== *)

Section AdapterContract.
Import ai_processor adapter_spec adapter_examples.

Lemma dict_get_set_ne d k k' v :
  k ≠ k' → dict_get (dict_set d k' v) k = dict_get d k.
Proof.
  intros Hne. induction d as [|[k0 v0] d IH]; simpl.
  - destruct (String.eqb_spec k' k); [congruence|done].
  - destruct (String.eqb_spec k0 k') as [->|Hne0]; simpl.
    + destruct (String.eqb_spec k' k); [congruence|done].
    + by rewrite IH.
Qed.

Lemma dict_set_same d k v : dict_get d k = Some v → dict_set d k v = d.
Proof.
  induction d as [|[k0 v0] d IH]; simpl; [done|].
  destruct (String.eqb k0 k); [by intros [= ->]|].
  intros H. by rewrite IH.
Qed.

Lemma dict_pop_absent d k : dict_get d k = None → dict_pop d k = d.
Proof.
  induction d as [|[k0 v0] d IH]; simpl; [done|].
  destruct (String.eqb k0 k); [done|].
  intros H. by rewrite IH.
Qed.

Lemma dict_get_absent d k : k ∉ map fst d → dict_get d k = None.
Proof.
  induction d as [|[k0 v0] d IH]; simpl; [done|].
  intros Hn. apply not_elem_of_cons in Hn as [Hne Hn].
  destruct (String.eqb_spec k0 k); [congruence|by apply IH].
Qed.

Lemma dict_set_keys d k v k0 :
  k0 ∈ map fst (dict_set d k v) → k0 = k ∨ k0 ∈ map fst d.
Proof.
  induction d as [|[k1 v1] d IH]; simpl.
  - intros [->|H]%elem_of_cons; [by left|inversion H].
  - destruct (String.eqb k1 k); simpl; [by right|].
    intros [->|H]%elem_of_cons; [right; left|].
    destruct (IH H) as [->|H']; [by left|right; by right].
Qed.

Lemma dict_set_NoDup d k v : NoDup (map fst d) → NoDup (map fst (dict_set d k v)).
Proof.
  induction d as [|[k1 v1] d IH]; simpl; intros Hnd.
  - apply NoDup_singleton.
  - apply NoDup_cons in Hnd as [Hk1 Hnd].
    destruct (String.eqb_spec k1 k) as [->|Hne]; simpl.
    + by apply NoDup_cons.
    + apply NoDup_cons. split; [|by apply IH].
      intros [->|H]%dict_set_keys; [done|contradiction].
Qed.

Lemma dict_get_pop_NoDup d k : NoDup (map fst d) → dict_get (dict_pop d k) k = None.
Proof.
  induction d as [|[k1 v1] d IH]; simpl; intros Hnd; [done|].
  apply NoDup_cons in Hnd as [Hk1 Hnd].
  destruct (String.eqb_spec k1 k) as [->|Hne]; simpl.
  - by apply dict_get_absent.
  - destruct (String.eqb_spec k1 k); [congruence|by apply IH].
Qed.

(** X13.  [_validate_impact] on a dictionary has two outcomes only.
    It returns the dictionary with an integer impact between -100 and
    100 and every key other than impact and signal as it was; or the
    impact it read is an infinite float, and it raises an
    OverflowError.  No other exception leaves it. *)
Theorem validate_impact_outcome (d : pydict) :
  (∃ d' n,
     _validate_impact (PyDict d) = inr d'
     ∧ dict_get d' "impact" = Some (PyInt n) ∧ -100 ≤ n ≤ 100
     ∧ ∀ k, k ≠ "impact" → k ≠ "signal" → dict_get d' k = dict_get d k)
  ∨ (_validate_impact (PyDict d) = inl OverflowError
     ∧ ∃ f neg,
         dict_get_default d "impact" (dict_get_default d "signal" (PyInt 0)) = PyFloat f
         ∧ Prim2SF f = S754_infinity neg).
Proof.
  destruct (_validate_impact (PyDict d)) as [e|d'] eqn:Hv.
  - right. destruct (validate_impact_raises d e Hv) as (-> & Hinf). done.
  - left. exists d'. destruct (validate_impact_range d d' Hv) as (n & Hn & Hr).
    exists n. split; [done|]. split; [done|]. split; [done|].
    intros k Hi Hs. revert Hv. unfold _validate_impact.
    match goal with |- context [Py.int ?r] => generalize r end. intros raw.
    destruct (Py.int raw) as [[]|z]; simpl; try discriminate;
      intros [= <-]; by rewrite dict_get_pop_ne, dict_get_set_ne.
Qed.

(** X14.  [_validate_impact] is idempotent on dictionaries, whose
    keys are distinct: what it returns, it returns unchanged when
    applied again, and the result has no signal key. *)
Theorem validate_impact_idempotent (d d' : pydict) :
  NoDup (map fst d) →
  _validate_impact (PyDict d) = inr d' →
  _validate_impact (PyDict d') = inr d' ∧ dict_get d' "signal" = None.
Proof.
  intros Hnd Hv.
  destruct (validate_impact_range d d' Hv) as (n & Hn & Hr).
  assert (dict_get d' "signal" = None) as Hsig.
  { revert Hv. unfold _validate_impact.
    match goal with |- context [Py.int ?r] => generalize r end. intros raw.
    destruct (Py.int raw) as [[]|z]; simpl; try discriminate;
      intros [= <-]; by apply dict_get_pop_NoDup, dict_set_NoDup. }
  split; [|done].
  unfold _validate_impact, dict_get_default. rewrite Hn. simpl.
  replace (Z.max (-100) (Z.min 100 n)) with n by lia.
  by rewrite (dict_set_same _ _ _ Hn), (dict_pop_absent _ _ Hsig).
Qed.

End AdapterContract.

(** A reply with the legacy label Bullish: validated once and twice. *)
Lemma validate_impact_idempotent_witness :
  ai_processor._validate_impact (PyDict adapter_spec.labelled_reply)
  = inr [ ("summary", PyStr "Quarterly results beat guidance.");
          ("ticker", PyStr "ACME");
          ("impact", PyInt 60) ]
  ∧ ai_processor._validate_impact
      (PyDict [ ("summary", PyStr "Quarterly results beat guidance.");
                ("ticker", PyStr "ACME");
                ("impact", PyInt 60) ])
    = inr [ ("summary", PyStr "Quarterly results beat guidance.");
            ("ticker", PyStr "ACME");
            ("impact", PyInt 60) ].
Proof.
  split; [reflexivity|].
  apply (validate_impact_idempotent adapter_spec.labelled_reply).
  - apply (bool_decide_unpack _). vm_compute. exact I.
  - reflexivity.
Defined.

Section AdapterInThePipeline.
Import feed_poller ai_processor adapter_spec routing_spec.

Variable json_loads : string → result pyval.
Variable generate :
  string → string → string → option string → pydict → string → result string.

Abbreviation adapter := (summarise_filing json_loads generate).

Lemma summarise_filing_range form_type segment company ticker parsed_data raw_text d :
  adapter form_type segment company ticker parsed_data raw_text = inr d →
  ∃ n, dict_get d "impact" = Some (PyInt n) ∧ -100 ≤ n ≤ 100.
Proof.
  unfold summarise_filing.
  destruct (generate _ _ _ _ _ _) as [e|reply]; [done|]. simpl.
  destruct (_parse_response json_loads reply) as [e|parsed]; [done|]. simpl.
  destruct parsed as [| | | | | |d0]; try done.
  apply validate_impact_range.
Qed.

(** X15.  Whenever [summarise_filing] returns, whatever the service
    answered and whichever way the reply was parsed, the dictionary
    it returns has an integer impact between -100 and 100; and it
    returns only when the service answered, the reply parsed to a
    JSON object and the validation of that object returned. *)
Theorem summarise_filing_contract (form_type segment company : string)
    (ticker : option string) (parsed_data : pydict) (raw_text : string) (d : pydict) :
  adapter form_type segment company ticker parsed_data raw_text = inr d →
  (∃ n, dict_get d "impact" = Some (PyInt n) ∧ -100 ≤ n ≤ 100)
  ∧ (∃ reply parsed,
       generate form_type segment company ticker parsed_data raw_text = inr reply
       ∧ _parse_response json_loads reply = inr (PyDict parsed)
       ∧ _validate_impact (PyDict parsed) = inr d).
Proof.
  intros Hret. split; [by eapply summarise_filing_range|].
  revert Hret. unfold summarise_filing.
  destruct (generate _ _ _ _ _ _) as [e|reply]; [done|]. simpl.
  destruct (_parse_response json_loads reply) as [e|parsed] eqn:Hparse; [done|]. simpl.
  destruct parsed as [| | | | | |d0]; try done.
  intros Hv. by exists reply, d0.
Qed.

Variable _download_text : string → result string.
Variable urljoin : string → string → string.
Variable soup_text_html : string → string.
Variable soup_text_lxml : string → string.
Variable soup_ix_tags : string → list (option string * string).
Variable parse_form4 : string → string * pydict.
Variable parse_s1_s3 : string → string * pydict.
Variable broadcast_fn : bool.

Abbreviation fetcher :=
  (filing_fetcher.fetch_filing_document _download_text urljoin soup_text_html
     soup_text_lxml soup_ix_tags parse_form4 parse_s1_s3).

(** The rows of a task on a filing that is routed to a parser of its segment. *)
Lemma process_filing_signal e st row :
  serves (segment e) (filing_fetcher.route (filing_fetcher.base_form_of (form_type e)))
  = true →
  row ∈ filings (snd (_process_filing fetcher adapter broadcast_fn e st)) →
  row ∈ filings st ∨ signal_in_range (row_signal row) = true.
Proof.
  intros Hroute.
  pose proof (fetched_fields_score _download_text urljoin soup_text_html soup_text_lxml
                soup_ix_tags parse_form4 parse_s1_s3 _ _ (filing_url e) Hroute)
    as (n & Hn & Hrange).
  unfold _process_filing. case_bool_decide as Hguard; [by left|].
  unfold process_body. simpl filings at 1.
  destruct (existsb _ _); [by left|].
  destruct (fetcher _ _) as [raw_text parsed_data]. simpl in Hn.
  destruct (String.eqb raw_text ""); [by left|].
  rewrite Hn. cbv zeta. simpl snd.
  assert (filings (broadcast broadcast_fn
            (filing_processing (accession_number e) (company_name e) (ticker e)
               (form_type e) (segment e) (filed_at e))
            (with_processing ({[accession_number e]} ∪ _currently_processing st) st))
          = filings st) as Hsame by (by destruct broadcast_fn).
  destruct broadcast_fn; simpl;
    (intros [Hold|Hnew]%elem_of_app; [by left|right];
     apply list_elem_of_singleton in Hnew as ->; simpl;
     destruct (adapter _ _ _ _ _ _) as [err|d] eqn:Hanswer;
     [ simpl; apply andb_true_iff; split; lia
     | destruct (summarise_filing_range _ _ _ _ _ _ _ Hanswer) as (k & Hk & Hr);
       unfold dict_get_default; rewrite Hk; simpl; apply andb_true_iff; split; lia ]).
Qed.

Lemma dedup_new_from_batch entries (ledger : gset string) e :
  e ∈ fst (_dedup entries ledger) → e ∈ entries.
Proof.
  rewrite dedup_unfold. cbv zeta. simpl fst.
  rewrite list_elem_of_In, filter_In, <- list_elem_of_In. intros [He _].
  apply first_seen_spec in He as [_ Hf]. unfold dedup_spec.first_occurrence in Hf.
  apply find_some in Hf as [Hf _]. by apply list_elem_of_In.
Qed.

Lemma fold_process_signal new_entries : ∀ st,
  (∀ e, e ∈ new_entries →
        serves (segment e) (filing_fetcher.route (filing_fetcher.base_form_of (form_type e)))
        = true) →
  (∀ row, row ∈ filings st → signal_in_range (row_signal row) = true) →
  ∀ row,
    row ∈ filings (fold_left (λ s e, snd (_process_filing fetcher adapter broadcast_fn e s))
                     new_entries st) →
    signal_in_range (row_signal row) = true.
Proof.
  induction new_entries as [|e es IH]; intros st Hroute Hinv; simpl; [done|].
  apply IH.
  - intros e' He'. apply Hroute. by right.
  - intros row Hrow. apply process_filing_signal in Hrow as [Hold|Hnew]; auto.
    apply Hroute. left.
Qed.

(** X16.  From the feed to the table: if every row of the filings
    table has an integer signal between -100 and 100, so has every
    row after a turn of the loop, whatever the feed lists, the network
    serves and the model answers, with the score of the model or with
    the heuristic score. *)
Theorem persisted_signals_in_range (feed : result (list FeedEntry)) (st : state) :
  (∀ row, row ∈ filings st → signal_in_range (row_signal row) = true) →
  ∀ row, row ∈ filings (snd (poll_cycle fetcher adapter broadcast_fn feed st)) →
         signal_in_range (row_signal row) = true.
Proof.
  intros Hinv. unfold poll_cycle.
  pose proof (dedup_new_from_batch (_poll_once (cik_ticker st) feed) (seen_filings st))
    as Hfrom.
  destruct (_dedup _ _) as [new_entries ledger]. simpl in *.
  apply fold_process_signal; [|exact Hinv].
  intros e He. apply Hfrom in He. unfold _poll_once in He.
  destruct feed as [err|entries]; [inversion He|].
  apply list_elem_of_omap in He as (entry & _ & Hparse).
  by apply parse_entry_route in Hparse.
Qed.

End AdapterInThePipeline.

(** The contract at a reply in prose. *)
Lemma summarise_filing_contract_witness :
  ∃ n, dict_get
         [ ("summary", PyStr "The filing looks routine.");
           ("impact", PyInt 0);
           ("reasons", PyList [PyStr "Could not parse structured SLM response"]) ]
         "impact" = Some (PyInt n) ∧ -100 ≤ n ≤ 100.
Proof.
  refine (proj1 (summarise_filing_contract adapter_examples.rejecting_loads
                   adapter_spec.prose_reply "8-K" "catalyst" "Acme" None [] "text" _ _)).
  reflexivity.
Defined.

(** A turn from the empty tables, with a model that answers in prose. *)
Lemma persisted_signals_in_range_witness :
  Forall (λ row, adapter_spec.signal_in_range (feed_poller.row_signal row) = true)
    (feed_poller.filings
       (snd (feed_poller.poll_cycle pipeline_examples.online_fetch
               (ai_processor.summarise_filing adapter_examples.rejecting_loads
                  adapter_spec.prose_reply)
               true (inr [poller_examples.bofa_entry])
               orchestrator_examples.initial_state))).
Proof.
  apply Forall_forall.
  apply (persisted_signals_in_range adapter_examples.rejecting_loads
           adapter_spec.prose_reply pipeline_examples.bofa_network
           fetcher_examples.urljoin_unused
           filing_fetcher.strip_markup filing_fetcher.strip_markup
           fetcher_examples.no_ix_tags fetcher_examples.no_parser fetcher_examples.no_parser
           true).
  simpl. intros row Hrow. inversion Hrow.
Defined.

(* ================================================================== *)
(** * White space around a reply *)
(* ================================================================== *)

Section ReplyPadding.
Import ai_processor adapter_spec adapter_examples.

Lemma lstrip_chars_app l1 l2 :
  lstrip_chars (l1 ++ l2)
  = match lstrip_chars l1 with
    | [] => lstrip_chars l2
    | c :: l => (c :: l) ++ l2
    end.
Proof.
  induction l1 as [|c l1 IH]; simpl; [by destruct (lstrip_chars l2)|].
  destruct (is_space c); [exact IH|done].
Qed.

Lemma lstrip_chars_blank l : forallb is_space l = true → lstrip_chars l = [].
Proof.
  induction l as [|c l IH]; simpl; [done|].
  intros [Hc Hl]%andb_true_iff. rewrite Hc. by apply IH.
Qed.

Lemma forallb_rev_space l : forallb is_space (rev l) = forallb is_space l.
Proof.
  induction l as [|c l IH]; simpl; [done|].
  rewrite forallb_app, IH. simpl. rewrite andb_true_r. apply andb_comm.
Qed.

Lemma strip_padding before s after :
  blank before = true → blank after = true →
  strip (String.append before (String.append s after)) = strip s.
Proof.
  unfold blank, strip. intros Hb Ha. rewrite !chars_append.
  rewrite lstrip_chars_app, (lstrip_chars_blank _ Hb), lstrip_chars_app.
  destruct (lstrip_chars (chars s)) as [|c l] eqn:Hs.
  - by rewrite (lstrip_chars_blank _ Ha).
  - rewrite rev_app_distr, lstrip_chars_app.
    rewrite lstrip_chars_blank by (by rewrite forallb_rev_space). done.
Qed.

(** X17.  White space around the reply of the model never changes
    what [_parse_response] extracts from it: a reply padded with
    blanks, tabs or line breaks on either side is parsed as the reply
    itself. *)
Theorem parse_response_ignores_padding (json_loads : string → result pyval)
    (before reply after : string) :
  blank before = true → blank after = true →
  _parse_response json_loads (String.append before (String.append reply after))
  = _parse_response json_loads reply.
Proof.
  intros Hb Ha. unfold _parse_response. by rewrite (strip_padding _ _ _ Hb Ha).
Qed.

End ReplyPadding.

(** A reply between two line breaks. *)
Lemma parse_response_ignores_padding_witness :
  ai_processor._parse_response adapter_examples.rejecting_loads
    (String.append (String "010" "  ")
       (String.append "The filing looks routine." (String "010" "")))
  = ai_processor._parse_response adapter_examples.rejecting_loads
      "The filing looks routine.".
Proof.
  apply (parse_response_ignores_padding adapter_examples.rejecting_loads); reflexivity.
Defined.

(* ================================================================== *)
(** * The chunks of a long filing *)
(* ================================================================== *)

Section ChunkProperties.
Import ai_processor_chunks.
Local Open Scope nat_scope.

Lemma is_word_run_spec w :
  is_word_run w = true ↔ w ≠ [] ∧ forallb (λ c, negb (is_space c)) w = true.
Proof. destruct w; simpl; split; try done; [by intros [? _]|by intros [_ ?]]. Qed.

Lemma forallb_rev_run (l : list ascii) :
  forallb (λ c, negb (is_space c)) (rev l) = forallb (λ c, negb (is_space c)) l.
Proof.
  induction l as [|c l IH]; simpl; [done|].
  rewrite forallb_app, IH. simpl. rewrite andb_true_r. apply andb_comm.
Qed.

(** Every word of a split is a non-empty run without white space. *)
Lemma split_words_runs l : ∀ cur w,
  forallb (λ c, negb (is_space c)) cur = true →
  w ∈ split_words cur l → is_word_run w = true.
Proof.
  induction l as [|c l IH]; intros cur w Hcur; simpl.
  - destruct cur as [|a cur]; [by intros ?%elem_of_nil|].
    intros ->%list_elem_of_singleton. apply is_word_run_spec. split.
    + intros H%(f_equal (@List.length ascii)). rewrite length_rev in H. done.
    + by rewrite forallb_rev_run.
  - destruct (is_space c) eqn:Hc.
    + destruct cur as [|a cur]; [by apply IH|].
      intros [->|Hw]%elem_of_cons; [|exact (IH [] w eq_refl Hw)].
      apply is_word_run_spec. split.
      * intros H%(f_equal (@List.length ascii)). rewrite length_rev in H. done.
      * by rewrite forallb_rev_run.
    + apply IH. simpl. by rewrite Hc.
Qed.

Lemma split_words_run w : ∀ cur rest,
  forallb (λ c, negb (is_space c)) w = true →
  split_words cur (w ++ rest) = split_words (rev w ++ cur) rest.
Proof.
  induction w as [|c w IH]; intros cur rest Hw; simpl; [done|].
  simpl in Hw. apply andb_true_iff in Hw as [Hc Hw].
  apply negb_true_iff in Hc. rewrite Hc, IH by done.
  by rewrite <- app_assoc.
Qed.

(** Splitting the words joined by one space gives the words back. *)
Lemma split_join ws :
  Forall (λ w, is_word_run w = true) ws →
  split_words [] (chars (join " " (map text ws))) = ws.
Proof.
  induction 1 as [|w ws Hw Hws IH]; [done|].
  apply is_word_run_spec in Hw as [Hne Hrun].
  assert (Hrev : ∀ rest, split_words [] (w ++ rest)
                         = split_words (rev w) rest).
  { intros rest. by rewrite split_words_run, app_nil_r. }
  simpl. destruct ws as [|w2 ws].
  - simpl. rewrite chars_text. rewrite <- (app_nil_r w) at 1. rewrite Hrev. simpl.
    destruct (rev w) as [|a r] eqn:Hr.
    + apply (f_equal (@rev ascii)) in Hr. rewrite rev_involutive in Hr. done.
    + by rewrite <- Hr, rev_involutive.
  - change (map text (w2 :: ws)) with (text w2 :: map text ws).
    change (match text w2 :: map text ws with
            | [] => text w
            | _ :: _ => String.append (text w)
                          (String.append " " (join " " (text w2 :: map text ws)))
            end)
      with (String.append (text w) (String.append " " (join " " (map text (w2 :: ws))))).
    rewrite !chars_append, chars_text, Hrev.
    change (chars " ") with [" "%char].
    change (split_words (rev w) ([" "%char] ++ ?r))
      with (match rev w with
            | [] => split_words [] r
            | _ => rev (rev w) :: split_words [] r
            end).
    destruct (rev w) as [|a r] eqn:Hr.
    + apply (f_equal (@rev ascii)) in Hr. rewrite rev_involutive in Hr. done.
    + rewrite <- Hr, rev_involutive. by rewrite IH.
Qed.

Lemma range_from_lt fuel : ∀ start stop step i,
  i ∈ range_from start stop step fuel → i < stop.
Proof.
  induction fuel as [|fuel IH]; intros start stop step i; simpl.
  - by intros ?%elem_of_nil.
  - destruct (Nat.ltb_spec start stop) as [Hlt|Hge]; [|by intros ?%elem_of_nil].
    intros [->|Hi]%elem_of_cons; [done|by eapply IH].
Qed.

(** The slices of a list at the multiples of a positive step, put
    end to end, are the list. *)
Lemma slices_concat {A} (l : list A) step fuel : ∀ start,
  0 < step → List.length l - start ≤ fuel →
  concat (map (λ i, slice_list i (i + step) l) (range_from start (List.length l) step fuel))
  = skipn start l.
Proof.
  induction fuel as [|fuel IH]; intros start Hstep Hfuel; simpl.
  - symmetry. apply skipn_all2. lia.
  - destruct (Nat.ltb_spec start (List.length l)) as [Hlt|Hge]; simpl.
    + rewrite IH by lia. unfold slice_list.
      replace (start + step - start) with step by lia.
      rewrite <- (firstn_skipn step (skipn start l)) at 2.
      by rewrite skipn_skipn, (Nat.add_comm step start).
    + symmetry. apply skipn_all2. lia.
Qed.

Lemma slice_list_map {A B} (f : A → B) i j (l : list A) :
  slice_list i j (map f l) = map f (slice_list i j l).
Proof. unfold slice_list. by rewrite skipn_map, firstn_map. Qed.

Lemma slice_list_runs i j (ws : list (list ascii)) :
  Forall (λ w, is_word_run w = true) ws →
  Forall (λ w, is_word_run w = true) (slice_list i j ws).
Proof.
  intros H. unfold slice_list. apply Forall_forall. intros w Hw.
  rewrite Forall_forall in H. apply H.
  by apply (subseteq_drop i ws), (subseteq_take (j - i)).
Qed.

Lemma split_whitespace_slice n i (ws : list (list ascii)) :
  Forall (λ w, is_word_run w = true) ws →
  split_whitespace (join " " (slice_list i (i + n) (map text ws)))
  = slice_list i (i + n) (map text ws).
Proof.
  intros H. unfold split_whitespace.
  rewrite slice_list_map, split_join by (by apply slice_list_runs). done.
Qed.

(** Chunks of [n] words. *)
Lemma chunks_of_words n (ws : list (list ascii)) :
  0 < n →
  Forall (λ w, is_word_run w = true) ws →
  let words := map text ws in
  let chunks :=
    map (λ i, join " " (slice_list i (i + n) words)) (range_step (List.length words) n) in
  concat (map split_whitespace chunks) = words
  ∧ (∀ chunk, chunk ∈ chunks →
       1 ≤ List.length (split_whitespace chunk) ≤ n
       ∧ chunk = join " " (split_whitespace chunk))
  ∧ (chunks = [] ↔ words = []).
Proof.
  intros Hn Hruns words chunks. subst chunks words. split; [|split].
  - rewrite map_map.
    rewrite (map_ext _ (λ i, slice_list i (i + n) (map text ws)))
      by (intros i; by apply split_whitespace_slice).
    unfold range_step. rewrite slices_concat by lia. done.
  - intros chunk Hchunk. apply list_elem_of_fmap in Hchunk as (i & -> & Hi).
    apply range_from_lt in Hi.
    rewrite split_whitespace_slice by done. split; [|done].
    unfold slice_list. rewrite length_firstn, length_skipn. lia.
  - unfold range_step. destruct ws as [|w ws]; simpl; [done|].
    split; intros H; discriminate H.
Qed.

(** X18.  [_get_chunks] loses no word and adds none: the words of
    the chunks, read one chunk after the other, are the words of the
    text in their order.  Every chunk holds at least one word and at
    most 8000, and is its words joined by single blanks; a text
    without a word has no chunk. *)
Theorem get_chunks_keeps_the_words (txt : string) :
  let words := split_whitespace txt in
  concat (map split_whitespace (_get_chunks txt)) = words
  ∧ (∀ chunk, chunk ∈ _get_chunks txt →
       1 ≤ List.length (split_whitespace chunk) ≤ _CHUNK_WORD_SIZE
       ∧ chunk = join " " (split_whitespace chunk))
  ∧ (_get_chunks txt = [] ↔ words = []).
Proof.
  apply chunks_of_words.
  - apply Nat.ltb_lt. by vm_compute.
  - apply Forall_forall. intros w Hw. exact (split_words_runs _ [] w eq_refl Hw).
Qed.

End ChunkProperties.

(* ================================================================== *)
(** * The order of the new filings *)
(* ================================================================== *)

Section DedupOrder.
Import feed_poller dedup_spec.

Lemma first_seen_sublist entries : ∀ seen, sublist (first_seen seen entries) entries.
Proof.
  induction entries as [|e es IH]; intros seen; simpl; [constructor|].
  case_bool_decide; [apply sublist_cons, IH|apply sublist_skip, IH].
Qed.

Lemma filter_sublist {A} (p : A → bool) (l : list A) : sublist (List.filter p l) l.
Proof.
  induction l as [|x l IH]; simpl; [constructor|].
  destruct (p x); [by apply sublist_skip|by apply sublist_cons].
Qed.

(** X19.  [_dedup] keeps the order of the feed: the filings it
    returns are entries of the batch, in the order in which the batch
    lists them, so that a turn of the loop starts its tasks in feed
    order. *)
Theorem dedup_keeps_feed_order (entries : list Filing) (ledger : gset string)
    (fetch_filing_document : string → string → string * pydict)
    (summarise_filing :
       string → string → string → option string → pydict → string → result pydict)
    (broadcast_fn : bool) (feed : result (list FeedEntry)) (st : state) :
  sublist (fst (_dedup entries ledger)) entries
  ∧ sublist (fst (poll_cycle fetch_filing_document summarise_filing broadcast_fn feed st))
            (_poll_once (cik_ticker st) feed).
Proof.
  assert (∀ es led, sublist (fst (_dedup es led)) es) as Hsub.
  { intros es led. rewrite dedup_unfold. cbv zeta. simpl fst.
    etrans; [apply filter_sublist|apply first_seen_sublist]. }
  split; [apply Hsub|].
  unfold poll_cycle. specialize (Hsub (_poll_once (cik_ticker st) feed) (seen_filings st)).
  by destruct (_dedup _ _).
Qed.

End DedupOrder.

(* ================================================================== *)
(** * The selection of the document *)
(* ================================================================== *)

Section DocumentSelection.
Import filing_fetcher.

(** X20.  [pick_best] selects one of the candidates, and none only
    when there is no candidate.  It selects a link with an XSLT
    segment only when every candidate has one, and a file of the XBRL
    viewer only when no candidate passes the first loop. *)
Theorem pick_best_is_a_candidate (doc_links : list string) :
  match pick_best doc_links with
  | None => doc_links = []
  | Some best =>
      best ∈ doc_links
      ∧ (has_xsl best = true → Forall (λ link, has_xsl link = true) doc_links)
      ∧ (is_viewer_file best = true → first_htm doc_links = None)
  end.
Proof.
  unfold pick_best.
  destruct (first_htm doc_links) as [best|] eqn:Hhtm.
  { unfold first_htm in Hhtm. apply find_some in Hhtm as [Hin Hp].
    apply andb_true_iff in Hp as [Hp _]. apply andb_true_iff in Hp as [Hv Hx].
    apply negb_true_iff in Hv, Hx.
    split; [by apply list_elem_of_In|]. split; congruence. }
  destruct (first_without_xsl doc_links) as [best|] eqn:Hxsl.
  { unfold first_without_xsl in Hxsl. apply find_some in Hxsl as [Hin Hp].
    apply negb_true_iff in Hp.
    split; [by apply list_elem_of_In|]. split; [congruence|done]. }
  destruct doc_links as [|link links]; [done|]. simpl.
  split; [left|]. split; [|done].
  intros _. apply Forall_forall. intros x Hx.
  unfold first_without_xsl in Hxsl. apply list_elem_of_In in Hx.
  apply (find_none _ _ Hxsl) in Hx. by apply negb_false_iff in Hx.
Qed.

Variable _download_text : string → result string.
Variable urljoin : string → string → string.

(** X21.  The document that [_get_doc_url_from_index] resolves comes
    from a link of the index page that names a document: a target of
    an href attribute that ends in .htm, .html or .xml, is not an
    index file, and is a bare file name or a path under
    /Archives/edgar/data/.  Navigation links are never selected; a
    page without such a link, like a page that cannot be downloaded,
    yields no document. *)
Theorem doc_url_is_a_filing_document (index_url doc_url : string) :
  _get_doc_url_from_index _download_text urljoin index_url = Some doc_url →
  ∃ html link,
    _download_text index_url = inr html
    ∧ link ∈ Re.findall1 Re.ignorecase href_re html
    ∧ has_doc_extension (lower link) = true
    ∧ contains "-index." (lower link) = false
    ∧ (contains "/" link = false ∨ contains "/Archives/edgar/data/" link = true)
    ∧ doc_url = get_raw_url (resolve urljoin index_url link).
Proof.
  unfold _get_doc_url_from_index.
  destruct (_download_text index_url) as [err|html]; [done|].
  pose proof (pick_best_stages
                (List.filter is_doc_link (Re.findall1 Re.ignorecase href_re html))) as Hst.
  destruct (pick_best _) as [best|]; [|done].
  intros [= <-]. exists html, best. split; [done|].
  assert (best ∈ List.filter is_doc_link (Re.findall1 Re.ignorecase href_re html)) as Hin.
  { destruct (Hst best) as [H _]. specialize (H eq_refl).
    destruct H as [H|[[_ H]|(_ & _ & H)]].
    - apply find_some in H as [H _]. by apply list_elem_of_In.
    - apply find_some in H as [H _]. by apply list_elem_of_In.
    - apply list_elem_of_In. destruct (List.filter _ _); [done|].
      injection H as ->. by left. }
  apply list_elem_of_In, filter_In in Hin as [Hin Hdoc].
  unfold is_doc_link in Hdoc.
  apply andb_true_iff in Hdoc as [Hdoc Hplace].
  apply andb_true_iff in Hdoc as [Hext Hidx].
  apply negb_true_iff in Hidx. apply orb_true_iff in Hplace.
  split; [by apply list_elem_of_In|]. split; [done|]. split; [done|].
  split; [|done].
  destruct Hplace as [H|H]; [left; by apply negb_true_iff in H|by right].
Qed.

End DocumentSelection.

(** The index page of the example filing. *)
Lemma doc_url_is_a_filing_document_witness :
  ∃ html link,
    pipeline_examples.bofa_network
      (feed_poller.filing_url orchestrator_examples.bofa_filing) = inr html
    ∧ link ∈ Re.findall1 Re.ignorecase filing_fetcher.href_re html
    ∧ filing_fetcher.has_doc_extension (lower link) = true
    ∧ contains "-index." (lower link) = false
    ∧ (contains "/" link = false ∨ contains "/Archives/edgar/data/" link = true)
    ∧ "https://www.sec.gov/Archives/edgar/data/1682472/000119312526055710/d8k.htm"
      = filing_fetcher.get_raw_url
          (filing_fetcher.resolve fetcher_examples.urljoin_unused
             (feed_poller.filing_url orchestrator_examples.bofa_filing) link).
Proof.
  apply (doc_url_is_a_filing_document pipeline_examples.bofa_network
           fetcher_examples.urljoin_unused).
  vm_compute. reflexivity.
Defined.

(* ================================================================== *)
(** * The fields of a quarterly report *)
(* ================================================================== *)

Section QuarterlyReport.
Import form_10q report_spec.
Local Open Scope nat_scope.

Lemma insert_desc_perm x l : Permutation (insert_desc x l) (x :: l).
Proof.
  induction l as [|y l IH]; simpl; [done|].
  destruct (Nat.ltb (snd x) (snd y)); [|done].
  rewrite IH. apply perm_swap.
Qed.

Lemma insert_desc_sorted x l :
  StronglySorted by_count_desc l → StronglySorted by_count_desc (insert_desc x l).
Proof.
  induction 1 as [|y l Hl IH Hy]; simpl; [repeat constructor|].
  destruct (Nat.ltb_spec (snd x) (snd y)) as [Hlt|Hge].
  - constructor; [exact IH|].
    rewrite (insert_desc_perm x l). constructor; [|exact Hy].
    unfold by_count_desc. lia.
  - constructor; [by constructor|]. constructor; [done|].
    eapply Forall_impl; [exact Hy|]. unfold by_count_desc. intros z Hz. simpl in Hz. lia.
Qed.

Lemma sorted_desc_perm l : Permutation (sorted_desc l) l.
Proof.
  induction l as [|x l IH]; simpl; [done|].
  unfold sorted_desc in *. by rewrite insert_desc_perm, IH.
Qed.

Lemma sorted_desc_sorted l : StronglySorted by_count_desc (sorted_desc l).
Proof.
  induction l as [|x l IH]; simpl; [constructor|]. by apply insert_desc_sorted.
Qed.

Lemma sorted_firstn_skipn (l : list (string * nat)) : ∀ k x y,
  StronglySorted by_count_desc l →
  x ∈ firstn k l → y ∈ skipn k l → by_count_desc x y.
Proof.
  induction l as [|z l IH]; intros [|k] x y Hs; simpl; try by intros ?%elem_of_nil.
  apply StronglySorted_inv in Hs as [Hs Hz].
  intros [->|Hx]%elem_of_cons Hy.
  - rewrite Forall_forall in Hz. apply Hz.
    by apply (subseteq_drop k l).
  - by apply (IH k).
Qed.

Lemma sorted_firstn (l : list (string * nat)) k :
  StronglySorted by_count_desc l → StronglySorted by_count_desc (firstn k l).
Proof.
  intros Hs. revert k. induction Hs as [|z l Hl IH Hz]; intros [|k]; simpl; try constructor.
  - apply IH.
  - apply Forall_forall. intros x Hx. rewrite Forall_forall in Hz. apply Hz.
    by apply (subseteq_take k l).
Qed.

Lemma mentions_elem keywords txt r :
  r ∈ mentions keywords txt → fst r ∈ keywords ∧ 0 < snd r.
Proof.
  unfold mentions. intros (kw & Hkw & Hr)%list_elem_of_omap.
  destruct (Nat.ltb_spec 0 (List.length (Re.finditer Re.ignorecase (Re.lit kw) txt)))
    as [Hpos|Hzero]; [|done].
  injection Hr as <-. done.
Qed.

(** X22.  The top risk factors of a quarterly report are the most
    mentioned risk keywords: at most three of the keywords that occur
    in the section read, in descending order of their counts, and no
    keyword that was left out occurs more often than one that was
    kept. *)
Theorem top_risk_factors_are_the_most_mentioned
    (ix_tags : list (option string * string)) (txt : string) :
  let parsed_data := fields_10q ix_tags txt in
  ∃ risk top : list (string * nat),
    dict_get parsed_data "risk_mentions" = Some (count_dict risk)
    ∧ dict_get parsed_data "top_risk_factors"
      = Some (PyList (map (λ r, PyStr (fst r)) top))
    ∧ List.length top = Nat.min 3 (List.length risk)
    ∧ (∀ r, r ∈ risk → fst r ∈ RISK_KEYWORDS ∧ 0 < snd r)
    ∧ (∀ r, r ∈ top → r ∈ risk)
    ∧ StronglySorted by_count_desc top
    ∧ (∀ x y, x ∈ top → y ∈ risk → y ∉ top → snd y ≤ snd x).
Proof.
  intros parsed_data. subst parsed_data. unfold fields_10q.
  set (mda_text := match Re.re_search _ _ _ with Some _ => _ | None => _ end).
  exists (mentions RISK_KEYWORDS mda_text),
         (firstn 3 (sorted_desc (mentions RISK_KEYWORDS mda_text))).
  pose proof (mentions_elem RISK_KEYWORDS mda_text) as Helem.
  revert Helem. generalize (mentions RISK_KEYWORDS mda_text). intros risk Helem.
  split; [reflexivity|]. split; [reflexivity|].
  pose proof (sorted_desc_perm risk) as Hperm.
  pose proof (sorted_desc_sorted risk) as Hsorted.
  split; [by rewrite length_firstn, (Permutation_length Hperm)|].
  split; [exact Helem|].
  split; [|split].
  - intros r Hr. rewrite <- Hperm. by apply (subseteq_take 3).
  - by apply sorted_firstn.
  - intros x y Hx Hy Hout.
    apply (sorted_firstn_skipn (sorted_desc risk) 3 x y Hsorted Hx).
    rewrite <- Hperm in Hy.
    rewrite <- (firstn_skipn 3 (sorted_desc risk)) in Hy.
    apply elem_of_app in Hy as [Hy|Hy]; [contradiction|done].
Qed.

Lemma dict_has_key_spec acc name :
  Py.dict_has_key acc name = true ↔ name ∈ map fst acc.
Proof.
  induction acc as [|[k v] acc IH]; simpl.
  - split; [done|by intros ?%elem_of_nil].
  - rewrite orb_true_iff, IH, String.eqb_eq, elem_of_cons. split; intros [?|?]; auto.
Qed.

(** The facts collected: distinct names, each with the text of the
    first tag of that name. *)
Lemma ixbrl_facts_spec tags : ∀ acc,
  NoDup (map fst acc) →
  NoDup (map fst (ixbrl_facts acc tags))
  ∧ ∀ name v, (name, v) ∈ ixbrl_facts acc tags →
      (name, v) ∈ acc
      ∨ (name ≠ "" ∧ name ∉ map fst acc
         ∧ ∃ txt before after,
             v = PyStr txt
             ∧ tags = before ++ (Some name, txt) :: after
             ∧ ∀ t, t ∈ before → fst t ≠ Some name).
Proof.
  induction tags as [|[[name0|] txt0] tags IH]; intros acc Hnd; simpl.
  - split; [done|]. intros name v H. by left.
  - destruct (String.eqb_spec name0 "") as [->|Hne]; simpl.
    { destruct (IH acc Hnd) as [Hk Hin]. split; [done|].
      intros name v H. destruct (Hin name v H) as [?|(Hn & Hfresh & txt & b & a & -> & -> & Hb)];
        [by left|right].
      split; [done|]. split; [done|].
      exists txt, ((Some "", txt0) :: b), a. split; [done|]. split; [done|].
      intros t [->|Ht]%elem_of_cons; [simpl; congruence|by apply Hb]. }
    destruct (Py.dict_has_key acc name0) eqn:Hhas; simpl.
    { apply dict_has_key_spec in Hhas.
      destruct (IH acc Hnd) as [Hk Hin]. split; [done|].
      intros name v H. destruct (Hin name v H) as [?|(Hn & Hfresh & txt & b & a & -> & -> & Hb)];
        [by left|right].
      split; [done|]. split; [done|].
      exists txt, ((Some name0, txt0) :: b), a. split; [done|]. split; [done|].
      intros t [->|Ht]%elem_of_cons; [simpl; congruence|by apply Hb]. }
    assert (name0 ∉ map fst acc) as Hfresh0.
    { intros H. apply dict_has_key_spec in H. congruence. }
    assert (NoDup (map fst (acc ++ [(name0, PyStr txt0)]))) as Hnd'.
    { rewrite map_app. simpl. apply NoDup_app. split; [done|]. split.
      - intros k Hk [->|H]%elem_of_cons; [done|inversion H].
      - apply NoDup_singleton. }
    destruct (IH _ Hnd') as [Hk Hin]. split; [done|].
    intros name v H. destruct (Hin name v H) as [Hacc|(Hn & Hfresh & txt & b & a & -> & -> & Hb)].
    + apply elem_of_app in Hacc as [Hacc|Hnew]; [by left|right].
      apply list_elem_of_singleton in Hnew. injection Hnew as -> ->.
      split; [done|]. split; [done|].
      exists txt0, [], tags. split; [done|]. split; [done|].
      intros t Ht. inversion Ht.
    + right. rewrite map_app, elem_of_app in Hfresh.
      split; [done|]. split; [tauto|].
      exists txt, ((Some name0, txt0) :: b), a. split; [done|]. split; [done|].
      intros t [->|Ht]%elem_of_cons; [|by apply Hb].
      simpl. intros [= ->]. apply Hfresh. right. simpl. left.
  - destruct (IH acc Hnd) as [Hk Hin]. split; [done|].
    intros name v H. destruct (Hin name v H) as [?|(Hn & Hfresh & txt & b & a & -> & -> & Hb)];
      [by left|right].
    split; [done|]. split; [done|].
    exists txt, ((None, txt0) :: b), a. split; [done|]. split; [done|].
    intros t [->|Ht]%elem_of_cons; [done|by apply Hb].
Qed.

(** X23.  The sample of inline XBRL facts of a quarterly report holds
    at most ten facts, under distinct non-empty names, each with the
    text of the first tag of the page that carries the name; the fact
    count is the number of all inline tags, named or not, and the
    detection flag says whether there is one. *)
Theorem ixbrl_sample_holds_first_facts
    (ix_tags : list (option string * string)) (txt : string) :
  let parsed_data := fields_10q ix_tags txt in
  ∃ sample : pydict,
    dict_get parsed_data "ixbrl_sample" = Some (PyDict sample)
    ∧ List.length sample ≤ 10
    ∧ NoDup (map fst sample)
    ∧ (∀ name v, (name, v) ∈ sample →
         name ≠ ""
         ∧ ∃ fact before after,
             v = PyStr fact
             ∧ ix_tags = before ++ (Some name, fact) :: after
             ∧ ∀ t, t ∈ before → fst t ≠ Some name)
    ∧ dict_get parsed_data "ixbrl_fact_count"
      = Some (PyInt (Z.of_nat (List.length ix_tags)))
    ∧ dict_get parsed_data "ixbrl_detected"
      = Some (PyBool (negb (Nat.eqb (List.length ix_tags) 0))).
Proof.
  intros parsed_data. subst parsed_data. unfold fields_10q.
  exists (firstn 10 (ixbrl_facts [] ix_tags)).
  destruct (ixbrl_facts_spec ix_tags [] (NoDup_nil_2 (A:=string))) as [Hnd Hin].
  split; [reflexivity|].
  split; [rewrite length_firstn; lia|].
  split.
  { rewrite <- firstn_map. eapply sublist_NoDup; [exact Hnd|apply sublist_take]. }
  split.
  { intros name v Hs. apply (subseteq_take 10) in Hs.
    destruct (Hin name v Hs) as [Hnil|(Hn & _ & H)]; [inversion Hnil|]. by split. }
  split; [reflexivity|]. by destruct ix_tags.
Qed.

End QuarterlyReport.

(* ================================================================== *)
(** * The priority of a notification *)
(* ================================================================== *)

Section NotificationPriority.
Import feed_poller filing_fetcher notifier routing_spec report_spec.

(** X24.  For a filing built by [_parse_entry], the priority of the
    notification is high when the impact is known and exceeds 20 in
    absolute value, whatever the form; otherwise it is medium for the
    segments catalyst and whale and low for the segment pulse: no
    catalyst or whale filing is ever low, no periodic report is ever
    medium. *)
Theorem priority_of_feed_filing (entry : FeedEntry)
    (table : option (gmap string string)) (filing : Filing) (impact : option Z) :
  _parse_entry entry table = Some filing →
  compute_priority impact (form_type filing) (segment filing)
  = if strong impact then "high"
    else if String.eqb (segment filing) "pulse" then "low"
    else "medium".
Proof.
  intros Hroute%parse_entry_route.
  unfold compute_priority. fold (strong impact).
  destruct (strong impact); [done|].
  destruct (member (form_type filing) ["8-K"; "SC 13D"]) eqn:Hform.
  - simpl in Hform. rewrite orb_false_r in Hform.
    assert (route (base_form_of "8-K") = Parse8K) as H8k by (by vm_compute).
    assert (route (base_form_of "SC 13D") = Parse13D13G) as H13d by (by vm_compute).
    apply orb_true_iff in Hform as [Hf|Hf]; apply String.eqb_eq in Hf;
      rewrite Hf in Hroute; rewrite ?H8k, ?H13d in Hroute; simpl in Hroute;
      apply String.eqb_eq in Hroute; rewrite Hroute; reflexivity.
  - simpl orb.
    destruct (route (base_form_of (form_type filing))); simpl in Hroute;
      try discriminate; apply String.eqb_eq in Hroute; rewrite Hroute; reflexivity.
Qed.

End NotificationPriority.

(** The priority of the example filing at its heuristic score. *)
Lemma priority_of_feed_filing_witness :
  notifier.compute_priority (Some 70)
    (feed_poller.form_type orchestrator_examples.bofa_filing)
    (feed_poller.segment orchestrator_examples.bofa_filing)
  = "high".
Proof.
  apply (priority_of_feed_filing poller_examples.bofa_entry None
           orchestrator_examples.bofa_filing (Some 70)).
  vm_compute. reflexivity.
Defined.

(* ================================================================== *)
(** * The cleaned text of a page *)
(* ================================================================== *)

Section CleanedText.
Import Re ai_processor_chunks text_spec.
Local Open Scope nat_scope.

(** The greedy star of [\s] takes the whole run of white space. *)
Lemma star_ws_loop (i0 : nat) : ∀ fuel s i c,
  run_length s ≤ fuel →
  (fix loop (fuel : nat) (s : list ascii) (i : nat) (c : caps) : option mobj :=
     match fuel with
     | O => Some {| m_start := i0; m_end := i; m_caps := c |}
     | S fuel' =>
         first_of
           (run no_flags ws s i c
              (λ s' i' c', if Nat.ltb i i' then loop fuel' s' i' c' else None))
           (Some {| m_start := i0; m_end := i; m_caps := c |})
     end) fuel s i c
  = Some {| m_start := i0; m_end := i + run_length s; m_caps := c |}.
Proof.
  induction fuel as [|fuel IH]; intros s i c Hfuel.
  - destruct s as [|x s]; simpl in *; [by rewrite Nat.add_0_r|].
    destruct (is_space x); [lia|by rewrite Nat.add_0_r].
  - destruct s as [|x s]; simpl in Hfuel; [simpl; by rewrite Nat.add_0_r|].
    simpl. unfold cls_ok. simpl.
    destruct (is_space x) eqn:Hx; simpl; [|by rewrite Nat.add_0_r].
    assert (i <? S i = true) as -> by (apply Nat.ltb_lt; lia).
    specialize (IH s (S i) c ltac:(lia)). simpl in IH. unfold cls_ok in IH. simpl in IH.
    rewrite IH. simpl. f_equal. f_equal. lia.
Qed.

Lemma run_length_le s : run_length s ≤ List.length s.
Proof. induction s as [|x s IH]; simpl; [done|]. destruct (is_space x); lia. Qed.

Lemma run_star_ws (i0 : nat) s i c :
  run no_flags (Star ws) s i c (λ _ j c', Some {| m_start := i0; m_end := j; m_caps := c' |})
  = Some {| m_start := i0; m_end := i + run_length s; m_caps := c |}.
Proof.
  pose proof (run_length_le s) as Hle.
  exact (star_ws_loop i0 (S (List.length s)) s i c ltac:(lia)).
Qed.

Lemma match_at_spaces s i :
  match_at no_flags (plus ws) s i
  = match s with
    | x :: s' =>
        if is_space x
        then Some {| m_start := i; m_end := S i + run_length s'; m_caps := [] |}
        else None
    | [] => None
    end.
Proof.
  unfold match_at, plus. destruct s as [|x s]; [done|].
  change (run no_flags (Seq ws (Star ws)) (x :: s) i []
            (λ _ j c, Some {| m_start := i; m_end := j; m_caps := c |}))
    with (if is_space x
          then run no_flags (Star ws) s (S i) []
                 (λ _ j c, Some {| m_start := i; m_end := j; m_caps := c |})
          else None).
  destruct (is_space x); [|done]. apply run_star_ws.
Qed.

(** The search skips the characters that are not white space. *)
Lemma search_from_word w : ∀ rest i,
  forallb (λ c, negb (is_space c)) w = true →
  search_from no_flags (plus ws) (w ++ rest) i
  = search_from no_flags (plus ws) rest (i + List.length w).
Proof.
  induction w as [|c w IH]; intros rest i Hw; simpl List.length.
  - by rewrite Nat.add_0_r.
  - simpl in Hw. apply andb_true_iff in Hw as [Hc Hw]. apply negb_true_iff in Hc.
    change (search_from no_flags (plus ws) ((c :: w) ++ rest) i)
      with (first_of (match_at no_flags (plus ws) (c :: w ++ rest) i)
              (search_from no_flags (plus ws) (w ++ rest) (S i))).
    rewrite match_at_spaces, Hc. simpl. rewrite IH by done. f_equal. lia.
Qed.

Lemma search_from_space x s i :
  is_space x = true →
  search_from no_flags (plus ws) (x :: s) i
  = Some {| m_start := i; m_end := S i + run_length s; m_caps := [] |}.
Proof.
  intros Hx.
  change (search_from no_flags (plus ws) (x :: s) i)
    with (first_of (match_at no_flags (plus ws) (x :: s) i)
            (search_from no_flags (plus ws) s (S i))).
  by rewrite match_at_spaces, Hx.
Qed.

Lemma search_from_nil i : search_from no_flags (plus ws) [] i = None.
Proof. reflexivity. Qed.

(** A list is a run without white space, followed by nothing or by white space. *)
Lemma word_prefix l :
  ∃ w rest, l = w ++ rest
            ∧ forallb (λ c, negb (is_space c)) w = true
            ∧ (rest = [] ∨ ∃ x r, rest = x :: r ∧ is_space x = true).
Proof.
  induction l as [|c l (w & rest & -> & Hw & Hrest)].
  - exists [], []. auto.
  - destruct (is_space c) eqn:Hc.
    + exists [], (c :: w ++ rest). split; [done|]. split; [done|]. right. eauto.
    + exists (c :: w), rest. split; [done|]. split; [|done]. simpl. by rewrite Hc.
Qed.

Lemma skipn_run_length r : skipn (run_length r) r = lstrip_chars r.
Proof. induction r as [|c r IH]; simpl; [done|]. by destruct (is_space c). Qed.

Lemma lstrip_chars_length r : List.length (lstrip_chars r) ≤ List.length r.
Proof. induction r as [|c r IH]; simpl; [done|]. destruct (is_space c); simpl; lia. Qed.

Lemma lstrip_chars_starts r : starts_a_word (lstrip_chars r) = true.
Proof.
  induction r as [|c r IH]; simpl; [done|].
  destruct (is_space c) eqn:Hc; [done|]. simpl. by rewrite Hc.
Qed.

Lemma lstrip_chars_word m : starts_a_word m = true → lstrip_chars m = m.
Proof.
  destruct m as [|c m]; simpl; [done|]. intros Hc. apply negb_true_iff in Hc. by rewrite Hc.
Qed.

Lemma collapse_word w rest :
  forallb (λ c, negb (is_space c)) w = true →
  collapse false (w ++ rest) = w ++ collapse false rest.
Proof.
  induction w as [|c w IH]; simpl; [done|].
  intros [Hc Hw]%andb_true_iff. apply negb_true_iff in Hc. by rewrite Hc, IH.
Qed.

Lemma collapse_in_run r : collapse true r = collapse false (lstrip_chars r).
Proof.
  induction r as [|c r IH]; simpl; [done|].
  destruct (is_space c) eqn:Hc; [done|]. simpl. by rewrite Hc.
Qed.

(** The substitution of a blank for every match of [\s+]. *)
Lemma sub_spaces_loop : ∀ fuel s i,
  List.length s < fuel →
  sub_loop [" "%char] (scan no_flags (plus ws) s i fuel) s i = collapse false s.
Proof.
  induction fuel as [|fuel IH]; intros s i Hlen; [lia|].
  destruct (word_prefix s) as (w & rest & -> & Hw & Hrest).
  rewrite collapse_word by done.
  change (scan no_flags (plus ws) (w ++ rest) i (S fuel))
    with (match search_from no_flags (plus ws) (w ++ rest) i with
          | None => []
          | Some m =>
              let step := if Nat.ltb (m_start m) (m_end m)
                          then m_end m - i else S (m_end m - i) in
              m :: scan no_flags (plus ws) (skipn step (w ++ rest)) (i + step) fuel
          end).
  rewrite search_from_word by done.
  destruct Hrest as [->|(x & r & -> & Hx)].
  - rewrite search_from_nil. simpl. by rewrite app_nil_r.
  - rewrite search_from_space by done. cbv zeta. simpl m_start. simpl m_end.
    assert (i + List.length w <? S (i + List.length w + run_length r) = true) as ->
      by (apply Nat.ltb_lt; lia).
    replace (S (i + List.length w + run_length r) - i)
      with (List.length w + S (run_length r)) by lia.
    assert (skipn (List.length w + S (run_length r)) (w ++ x :: r) = lstrip_chars r) as Hskip.
    { rewrite skipn_app, skipn_all2 by lia. simpl.
      replace (List.length w + S (run_length r) - List.length w) with (S (run_length r)) by lia.
      simpl. apply skipn_run_length. }
    rewrite Hskip.
    change (sub_loop [" "%char] (?m :: ?ms) ?s0 ?j)
      with (firstn (m_start m - j) s0
            ++ [" "%char] ++ sub_loop [" "%char] ms (skipn (m_end m - j) s0) (m_end m)).
    simpl m_start. simpl m_end.
    replace (i + List.length w - i) with (List.length w) by lia.
    replace (S (i + List.length w + run_length r) - i)
      with (List.length w + S (run_length r)) by lia.
    rewrite Hskip.
    replace (S (i + List.length w + run_length r))
      with (i + (List.length w + S (run_length r))) by lia.
    rewrite IH.
    + rewrite firstn_app, firstn_all, Nat.sub_diag. simpl. rewrite app_nil_r, Hx.
      by rewrite collapse_in_run.
    + pose proof (lstrip_chars_length r). rewrite length_app in Hlen. simpl in Hlen. lia.
Qed.

Lemma sub_spaces s :
  sub no_flags (plus ws) " " s = text (collapse false (chars s)).
Proof.
  unfold sub, finditer. f_equal.
  apply sub_spaces_loop. rewrite length_chars. lia.
Qed.

Lemma lstrip_collapse l :
  lstrip_chars (collapse false l) = collapse false (lstrip_chars l).
Proof.
  assert (∀ m, starts_a_word m = true → lstrip_chars (collapse false m) = collapse false m)
    as Hword.
  { intros [|c m]; simpl; [done|]. intros Hc. apply negb_true_iff in Hc.
    rewrite Hc. simpl. by rewrite Hc. }
  destruct l as [|c l]; simpl; [done|].
  destruct (is_space c) eqn:Hc; simpl.
  - rewrite collapse_in_run. apply Hword, lstrip_chars_starts.
  - by rewrite Hc.
Qed.

Lemma split_words_lstrip l : split_words [] (lstrip_chars l) = split_words [] l.
Proof. induction l as [|c l IH]; simpl; [done|]. destruct (is_space c) eqn:Hc; [done|]. simpl. by rewrite Hc. Qed.

Lemma join_chars_nil ws :
  Forall (λ w, is_word_run w = true) ws → join_chars ws = [] → ws = [].
Proof.
  intros Hws. destruct Hws as [|w ws Hw Hws]; [done|].
  apply is_word_run_spec in Hw as [Hne _]. simpl.
  destruct ws; [done|]. by destruct w.
Qed.

Lemma join_chars_cons w ws :
  ws ≠ [] → join_chars (w :: ws) = w ++ " "%char :: join_chars ws.
Proof. by destruct ws. Qed.

Lemma rev_word_lstrip w :
  forallb (λ c, negb (is_space c)) w = true → lstrip_chars (rev w) = rev w.
Proof.
  intros Hw. apply lstrip_chars_word.
  rewrite <- forallb_rev_run in Hw. by destruct (rev w) as [|c r]; [|apply andb_true_iff in Hw as [? _]].
Qed.

Lemma rstrip_word w :
  forallb (λ c, negb (is_space c)) w = true → rev (lstrip_chars (rev w)) = w.
Proof. intros Hw. by rewrite rev_word_lstrip, rev_involutive. Qed.

Lemma split_words_end w : w ≠ [] → split_words (rev w) [] = [w].
Proof.
  intros Hne. simpl. destruct (rev w) as [|a t] eqn:Hr.
  - apply (f_equal (@rev ascii)) in Hr. rewrite rev_involutive in Hr. done.
  - by rewrite <- Hr, rev_involutive.
Qed.

Lemma split_words_flush w x r :
  is_space x = true → w ≠ [] → split_words (rev w) (x :: r) = w :: split_words [] r.
Proof.
  intros Hx Hne. simpl. rewrite Hx. destruct (rev w) as [|a t] eqn:Hr.
  - apply (f_equal (@rev ascii)) in Hr. rewrite rev_involutive in Hr. done.
  - by rewrite <- Hr, rev_involutive.
Qed.

(** With its white space collapsed and the trailing blank removed, a
    text that starts with a word is its words joined by blanks. *)
Lemma collapse_rstrip : ∀ n m,
  List.length m ≤ n → starts_a_word m = true →
  rev (lstrip_chars (rev (collapse false m))) = join_chars (split_words [] m).
Proof.
  induction n as [|n IH]; intros m Hlen Hm.
  { destruct m; [done|simpl in Hlen; lia]. }
  destruct (word_prefix m) as (w & rest & -> & Hw & Hrest).
  destruct w as [|c w].
  { destruct Hrest as [->|(x & r & -> & Hx)]; [done|]. simpl in Hm. by rewrite Hx in Hm. }
  assert (c :: w ≠ []) as Hne by done.
  revert Hne Hw Hlen. generalize (c :: w). clear c w Hm. intros v Hne Hv Hlen.
  rewrite collapse_word by done. rewrite (split_words_run v [] rest Hv), app_nil_r.
  destruct Hrest as [->|(x & r & -> & Hx)].
  - rewrite split_words_end by done. simpl. rewrite app_nil_r. by apply rstrip_word.
  - rewrite split_words_flush by done.
    change (collapse false (x :: r))
      with (if is_space x then " "%char :: collapse true r else x :: collapse false r).
    rewrite Hx, collapse_in_run, <- (split_words_lstrip r).
    assert (Forall (λ u, is_word_run u = true) (split_words [] (lstrip_chars r))) as Hruns.
    { apply Forall_forall. intros u Hu. exact (split_words_runs _ [] u eq_refl Hu). }
    assert (rev (lstrip_chars (rev (collapse false (lstrip_chars r))))
            = join_chars (split_words [] (lstrip_chars r))) as HX.
    { apply IH; [|apply lstrip_chars_starts].
      pose proof (lstrip_chars_length r). rewrite length_app in Hlen. simpl in Hlen. lia. }
    revert Hruns HX. generalize (split_words [] (lstrip_chars r)).
    generalize (collapse false (lstrip_chars r)). intros X ws2 Hruns HX.
    rewrite rev_app_distr. simpl rev. rewrite <- app_assoc. simpl app.
    rewrite lstrip_chars_app.
    destruct (lstrip_chars (rev X)) as [|a t] eqn:Hstrip.
    + simpl in HX. symmetry in HX. apply join_chars_nil in HX; [|done]. subst ws2.
      change (lstrip_chars (" "%char :: rev v)) with (lstrip_chars (rev v)).
      simpl join_chars. by apply rstrip_word.
    + assert (ws2 ≠ []) as Hws2.
      { intros ->. simpl in HX. by destruct (rev t). }
      rewrite join_chars_cons by done. rewrite <- HX.
      rewrite rev_app_distr. simpl rev at 1. rewrite rev_involutive, <- app_assoc. done.
Qed.

Lemma join_chars_text ws : text (join_chars ws) = join " " (map text ws).
Proof.
  induction ws as [|w ws IH]; [done|].
  destruct ws as [|w2 ws]; [done|].
  change (join_chars (w :: w2 :: ws)) with (w ++ " "%char :: join_chars (w2 :: ws)).
  change (join " " (map text (w :: w2 :: ws)))
    with (String.append (text w) (String.append " " (join " " (map text (w2 :: ws))))).
  rewrite <- IH, <- (text_chars (String.append _ _)). f_equal.
  rewrite !chars_append, !chars_text. done.
Qed.

(** The cleaned text is the words of the page joined by single blanks. *)
Lemma squeeze_words s : squeeze s = join " " (split_whitespace s).
Proof.
  unfold squeeze, strip, split_whitespace. rewrite sub_spaces, chars_text.
  rewrite lstrip_collapse, <- join_chars_text, <- split_words_lstrip. f_equal.
  apply (collapse_rstrip (List.length (lstrip_chars (chars s)))); [done|].
  apply lstrip_chars_starts.
Qed.

(** X25.  The text that the parsers keep is the words of the page
    joined by single blanks: cleaning collapses every run of white
    space, line breaks and tabs included, to one blank and removes
    it at both ends, so that cleaning twice changes nothing and no
    word is lost or split.  This is the text excerpt of the 8-K, the
    13D/13G and the 10-Q parser and of the generic fallback. *)
Theorem cleaned_text_is_its_words (s raw : string) (soup_text : string → string)
    (soup_ix_tags : string → list (option string * string)) :
  squeeze s = join " " (split_whitespace s)
  ∧ squeeze (squeeze s) = squeeze s
  ∧ split_whitespace (squeeze s) = split_whitespace s
  ∧ fst (form_8k.parse_8k soup_text raw) = join " " (split_whitespace (soup_text raw))
  ∧ fst (form_13d_13g.parse_13d_13g soup_text raw)
    = join " " (split_whitespace (soup_text raw))
  ∧ fst (form_10q.parse_10q soup_ix_tags soup_text raw)
    = join " " (split_whitespace (soup_text raw))
  ∧ filing_fetcher.strip_markup raw
    = join " " (split_whitespace
                  (sub no_flags (cat [Chr "<"; plus (NotCls (one_of ">")); Chr ">"]) " " raw)).
Proof.
  assert (split_whitespace (squeeze s) = split_whitespace s) as Hsame.
  { rewrite squeeze_words. unfold split_whitespace at 1 3. f_equal.
    apply split_join, Forall_forall. intros u Hu.
    exact (split_words_runs _ [] u eq_refl Hu). }
  split; [apply squeeze_words|]. split; [by rewrite (squeeze_words (squeeze s)), Hsame, squeeze_words|].
  split; [exact Hsame|].
  repeat split; apply squeeze_words.
Qed.

End CleanedText.

(* ================================================================== *)
(** * The fields of a prospectus *)
(* ================================================================== *)

Section Prospectus.
Import form_s1_s3 prospectus_spec.

Lemma float_of_decimal_error s e : Py.float_of_decimal s = inl e → e = ValueError.
Proof.
  unfold Py.float_of_decimal.
  destruct (Py.span is_digit (chars s)) as [ip rest].
  destruct rest as [|c rest'].
  - destruct ip; [by intros [= <-]|done].
  - destruct (Ascii.eqb c "."); [|by intros [= <-]].
    destruct (Py.span is_digit rest') as [fp rest''].
    destruct rest''; [|by intros [= <-]].
    destruct (ip ++ fp); [by intros [= <-]|done].
Qed.

Lemma parse_dollar_amount_error txt m e :
  _parse_dollar_amount txt m = inl e → e = ValueError.
Proof.
  unfold _parse_dollar_amount, number_of.
  destruct (Py.float_of_decimal _) as [e'|amount] eqn:Hn; simpl.
  - intros [= <-]. by eapply float_of_decimal_error.
  - by repeat destruct (String.eqb _ _).
Qed.

Lemma map_result_error {A B} (f : A → result B) l e :
  (∀ x e', f x = inl e' → e' = ValueError) →
  map_result f l = inl e → e = ValueError.
Proof.
  intros Hf. induction l as [|x l IH]; simpl; [done|].
  destruct (f x) as [e'|y] eqn:Hx; simpl; [intros [= <-]; by eapply Hf|].
  destruct (map_result f l) as [e'|ys]; simpl; [|done].
  intros [= <-]. by apply IH.
Qed.

Lemma matched_purposes (matches : string * Re.regex → bool) kvs p :
  p ∈ omap (λ kv, if matches kv then Some (fst kv) else None) kvs → p ∈ map fst kvs.
Proof.
  intros (kv & Hkv & Hp)%list_elem_of_omap.
  destruct (matches kv); [|done]. injection Hp as <-.
  apply list_elem_of_fmap. eauto.
Qed.

(** X26.  The prospectus parser raises nothing but a ValueError, the
    one of a dollar amount or share count without a digit.  When it
    returns, the excerpt is the cleaned text cut at 20000 characters;
    the offering type is one of four labels, never the initial value
    unknown, and follows the precedence at-the-market, then shelf
    registration, then secondary offering, then firm commitment, in
    agreement with the two flags; the use of proceeds is never empty:
    it lists the purposes found among growth, debt and working
    capital, or the single entry unspecified. *)
Theorem parse_s1_s3_outcome (soup_text : string → string) (raw_html : string) :
  match parse_s1_s3 soup_text raw_html with
  | inl e => e = ValueError
  | inr (excerpt, parsed_data) =>
      excerpt = slice_to 20000 (squeeze (soup_text raw_html))
      ∧ (String.length excerpt ≤ 20000)%nat
      ∧ ∃ (is_atm is_shelf : bool) (offering_type : string) (proceeds : list string),
          dict_get parsed_data "is_atm" = Some (PyBool is_atm)
          ∧ dict_get parsed_data "is_shelf" = Some (PyBool is_shelf)
          ∧ dict_get parsed_data "offering_type" = Some (PyStr offering_type)
          ∧ dict_get parsed_data "use_of_proceeds" = Some (PyList (map PyStr proceeds))
          ∧ offering_type ∈ offering_types
          ∧ (offering_type = "ATM (at-the-market)" ↔ is_atm = true)
          ∧ (offering_type = "shelf registration" ↔ is_atm = false ∧ is_shelf = true)
          ∧ proceeds ≠ []
          ∧ (proceeds = ["unspecified"] ∨ ∀ p, p ∈ proceeds → p ∈ purposes)
  end.
Proof.
  unfold parse_s1_s3.
  set (txt := squeeze (soup_text raw_html)).
  destruct (map_result (_parse_dollar_amount txt) _) as [e|amounts] eqn:Hamounts;
    unfold bind at 1.
  { eapply map_result_error; [|exact Hamounts]. apply parse_dollar_amount_error. }
  destruct (map_result number_of _) as [e|shares] eqn:Hshares; unfold bind at 1.
  { eapply map_result_error; [|exact Hshares].
    intros x e'. unfold number_of. apply float_of_decimal_error. }
  split; [done|]. split; [apply length_slice_to|].
  match goal with
  | |- context [form_13d_13g.is_some (Re.re_search Re.ignorecase _ATM_RE ?cover)] =>
      generalize (form_13d_13g.is_some (Re.re_search Re.ignorecase _ATM_RE cover));
      generalize (form_13d_13g.is_some (Re.re_search Re.ignorecase _SHELF_RE cover));
      generalize (form_13d_13g.is_some (Re.re_search Re.ignorecase _SECONDARY_RE cover))
  end.
  intros is_secondary is_shelf is_atm.
  pose proof (matched_purposes
                (λ kv, form_13d_13g.is_some (Re.re_search Re.ignorecase (snd kv) txt))
                PURPOSE_KEYWORDS) as Hfound.
  cbv beta in Hfound. change (map fst PURPOSE_KEYWORDS) with purposes in Hfound.
  revert Hfound.
  generalize (omap (λ kv : string * Re.regex,
                      if form_13d_13g.is_some (Re.re_search Re.ignorecase (snd kv) txt)
                      then Some (fst kv) else None) PURPOSE_KEYWORDS).
  intros found Hfound.
  exists is_atm, is_shelf, (offering_label is_atm is_shelf is_secondary),
    (match found with [] => ["unspecified"] | _ => found end).
  split; [reflexivity|]. split; [reflexivity|]. split; [reflexivity|].
  split; [reflexivity|].
  split; [|split; [|split; [|split]]].
  - unfold offering_types, offering_label.
    destruct is_atm, is_shelf, is_secondary; simpl;
      rewrite !elem_of_cons; auto 6.
  - unfold offering_label. destruct is_atm, is_shelf, is_secondary; simpl; split; done.
  - unfold offering_label. destruct is_atm, is_shelf, is_secondary; simpl; split;
      try done; intros [? ?]; done.
  - by destruct found.
  - destruct found as [|p0 found]; [by left|right]. exact Hfound.
Qed.

End Prospectus.

(* ================================================================== *)
(** * At most once *)
(* ================================================================== *)

Section AtMostOnce.
Import feed_poller dedup_spec pipeline_spec.

Variable fetch_filing_document : string → string → string * pydict.
Variable summarise_filing :
  string → string → string → option string → pydict → string → result pydict.
Variable broadcast_fn : bool.

Abbreviation task := (_process_filing fetch_filing_document summarise_filing broadcast_fn).
Abbreviation turn := (poll_cycle fetch_filing_document summarise_filing broadcast_fn).
Abbreviation reaches := (later fetch_filing_document summarise_filing broadcast_fn).

Lemma filter_NoDup_map {A B} (f : A → B) (p : A → bool) (l : list A) :
  NoDup (map f l) → NoDup (map f (List.filter p l)).
Proof.
  induction l as [|x l IH]; simpl; [done|].
  intros [Hx Hl]%NoDup_cons. destruct (p x); simpl; [|by apply IH].
  apply NoDup_cons. split; [|by apply IH].
  intros (y & Hy & Hin)%list_elem_of_fmap. apply Hx.
  apply list_elem_of_fmap. exists y. split; [done|].
  apply list_elem_of_In in Hin. apply filter_In in Hin as [Hin _].
  by apply list_elem_of_In.
Qed.

(** The rows of a state stay in every state reached from it. *)
Lemma later_rows st st' row :
  reaches st st' → row ∈ filings st → row ∈ filings st'.
Proof.
  induction 1 as [st|st st' e _ IH|st st' feed _ IH]; intros Hrow; [done| |].
  - destruct (fold_process_outcome fetch_filing_document summarise_filing broadcast_fn
                [e] st') as (_ & _ & rows & evs & Hr & _).
    simpl in Hr. rewrite Hr. apply elem_of_app. left. by apply IH.
  - unfold poll_cycle. destruct (_dedup _ _) as [new_entries ledger]. simpl.
    destruct (fold_process_outcome fetch_filing_document summarise_filing broadcast_fn
                new_entries (with_ledger ledger st')) as (_ & _ & rows & evs & Hr & _).
    rewrite Hr. simpl. apply elem_of_app. left. by apply IH.
Qed.

(** X27.  Each accession number is handed to [_process_filing] at
    most once: the filings that a turn of the loop hands to its tasks
    carry distinct accession numbers, and no later turn, in any state
    that the loop reaches afterwards and whatever the feed lists then,
    hands over an accession number that an earlier turn handed
    over. *)
Theorem handed_over_at_most_once (feed feed' : result (list FeedEntry))
    (st st' : state) (e : Filing) :
  e ∈ fst (turn feed st) →
  reaches (snd (turn feed st)) st' →
  NoDup (map accession_number (fst (turn feed st)))
  ∧ accession_number e ∉ map accession_number (fst (turn feed' st')).
Proof.
  intros Hnew Hlater. split.
  - unfold poll_cycle.
    pose proof (dedup_unfold (_poll_once (cik_ticker st) feed) (seen_filings st)) as Hd.
    destruct (_dedup _ _) as [new_entries ledger]. simpl in *.
    injection Hd as -> _. apply filter_NoDup_map, first_seen_NoDup.
  - assert (accession_number e ∈ seen_filings (snd (turn feed st))) as Hin.
    { revert Hnew. unfold poll_cycle.
      pose proof (dedup_new_in_new_ledger (_poll_once (cik_ticker st) feed)
                    (seen_filings st) e) as Hd.
      destruct (_dedup _ _) as [new_entries ledger]. simpl in *.
      intros Hnew. rewrite fold_process_ledger. simpl. by apply Hd. }
    intros (e' & Hacc & He')%list_elem_of_fmap.
    apply poll_cycle_new in He'. apply later_ledger in Hlater.
    rewrite <- Hacc in He'. set_solver.
Qed.

(** X28.  A persisted filing is never processed again: once the
    filings table holds a row with the accession number of a filing,
    a task for that filing, in any state that the loop reaches
    afterwards, returns at once and changes nothing; it adds no row
    and broadcasts no event. *)
Theorem persisted_filing_is_skipped (st st' : state) (e : Filing) :
  accession_number e ∈ map row_accession_number (filings st) →
  reaches st st' →
  task e st' = (inr tt, st').
Proof.
  intros (row & Hacc & Hrow)%list_elem_of_fmap Hlater.
  apply (later_rows _ _ _ Hlater) in Hrow.
  unfold _process_filing. case_bool_decide as Hguard; [done|].
  unfold process_body. simpl filings.
  assert (existsb (λ r, String.eqb (row_accession_number r) (accession_number e))
            (filings st') = true) as ->.
  { apply existsb_exists. exists row. split; [by apply list_elem_of_In|].
    rewrite Hacc. apply String.eqb_refl. }
  simpl. f_equal. destruct st'. unfold with_processing. simpl in *. f_equal. set_solver.
Qed.

End AtMostOnce.

(** The entry of the examples, listed again by the next poll. *)
Lemma handed_over_at_most_once_witness :
  let turn := feed_poller.poll_cycle pipeline_examples.online_fetch
                orchestrator_examples.service_down true
                (inr [poller_examples.bofa_entry]) in
  "0001193125-26-055710"
  ∉ map feed_poller.accession_number
      (fst (turn (snd (turn orchestrator_examples.initial_state)))).
Proof.
  intros turn.
  refine (proj2 (handed_over_at_most_once pipeline_examples.online_fetch
                   orchestrator_examples.service_down true
                   (inr [poller_examples.bofa_entry]) (inr [poller_examples.bofa_entry])
                   orchestrator_examples.initial_state _
                   orchestrator_examples.bofa_filing _ _)).
  - vm_compute. left.
  - apply feed_poller.later_now.
Defined.

(** The example filing, processed a second time. *)
Lemma persisted_filing_is_skipped_witness :
  let task := feed_poller._process_filing pipeline_examples.online_fetch
                orchestrator_examples.service_down true
                orchestrator_examples.bofa_filing in
  task (snd (task orchestrator_examples.initial_state))
  = (inr tt, snd (task orchestrator_examples.initial_state)).
Proof.
  intros task.
  apply (persisted_filing_is_skipped pipeline_examples.online_fetch
           orchestrator_examples.service_down true
           (snd (task orchestrator_examples.initial_state))).
  - vm_compute. left.
  - apply feed_poller.later_now.
Defined.

(* ================================================================== *)
(** * What the matcher returns is a match *)
(* ================================================================== *)

Section MatcherSoundness.
Import Re regex_spec.
Local Open Scope nat_scope.

Variable fl : flags.

Lemma run_sound r : ∀ A (k : list ascii → nat → caps → option A) s i c a,
  run fl r s i c k = Some a →
  ∃ s' i' c', matches fl r s i c s' i' c' ∧ k s' i' c' = Some a.
Proof.
  induction r as [|x|p|p| |r1 IH1 r2 IH2|r1 IH1 r2 IH2|r1 IH1|r1 IH1|n r1 IH1| |];
    intros A k s i c a Hrun.
  - exists s, i, c. split; [apply matches_eps|exact Hrun].
  - simpl in Hrun. destruct s as [|y s]; [done|].
    destruct (chr_ok fl x y) eqn:Hok; [|done].
    exists s, (S i), c. split; [by apply matches_chr|exact Hrun].
  - simpl in Hrun. destruct s as [|y s]; [done|].
    destruct (cls_ok fl p y) eqn:Hok; [|done].
    exists s, (S i), c. split; [by apply matches_cls|exact Hrun].
  - simpl in Hrun. destruct s as [|y s]; [done|].
    destruct (cls_ok fl p y) eqn:Hok; [done|].
    exists s, (S i), c. split; [by apply matches_notcls|exact Hrun].
  - simpl in Hrun. destruct s as [|y s]; [done|].
    destruct (any_ok fl y) eqn:Hok; [|done].
    exists s, (S i), c. split; [by apply matches_any|exact Hrun].
  - simpl in Hrun. apply IH1 in Hrun as (s1 & i1 & c1 & H1 & Hrun).
    apply IH2 in Hrun as (s2 & i2 & c2 & H2 & Hk).
    exists s2, i2, c2. split; [by eapply matches_seq|exact Hk].
  - simpl in Hrun. destruct (run fl r1 s i c k) as [a'|] eqn:Hleft.
    + injection Hrun as ->. apply IH1 in Hleft as (s1 & i1 & c1 & H1 & Hk).
      exists s1, i1, c1. split; [by apply matches_alt_l|exact Hk].
    + simpl in Hrun. apply IH2 in Hrun as (s1 & i1 & c1 & H1 & Hk).
      exists s1, i1, c1. split; [by apply matches_alt_r|exact Hk].
  - assert (∀ fuel s i c,
      (fix loop (fuel : nat) (s : list ascii) (i : nat) (c : caps) : option A :=
         match fuel with
         | O => k s i c
         | S fuel' =>
             first_of
               (run fl r1 s i c
                  (λ s' i' c', if Nat.ltb i i' then loop fuel' s' i' c' else None))
               (k s i c)
         end) fuel s i c = Some a →
      ∃ s' i' c', matches fl (Star r1) s i c s' i' c' ∧ k s' i' c' = Some a) as Hloop.
    { clear s i c Hrun. induction fuel as [|fuel IHf]; intros s i c Hrun.
      - exists s, i, c. split; [apply matches_star_nil|exact Hrun].
      - match type of Hrun with first_of ?left _ = _ => destruct left as [a'|] eqn:Hleft end.
        + injection Hrun as ->.
          apply IH1 in Hleft as (s1 & i1 & c1 & H1 & Hk).
          destruct (Nat.ltb i i1); [|done].
          apply IHf in Hk as (s2 & i2 & c2 & H2 & Hk).
          exists s2, i2, c2. split; [by eapply matches_star_cons|exact Hk].
        + exists s, i, c. split; [apply matches_star_nil|exact Hrun]. }
    exact (Hloop (S (List.length s)) s i c Hrun).
  - assert (∀ fuel s i c,
      (fix loop (fuel : nat) (s : list ascii) (i : nat) (c : caps) : option A :=
         match fuel with
         | O => k s i c
         | S fuel' =>
             first_of
               (k s i c)
               (run fl r1 s i c
                  (λ s' i' c', if Nat.ltb i i' then loop fuel' s' i' c' else None))
         end) fuel s i c = Some a →
      ∃ s' i' c', matches fl (LazyStar r1) s i c s' i' c' ∧ k s' i' c' = Some a) as Hloop.
    { clear s i c Hrun. induction fuel as [|fuel IHf]; intros s i c Hrun.
      - exists s, i, c. split; [apply matches_lazy_nil|exact Hrun].
      - destruct (k s i c) as [a'|] eqn:Hstop.
        + exists s, i, c. split; [apply matches_lazy_nil|].
          rewrite Hstop. exact Hrun.
        + match type of Hrun with first_of _ ?right = _ => change (right = Some a) in Hrun end.
          apply IH1 in Hrun as (s1 & i1 & c1 & H1 & Hk).
          destruct (Nat.ltb i i1); [|done].
          apply IHf in Hk as (s2 & i2 & c2 & H2 & Hk).
          exists s2, i2, c2. split; [by eapply matches_lazy_cons|exact Hk]. }
    exact (Hloop (S (List.length s)) s i c Hrun).
  - simpl in Hrun. apply IH1 in Hrun as (s1 & i1 & c1 & H1 & Hk).
    exists s1, i1, ((n, (i, i1)) :: c1). split; [by apply matches_grp|exact Hk].
  - simpl in Hrun. destruct (Nat.eqb_spec i 0) as [->|]; [|done].
    exists s, 0, c. split; [apply matches_bol|exact Hrun].
  - simpl in Hrun. destruct s as [|y [|z s]].
    + exists [], i, c. split; [apply matches_eol_end|exact Hrun].
    + destruct (Ascii.eqb_spec y "010") as [->|]; [|done].
      exists ["010"%char], i, c. split; [apply matches_eol_newline|exact Hrun].
    + done.
Qed.

(** A match consumes a prefix of the input, and only adds captures. *)
Lemma matches_span r s i c s' i' c' :
  matches fl r s i c s' i' c' →
  ∃ w pushed, s = w ++ s' ∧ i' = i + List.length w ∧ c' = pushed ++ c.
Proof.
  induction 1 as
    [s i c|a x s i c Hok|p x s i c Hok|p x s i c Hok|x s i c Hok
    |r1 r2 s i c s1 i1 c1 s2 i2 c2 _ IH1 _ IH2
    |r1 r2 s i c s1 i1 c1 _ IH|r1 r2 s i c s1 i1 c1 _ IH
    |r s i c
    |r s i c s1 i1 c1 s2 i2 c2 _ IH1 _ IH2
    |r s i c
    |r s i c s1 i1 c1 s2 i2 c2 _ IH1 _ IH2
    |n r s i c s1 i1 c1 _ IH1
    |s c|i c|i c].
  - exists [], []. simpl. split; [done|]. split; [lia|done].
  - exists [x], []. simpl. split; [done|]. split; [lia|done].
  - exists [x], []. simpl. split; [done|]. split; [lia|done].
  - exists [x], []. simpl. split; [done|]. split; [lia|done].
  - exists [x], []. simpl. split; [done|]. split; [lia|done].
  - destruct IH1 as (w1 & p1 & E1 & E2 & E3), IH2 as (w2 & p2 & E4 & E5 & E6). subst.
    exists (w1 ++ w2), (p2 ++ p1). rewrite <- !app_assoc, length_app.
    split; [done|]. split; [lia|done].
  - exact IH.
  - exact IH.
  - exists [], []. simpl. split; [done|]. split; [lia|done].
  - destruct IH1 as (w1 & p1 & E1 & E2 & E3), IH2 as (w2 & p2 & E4 & E5 & E6). subst.
    exists (w1 ++ w2), (p2 ++ p1). rewrite <- !app_assoc, length_app.
    split; [done|]. split; [lia|done].
  - exists [], []. simpl. split; [done|]. split; [lia|done].
  - destruct IH1 as (w1 & p1 & E1 & E2 & E3), IH2 as (w2 & p2 & E4 & E5 & E6). subst.
    exists (w1 ++ w2), (p2 ++ p1). rewrite <- !app_assoc, length_app.
    split; [done|]. split; [lia|done].
  - destruct IH1 as (w1 & p1 & E1 & E2 & E3). subst.
    exists w1, ((n, (i, i + List.length w1)) :: p1). split; [done|]. split; [done|done].
  - exists [], []. simpl. split; [done|]. split; [lia|done].
  - exists [], []. simpl. split; [done|]. split; [lia|done].
  - exists [], []. simpl. split; [done|]. split; [lia|done].
Qed.

Lemma skipn_shift (full w rest : list ascii) i :
  skipn i full = w ++ rest → skipn (i + List.length w) full = rest.
Proof.
  intros H. rewrite Nat.add_comm, <- skipn_skipn, H.
  by rewrite skipn_app, skipn_all, Nat.sub_diag.
Qed.

(** Every capture of a match is the span of a match of the body of a
    group of the pattern. *)
Lemma capture_sound (full : list ascii) r s i c s' i' c' :
  matches fl r s i c s' i' c' →
  s = skipn i full →
  ∀ n a b, In (n, (a, b)) c' →
    In (n, (a, b)) c
    ∨ ∃ body c1 c2,
        In (n, body) (groups r)
        ∧ matches fl body (skipn a full) a c1 (skipn b full) b c2.
Proof.
  induction 1 as
    [s i c|x0 x s i c Hok|p x s i c Hok|p x s i c Hok|x s i c Hok
    |r1 r2 s i c s1 i1 c1 s2 i2 c2 H1 IH1 H2 IH2
    |r1 r2 s i c s1 i1 c1 H1 IH1|r1 r2 s i c s1 i1 c1 H1 IH1
    |r s i c
    |r s i c s1 i1 c1 s2 i2 c2 H1 IH1 H2 IH2
    |r s i c
    |r s i c s1 i1 c1 s2 i2 c2 H1 IH1 H2 IH2
    |n r s i c s1 i1 c1 H1 IH1
    |s c|i c|i c]; intros Hs m a b Hin; try (by left).
  - destruct (matches_span _ _ _ _ _ _ _ H1) as (w1 & p1 & Hw & -> & ->).
    assert (s1 = skipn (i + List.length w1) full) as Hs1.
    { symmetry. apply skipn_shift. by rewrite <- Hs. }
    destruct (IH2 Hs1 m a b Hin) as [Hold|(body & c3 & c4 & Hg & Hm)].
    + destruct (IH1 Hs m a b Hold) as [?|(body & c3 & c4 & Hg & Hm)]; [by left|right].
      exists body, c3, c4. split; [|done]. simpl. apply in_or_app. by left.
    + right. exists body, c3, c4. split; [|done]. simpl. apply in_or_app. by right.
  - destruct (IH1 Hs m a b Hin) as [?|(body & c3 & c4 & Hg & Hm)]; [by left|right].
    exists body, c3, c4. split; [|done]. simpl. apply in_or_app. by left.
  - destruct (IH1 Hs m a b Hin) as [?|(body & c3 & c4 & Hg & Hm)]; [by left|right].
    exists body, c3, c4. split; [|done]. simpl. apply in_or_app. by right.
  - destruct (matches_span _ _ _ _ _ _ _ H1) as (w1 & p1 & Hw & -> & ->).
    assert (s1 = skipn (i + List.length w1) full) as Hs1.
    { symmetry. apply skipn_shift. by rewrite <- Hs. }
    destruct (IH2 Hs1 m a b Hin) as [Hold|(body & c3 & c4 & Hg & Hm)].
    + destruct (IH1 Hs m a b Hold) as [?|(body & c3 & c4 & Hg & Hm)]; [by left|right].
      by exists body, c3, c4.
    + right. by exists body, c3, c4.
  - destruct (matches_span _ _ _ _ _ _ _ H1) as (w1 & p1 & Hw & -> & ->).
    assert (s1 = skipn (i + List.length w1) full) as Hs1.
    { symmetry. apply skipn_shift. by rewrite <- Hs. }
    destruct (IH2 Hs1 m a b Hin) as [Hold|(body & c3 & c4 & Hg & Hm)].
    + destruct (IH1 Hs m a b Hold) as [?|(body & c3 & c4 & Hg & Hm)]; [by left|right].
      by exists body, c3, c4.
    + right. by exists body, c3, c4.
  - destruct Hin as [[= <- <- <-]|Hin].
    + right. exists r, c, c1. split; [by left|].
      destruct (matches_span _ _ _ _ _ _ _ H1) as (w1 & p1 & Hw & Hi & _).
      assert (s1 = skipn i1 full) as <-.
      { symmetry. rewrite Hi. apply skipn_shift. by rewrite <- Hs. }
      by rewrite <- Hs.
    + destruct (IH1 Hs m a b Hin) as [?|(body & c3 & c4 & Hg & Hm)]; [by left|right].
      exists body, c3, c4. split; [by right|done].
Qed.

Lemma cap_lookup_In c n a b : cap_lookup c n = Some (a, b) → In (n, (a, b)) c.
Proof.
  induction c as [|[n' se] c IH]; simpl; [done|].
  destruct (Nat.eqb_spec n' n) as [->|_]; [intros [= ->]; by left|].
  intros H. right. by apply IH.
Qed.

Lemma cap_lookup_app pushed c n :
  cap_lookup c n ≠ None → cap_lookup (pushed ++ c) n ≠ None.
Proof.
  intros H. induction pushed as [|[n' se] pushed IH]; simpl; [done|].
  by destruct (Nat.eqb n' n).
Qed.

(** A group outside every alternative and repetition is captured. *)
Lemma sure_groups_captured r s i c s' i' c' n :
  matches fl r s i c s' i' c' → In n (sure_groups r) → cap_lookup c' n ≠ None.
Proof.
  induction 1 as
    [s i c|x0 x s i c Hok|p x s i c Hok|p x s i c Hok|x s i c Hok
    |r1 r2 s i c s1 i1 c1 s2 i2 c2 H1 IH1 H2 IH2
    |r1 r2 s i c s1 i1 c1 H1 IH1|r1 r2 s i c s1 i1 c1 H1 IH1
    |r s i c
    |r s i c s1 i1 c1 s2 i2 c2 H1 IH1 H2 IH2
    |r s i c
    |r s i c s1 i1 c1 s2 i2 c2 H1 IH1 H2 IH2
    |m r s i c s1 i1 c1 H1 IH1
    |s c|i c|i c]; simpl; try done.
  - intros [Hn|Hn]%in_app_or; [|by apply IH2].
    destruct (matches_span _ _ _ _ _ _ _ H2) as (w2 & p2 & _ & _ & ->).
    by apply cap_lookup_app, IH1.
  - intros [->|Hn]; [by rewrite Nat.eqb_refl|].
    destruct (Nat.eqb m n); [done|by apply IH1].
Qed.

Lemma matches_consumes r s i c s' i' c' :
  matches fl r s i c s' i' c' → ∃ w, s = w ++ s' ∧ consumes fl r w.
Proof.
  induction 1 as
    [s i c|a x s i c Hok|p x s i c Hok|p x s i c Hok|x s i c Hok
    |r1 r2 s i c s1 i1 c1 s2 i2 c2 _ IH1 _ IH2
    |r1 r2 s i c s1 i1 c1 _ IH|r1 r2 s i c s1 i1 c1 _ IH
    |r s i c
    |r s i c s1 i1 c1 s2 i2 c2 _ IH1 _ IH2
    |r s i c
    |r s i c s1 i1 c1 s2 i2 c2 _ IH1 _ IH2
    |n r s i c s1 i1 c1 _ IH1
    |s c|i c|i c].
  - exists []. split; [done|apply consumes_eps].
  - exists [x]. split; [done|by apply consumes_chr].
  - exists [x]. split; [done|by apply consumes_cls].
  - exists [x]. split; [done|by apply consumes_notcls].
  - exists [x]. split; [done|by apply consumes_any].
  - destruct IH1 as (w1 & -> & C1), IH2 as (w2 & -> & C2).
    exists (w1 ++ w2). split; [by rewrite app_assoc|by apply consumes_seq].
  - destruct IH as (w & -> & C). exists w. split; [done|by apply consumes_alt_l].
  - destruct IH as (w & -> & C). exists w. split; [done|by apply consumes_alt_r].
  - exists []. split; [done|apply consumes_star_nil].
  - destruct IH1 as (w1 & -> & C1), IH2 as (w2 & -> & C2).
    exists (w1 ++ w2). split; [by rewrite app_assoc|by apply consumes_star_cons].
  - exists []. split; [done|apply consumes_lazy_nil].
  - destruct IH1 as (w1 & -> & C1), IH2 as (w2 & -> & C2).
    exists (w1 ++ w2). split; [by rewrite app_assoc|by apply consumes_lazy_cons].
  - destruct IH1 as (w1 & -> & C1). exists w1. split; [done|by apply consumes_grp].
  - exists []. split; [done|apply consumes_bol].
  - exists []. split; [done|apply consumes_eol].
  - exists []. split; [done|apply consumes_eol].
Qed.

(** The text of a group of a match: a string that the body of a
    group of that number consumes. *)
Lemma match_at_group r (str : string) j m n g :
  match_at fl r (skipn j (chars str)) j = Some m →
  (0 < n)%nat →
  group str m n = Some g →
  ∃ body w, In (n, body) (groups r) ∧ consumes fl body w ∧ g = text w.
Proof.
  unfold match_at. intros Hrun Hn Hg.
  apply run_sound in Hrun as (s' & i' & c' & Hm & [= <-]).
  destruct n as [|n]; [lia|]. simpl in Hg.
  destruct (cap_lookup c' (S n)) as [[a b]|] eqn:Hcap; [|done].
  injection Hg as <-. apply cap_lookup_In in Hcap.
  destruct (capture_sound (chars str) _ _ _ _ _ _ _ Hm eq_refl _ _ _ Hcap)
    as [[]|(body & c1 & c2 & Hgroup & Hbody)].
  destruct (matches_span _ _ _ _ _ _ _ Hbody) as (w & p & Hw & Hb & _).
  destruct (matches_consumes _ _ _ _ _ _ _ Hbody) as (w' & Hw' & Hcons).
  assert (w' = w) as -> by (apply (app_inv_tail (skipn b (chars str))); congruence).
  exists body, w. split; [done|]. split; [done|].
  unfold slice. rewrite Hw, Hb. f_equal.
  replace (a + List.length w - a) with (List.length w) by lia.
  by rewrite firstn_app, firstn_all, Nat.sub_diag, app_nil_r.
Qed.

Lemma match_at_sure_group r (str : string) j m n :
  match_at fl r (skipn j (chars str)) j = Some m →
  (0 < n)%nat → In n (sure_groups r) →
  ∃ g, group str m n = Some g.
Proof.
  unfold match_at. intros Hrun Hn Hsure.
  apply run_sound in Hrun as (s' & i' & c' & Hm & [= <-]).
  pose proof (sure_groups_captured _ _ _ _ _ _ _ n Hm Hsure) as Hcap.
  destruct n as [|n]; [lia|]. simpl.
  destruct (cap_lookup c' (S n)) as [[a b]|]; [eauto|done].
Qed.

(** A search returns a match at some offset, a scan only such matches. *)
Lemma search_from_sound r (full : list ascii) : ∀ s i m,
  s = skipn i full →
  search_from fl r s i = Some m →
  ∃ j, match_at fl r (skipn j full) j = Some m.
Proof.
  induction s as [|x s IH]; intros i m Hs; simpl.
  - destruct (match_at fl r [] i) eqn:Hm; [|done].
    intros [= <-]. exists i. by rewrite <- Hs.
  - destruct (match_at fl r (x :: s) i) eqn:Hm.
    + intros [= <-]. exists i. by rewrite <- Hs.
    + simpl. apply IH.
      change (S i) with (1 + i). rewrite Nat.add_comm.
      symmetry. apply (skipn_shift full [x] s). by rewrite <- Hs.
Qed.

Lemma scan_sound r (full : list ascii) : ∀ fuel s i m,
  s = skipn i full →
  In m (scan fl r s i fuel) →
  ∃ j, match_at fl r (skipn j full) j = Some m.
Proof.
  induction fuel as [|fuel IH]; intros s i m Hs; simpl; [done|].
  destruct (search_from fl r s i) as [m0|] eqn:Hsearch; [|done].
  intros [<-|Hin].
  - by eapply search_from_sound.
  - eapply IH; [|exact Hin].
    rewrite Hs, skipn_skipn. f_equal. lia.
Qed.

End MatcherSoundness.

(* ================================================================== *)
(** * The shape of what the patterns extract *)
(* ================================================================== *)

Section ExtractedData.
Import Re regex_spec feed_poller.
Local Open Scope nat_scope.

Lemma consumes_cls_inv fl p w :
  consumes fl (Cls p) w → ∃ x, w = [x] ∧ cls_ok fl p x = true.
Proof. inversion 1; eauto. Qed.

Lemma consumes_chr_inv fl a w :
  consumes fl (Chr a) w → ∃ x, w = [x] ∧ chr_ok fl a x = true.
Proof. inversion 1; eauto. Qed.

Lemma consumes_seq_inv fl r1 r2 w :
  consumes fl (Seq r1 r2) w → ∃ w1 w2, w = w1 ++ w2 ∧ consumes fl r1 w1 ∧ consumes fl r2 w2.
Proof. inversion 1; eauto. Qed.

Lemma consumes_eps_inv fl w : consumes fl Eps w → w = [].
Proof. by inversion 1. Qed.

Lemma consumes_star_cls fl p w :
  consumes fl (Star (Cls p)) w → Forall (λ x, cls_ok fl p x = true) w.
Proof.
  remember (Star (Cls p)) as r eqn:Hr. intros H. revert Hr.
  induction H as [| | | | | | | | |r0 w1 w2 H1 _ H2 IH2| | | | |]; intros Hr; try discriminate.
  - constructor.
  - injection Hr as ->. apply consumes_cls_inv in H1 as (x & -> & Hx).
    constructor; [done|]. by apply IH2.
Qed.

Lemma consumes_plus_cls fl p w :
  consumes fl (plus (Cls p)) w → w ≠ [] ∧ Forall (λ x, cls_ok fl p x = true) w.
Proof.
  unfold plus. intros (w1 & w2 & -> & H1 & H2)%consumes_seq_inv.
  apply consumes_cls_inv in H1 as (x & -> & Hx). apply consumes_star_cls in H2.
  split; [done|]. by constructor.
Qed.

Lemma consumes_rep_cls fl p n : ∀ w,
  consumes fl (rep n (Cls p)) w →
  List.length w = n ∧ Forall (λ x, cls_ok fl p x = true) w.
Proof.
  induction n as [|n IH]; intros w; simpl.
  - intros ->%consumes_eps_inv. split; [done|constructor].
  - intros (w1 & w2 & -> & H1 & H2)%consumes_seq_inv.
    apply consumes_cls_inv in H1 as (x & -> & Hx). apply IH in H2 as [Hlen Hall].
    simpl. split; [by rewrite Hlen|by constructor].
Qed.

Lemma digit_ignorecase x : cls_ok ignorecase is_digit x = is_digit x.
Proof. destruct x as [[] [] [] [] [] [] [] []]; reflexivity. Qed.

Lemma dot_ignorecase x : chr_ok ignorecase "." x = true → x = "."%char.
Proof. destruct x as [[] [] [] [] [] [] [] []]; intros H; try discriminate H; reflexivity. Qed.

Lemma digit_is_no_space x : is_digit x = true → is_space x = false.
Proof.
  unfold is_digit, is_space, in_range. generalize (code x). intros n.
  intros [H1 H2]%andb_true_iff. apply Nat.leb_le in H1, H2.
  apply orb_false_iff. split; apply andb_false_iff.
  - right. apply Nat.leb_gt. lia.
  - right. apply Nat.leb_gt. lia.
Qed.

Lemma strip_word w :
  Forall (λ x, is_space x = false) w → strip (text w) = text w.
Proof.
  intros Hw. unfold strip. rewrite chars_text.
  assert (∀ l, Forall (λ x, is_space x = false) l → lstrip_chars l = l) as Hstrip.
  { intros [|x l] Hl; [done|]. apply Forall_cons in Hl as [Hx _]. simpl. by rewrite Hx. }
  rewrite (Hstrip w Hw), Hstrip, rev_involutive; [done|].
  apply Forall_forall. intros x Hx. rewrite Forall_forall in Hw. apply Hw.
  apply list_elem_of_In. apply list_elem_of_In, in_rev in Hx. done.
Qed.

Lemma title_group_3 body : In (3, body) (groups _TITLE_RE) → body = rep 10 digit.
Proof.
  simpl. intros H.
  repeat (destruct H as [H|H]; [try discriminate H; injection H as <-; reflexivity|]).
  done.
Qed.

Lemma accession_group_1 body :
  In (1, body) (groups accession_re) →
  body = plus (Cls (λ c, is_digit c || Ascii.eqb c "-")).
Proof.
  simpl. intros H.
  repeat (destruct H as [H|H]; [try discriminate H; injection H as <-; reflexivity|]).
  done.
Qed.

Lemma item_group_1 body :
  In (1, body) (groups form_8k._ITEM_RE) →
  body = Seq (plus digit) (Seq (Chr ".") (plus digit)).
Proof.
  simpl. intros H.
  repeat (destruct H as [H|H]; [try discriminate H; injection H as <-; reflexivity|]).
  done.
Qed.

(** X29.  The identifiers of a filing of the feed are well formed:
    the CIK that [_parse_entry] takes from the title is exactly ten
    digits, and the accession number is either the id of the entry
    as it stands, when the id carries no accession marker, or a
    non-empty string of digits and hyphens. *)
Theorem feed_identifiers_are_well_formed (entry : FeedEntry)
    (table : option (gmap string string)) (filing : Filing) :
  _parse_entry entry table = Some filing →
  (String.length (cik filing) = 10
   ∧ forallb is_digit (chars (cik filing)) = true)
  ∧ (accession_number filing = default "" (entry_id entry)
     ∨ (accession_number filing ≠ ""
        ∧ forallb (λ c, is_digit c || Ascii.eqb c "-") (chars (accession_number filing))
          = true)).
Proof.
  unfold _parse_entry.
  destruct (re_match no_flags _TITLE_RE (default "" (entry_title entry))) as [m|] eqn:Hm;
    [|done].
  cbv zeta.
  destruct (match table_get FORM_TO_SEGMENT _ with Some sg => _ | None => _ end) as [sg|];
    [|done].
  intros [= <-]. cbn [cik accession_number]. split.
  - unfold re_match in Hm.
    change (chars (default "" (entry_title entry)))
      with (skipn 0 (chars (default "" (entry_title entry)))) in Hm.
    destruct (match_at_sure_group _ _ _ _ _ 3 Hm) as (g & Hg); [lia|simpl; auto|].
    destruct (match_at_group _ _ _ _ _ 3 g Hm ltac:(lia) Hg) as (body & w & Hbody & Hw & ->).
    apply title_group_3 in Hbody as ->.
    apply consumes_rep_cls in Hw as [Hlen Hall].
    cbn [group] in Hg. cbn [group]. rewrite Hg. simpl default.
    assert (Forall (λ x, is_digit x = true) w) as Hdigits by exact Hall.
    rewrite strip_word.
    + rewrite <- length_chars, chars_text. split; [done|].
      apply forallb_forall. intros x Hx. rewrite Forall_forall in Hdigits.
      apply Hdigits. by apply list_elem_of_In.
    + eapply Forall_impl; [exact Hdigits|]. intros x. apply digit_is_no_space.
  - destruct (re_search no_flags accession_re (default "" (entry_id entry)))
      as [am|] eqn:Ham; [right|by left].
    unfold re_search in Ham.
    apply (search_from_sound _ _ (chars (default "" (entry_id entry)))) in Ham
      as (j & Ham); [|done].
    destruct (match_at_sure_group _ _ _ _ _ 1 Ham) as (g & Hg); [lia|simpl; auto|].
    destruct (match_at_group _ _ _ _ _ 1 g Ham ltac:(lia) Hg) as (body & w & Hbody & Hw & ->).
    apply accession_group_1 in Hbody as ->.
    apply consumes_plus_cls in Hw as [Hne Hall].
    cbn [group] in Hg. cbn [group]. rewrite Hg. simpl default. split.
    + intros H%(f_equal chars). rewrite chars_text in H. done.
    + rewrite chars_text. apply forallb_forall. intros x Hx.
      rewrite Forall_forall in Hall. apply (Hall x). by apply list_elem_of_In.
Qed.

(** X30.  Every item code in the items list of an 8-K has the shape
    of a code: one or more digits, a dot, one or more digits. *)
Theorem item_codes_are_well_formed (soup_text : string → string) (raw_html : string) :
  let parsed_data := snd (form_8k.parse_8k soup_text raw_html) in
  ∃ items,
    dict_get parsed_data "items" = Some (PyList (map PyStr items))
    ∧ ∀ code, code ∈ items →
        ∃ major minor,
          code = text (major ++ "."%char :: minor)
          ∧ is_numeral major = true ∧ is_numeral minor = true.
Proof.
  unfold form_8k.parse_8k. simpl snd.
  generalize (squeeze (soup_text raw_html)). intros txt.
  exists (sorted_set (findall1 ignorecase form_8k._ITEM_RE txt)).
  split; [reflexivity|].
  intros code Hcode. apply (proj1 (sorted_set_elem _ _)) in Hcode.
  unfold findall1 in Hcode. apply list_elem_of_fmap in Hcode as (m & Hcode & Hm).
  unfold finditer in Hm. apply list_elem_of_In in Hm.
  apply (scan_sound _ _ (chars txt)) in Hm as (j & Hm); [|done].
  destruct (match_at_sure_group _ _ _ _ _ 1 Hm) as (g & Hg); [lia|simpl; auto|].
  rewrite Hg in Hcode. simpl in Hcode. subst code.
  destruct (match_at_group _ _ _ _ _ 1 g Hm ltac:(lia) Hg) as (body & w & Hbody & Hw & ->).
  apply item_group_1 in Hbody as ->.
  apply consumes_seq_inv in Hw as (major & rest & -> & Hmajor & Hrest).
  apply consumes_seq_inv in Hrest as (dot & minor & -> & Hdot & Hminor).
  apply consumes_chr_inv in Hdot as (x & -> & Hx). apply dot_ignorecase in Hx as ->.
  apply consumes_plus_cls in Hmajor as [Hne1 Hall1].
  apply consumes_plus_cls in Hminor as [Hne2 Hall2].
  exists major, minor. split; [done|].
  assert (∀ l, l ≠ [] → Forall (λ x, cls_ok ignorecase is_digit x = true) l →
               is_numeral l = true) as Hnum.
  { intros [|y l] Hne Hall; [done|]. unfold is_numeral.
    apply forallb_forall. intros z Hz. rewrite Forall_forall in Hall.
    rewrite <- digit_ignorecase. apply Hall. by apply list_elem_of_In. }
  split; by apply Hnum.
Qed.

End ExtractedData.

(** The identifiers of the example entry. *)
Lemma feed_identifiers_are_well_formed_witness :
  String.length (feed_poller.cik orchestrator_examples.bofa_filing) = 10%nat
  ∧ forallb is_digit (chars (feed_poller.cik orchestrator_examples.bofa_filing)) = true.
Proof.
  refine (proj1 (feed_identifiers_are_well_formed poller_examples.bofa_entry None
                   orchestrator_examples.bofa_filing _)).
  vm_compute. reflexivity.
Defined.
